(** * Form-submission pipeline: validation, rate limiting, templated e-mail, retry

    A shallow embedding of the server-side pipeline of the site:
    - [src/lib/utils.ts]                      ([sanitizeHtml], [validateEmail]),
    - [src/lib/email/email-service.ts]        ([EmailService], [EmailTemplate]),
    - [src/app/api/book-consultation/route.ts] (consultation and contact handlers),
    - [src/app/api/applications/route.ts]     (application handler),
    - the logger ([logError], [logInfo]).

    JavaScript strings are modelled as [string]: a character of the model is
    a UTF-16 code unit below 256 (ASCII and the Latin-1 supplement, so
    [ascii_of_nat 160] is the no-break space U+00A0), and [length] counts code
    units as [.length] does.  The operations of the source keep a string
    inside this range; text with other code units is outside the model.  Code
    that lives in third-party packages (zod's built-in e-mail and datetime patterns,
    DOMPurify, nodemailer's transport, the rate limiter, the regular-expression
    compiler of the runtime for patterns that are more than literal text) is
    taken as a parameter of the model, never invented. *)

From Stdlib Require Import String Ascii List Bool Arith Lia NArith DecimalString.
From stdpp Require Import base strings gmap.
From Equations Require Import Equations.
Import ListNotations.

Local Open Scope string_scope.
Local Open Scope list_scope.

(** ** Characters and strings as JavaScript sees them *)

Module Js.

Definition code (c : ascii) : nat := nat_of_ascii c.

Definition between (lo hi : ascii) (c : ascii) : bool :=
  (code lo <=? code c)%nat && (code c <=? code hi)%nat.

Definition is_lower (c : ascii) : bool := between "a" "z" c.
Definition is_upper (c : ascii) : bool := between "A" "Z" c.
Definition is_digit (c : ascii) : bool := between "0" "9" c.
Definition is_alpha (c : ascii) : bool := is_lower c || is_upper c.
Definition is_alnum (c : ascii) : bool := is_alpha c || is_digit c.

Definition is_char (x : ascii) (c : ascii) : bool := Ascii.eqb x c.

(** Membership in the characters of a literal, for bracket classes. *)
Fixpoint one_of (set : string) (c : ascii) : bool :=
  match set with
  | EmptyString => false
  | String x rest => Ascii.eqb x c || one_of rest c
  end.

(** [\s] and the characters [String.prototype.trim] strips (WhiteSpace and
    LineTerminator of the language), among the code units below 256: TAB,
    LF, VT, FF, CR, SPACE and the no-break space U+00A0. *)
Definition is_space (c : ascii) : bool :=
  let n := code c in
  (n =? 9)%nat || (n =? 10)%nat || (n =? 11)%nat || (n =? 12)%nat
  || (n =? 13)%nat || (n =? 32)%nat || (n =? 160)%nat.

(** The capital letters of the Latin-1 supplement: U+00C0 to U+00DE without
    the multiplication sign U+00D7. *)
Definition is_upper_latin1 (c : ascii) : bool :=
  let n := code c in
  (192 <=? n)%nat && (n <=? 222)%nat && negb (n =? 215)%nat.

(** [String.prototype.toLowerCase] on one code unit below 256: a capital
    letter, of ASCII or of the Latin-1 supplement, moves up by 32. *)
Definition lower_char (c : ascii) : ascii :=
  if is_upper c || is_upper_latin1 c then ascii_of_nat (code c + 32) else c.

Fixpoint toLowerCase (s : string) : string :=
  match s with
  | EmptyString => EmptyString
  | String c rest => String (lower_char c) (toLowerCase rest)
  end.

Fixpoint trimStart (s : string) : string :=
  match s with
  | EmptyString => EmptyString
  | String c rest => if is_space c then trimStart rest else s
  end.

(** Drops trailing white space: a character is kept when it is not white
    space or something is kept after it. *)
Fixpoint trimEnd (s : string) : string :=
  match s with
  | EmptyString => EmptyString
  | String c rest =>
      match trimEnd rest with
      | EmptyString => if is_space c then EmptyString else String c EmptyString
      | kept => String c kept
      end
  end.

Definition trim (s : string) : string := trimEnd (trimStart s).

(** Truthiness of a string: only the empty string is falsy. *)
Definition truthy (s : string) : bool :=
  match s with EmptyString => false | _ => true end.

(** Truthiness of an optional string ([undefined] is falsy). *)
Definition truthy_opt (o : option string) : bool :=
  match o with Some s => truthy s | None => false end.

(** [a || b] on an optional string with a string default. *)
Definition or_else (o : option string) (d : string) : string :=
  match o with
  | Some s => if truthy s then s else d
  | None => d
  end.

(** [Number.prototype.toString] on a natural number. *)
Definition nat_toString (n : nat) : string :=
  NilZero.string_of_uint (Nat.to_uint n).

Definition N_toString (n : N) : string :=
  NilZero.string_of_uint (N.to_uint n).

(** [Array.prototype.join]. *)
Fixpoint join (sep : string) (l : list string) : string :=
  match l with
  | [] => EmptyString
  | [x] => x
  | x :: rest => x ++ sep ++ join sep rest
  end.

End Js.

(** ** Regular expressions

    The patterns of the source are written as terms of [regex]; [matches] is
    the anchored test [/^r$/.test(s)], computed with derivatives. *)

Module Re.

Inductive regex : Type :=
| Fail
| Empty
| Class (p : ascii -> bool)
| Seq (r1 r2 : regex)
| Alt (r1 r2 : regex)
| Star (r : regex).

Definition Opt (r : regex) : regex := Alt Empty r.
Definition Plus (r : regex) : regex := Seq r (Star r).

(** [r{0,n}] *)
Fixpoint Upto (n : nat) (r : regex) : regex :=
  match n with
  | O => Empty
  | S k => Opt (Seq r (Upto k r))
  end.

(** [r{lo,lo+extra}] *)
Fixpoint Repeat (lo extra : nat) (r : regex) : regex :=
  match lo with
  | O => Upto extra r
  | S k => Seq r (Repeat k extra r)
  end.

Fixpoint nullable (r : regex) : bool :=
  match r with
  | Fail => false
  | Empty => true
  | Class _ => false
  | Seq r1 r2 => nullable r1 && nullable r2
  | Alt r1 r2 => nullable r1 || nullable r2
  | Star _ => true
  end.

Definition seq (r1 r2 : regex) : regex :=
  match r1, r2 with
  | Fail, _ => Fail
  | _, Fail => Fail
  | Empty, _ => r2
  | _, _ => Seq r1 r2
  end.

Definition alt (r1 r2 : regex) : regex :=
  match r1, r2 with
  | Fail, _ => r2
  | _, Fail => r1
  | _, _ => Alt r1 r2
  end.

Fixpoint deriv (c : ascii) (r : regex) : regex :=
  match r with
  | Fail => Fail
  | Empty => Fail
  | Class p => if p c then Empty else Fail
  | Seq r1 r2 =>
      if nullable r1
      then alt (seq (deriv c r1) r2) (deriv c r2)
      else seq (deriv c r1) r2
  | Alt r1 r2 => alt (deriv c r1) (deriv c r2)
  | Star r1 => seq (deriv c r1) (Star r1)
  end.

Fixpoint matches (r : regex) (s : string) : bool :=
  match s with
  | EmptyString => nullable r
  | String c rest => matches (deriv c r) rest
  end.

(** [/r$/.test(s)]: the pattern is anchored at the end only, so any prefix
    may precede the match. *)
Definition matches_suffix (r : regex) (s : string) : bool :=
  matches (Seq (Star (Class (fun _ => true))) r) s.

(** The strings a pattern denotes. *)
Inductive lang : regex -> string -> Prop :=
| lang_Empty : lang Empty EmptyString
| lang_Class p c : p c = true -> lang (Class p) (String c EmptyString)
| lang_Seq r1 r2 s1 s2 : lang r1 s1 -> lang r2 s2 -> lang (Seq r1 r2) (s1 ++ s2)
| lang_Alt_l r1 r2 s : lang r1 s -> lang (Alt r1 r2) s
| lang_Alt_r r1 r2 s : lang r2 s -> lang (Alt r1 r2) s
| lang_Star_nil r : lang (Star r) EmptyString
| lang_Star_more r s1 s2 : lang r s1 -> lang (Star r) s2 -> lang (Star r) (s1 ++ s2).

End Re.

(** ** [validateEmail] (src/lib/utils.ts, src/lib/email/email-service.ts) *)

(** [[a-zA-Z0-9.!#$%&'*+/=?^_`{|}~-]] *)
Definition local_char (c : ascii) : bool :=
  Js.is_alnum c || Js.one_of ".!#$%&'*+/=?^_`{|}~-" c.

(** [[a-zA-Z0-9-]] *)
Definition label_char (c : ascii) : bool :=
  Js.is_alnum c || Js.is_char "-" c.

(** [[a-zA-Z0-9](?:[a-zA-Z0-9-]{0,61}[a-zA-Z0-9])?] *)
Definition domain_label : Re.regex :=
  Re.Seq (Re.Class Js.is_alnum)
         (Re.Opt (Re.Seq (Re.Upto 61 (Re.Class label_char)) (Re.Class Js.is_alnum))).

(** The pattern shared by [validateEmail] and the contact schema:
    [/^[a-zA-Z0-9.!#$%&'*+/=?^_`{|}~-]+@label(?:\.label)*$/]. *)
Definition emailRegex : Re.regex :=
  Re.Seq (Re.Plus (Re.Class local_char))
    (Re.Seq (Re.Class (Js.is_char "@"))
       (Re.Seq domain_label
          (Re.Star (Re.Seq (Re.Class (Js.is_char ".")) domain_label)))).

Definition validateEmail (email : string) : bool := Re.matches emailRegex email.

(** ** Values, exceptions and outcomes *)

(** A thrown JavaScript error: its [name] and [message]. *)
Record JsError : Type := mkError { err_name : string; err_message : string }.

Definition Error (message : string) : JsError := mkError "Error" message.

(** What a call does: it returns a value or throws. *)
Inductive outcome (A : Type) : Type :=
| Returns (a : A)
| Throws (e : JsError).
Arguments Returns {A} a.
Arguments Throws {A} e.

Definition obind {A B : Type} (o : outcome A) (k : A -> outcome B) : outcome B :=
  match o with
  | Returns a => k a
  | Throws e => Throws e
  end.

(** The values a payload field or a template variable can hold.  A number,
    an array or an object is opaque: it is identified by what
    [String(value)] gives (["7"], ["1.5"], ["1e+21"], ["NaN"] for numbers). *)
Inductive jsval : Type :=
| VUndefined
| VNull
| VBool (b : bool)
| VNumber (display : string)
| VStr (s : string)
| VObject (display : string).

(** [String(value)] *)
Definition String_of (v : jsval) : string :=
  match v with
  | VUndefined => "undefined"
  | VNull => "null"
  | VBool true => "true"
  | VBool false => "false"
  | VNumber display => display
  | VStr s => s
  | VObject display => display
  end.

(** ** [String.prototype.replace] with a global pattern that is literal text *)

Module Replace.

Fixpoint starts_with (pat s : string) : bool :=
  match pat, s with
  | EmptyString, _ => true
  | String p pat', String c s' => Ascii.eqb p c && starts_with pat' s'
  | String _ _, EmptyString => false
  end.

Fixpoint drop (n : nat) (s : string) : string :=
  match n, s with
  | O, _ => s
  | S k, String _ rest => drop k rest
  | S _, EmptyString => EmptyString
  end.

(** GetSubstitution for a match without capture groups: [$$] is a dollar
    sign, [$&] the matched text, [$`] the text before the match, [$'] the
    text after it; every other [$] stands for itself. *)
Fixpoint expand (replacement matched before after : string) : string :=
  match replacement with
  | EmptyString => EmptyString
  | String c tail =>
      if Ascii.eqb c "$" then
        match tail with
        | String d rest =>
            if Ascii.eqb d "$" then String "$" (expand rest matched before after)
            else if Ascii.eqb d "&" then matched ++ expand rest matched before after
            else if Ascii.eqb d "`" then before ++ expand rest matched before after
            else if Ascii.eqb d "'" then after ++ expand rest matched before after
            else String "$" (expand tail matched before after)
        | EmptyString => String "$" EmptyString
        end
      else String c (expand tail matched before after)
  end.

(** The scan of [s.replace(/pat/g, replacement)]: matches are found left to
    right in the original string and do not overlap; [before] is the part of
    the original string already passed, [skip] the number of characters of
    the current match still to pass. *)
Fixpoint scan (pat replacement : string) (skip : nat) (before s : string) : string :=
  match s with
  | EmptyString =>
      match pat with
      | EmptyString => expand replacement EmptyString before EmptyString
      | _ => EmptyString
      end
  | String c rest =>
      match skip with
      | S k => scan pat replacement k (before ++ String c EmptyString) rest
      | O =>
          if starts_with pat s then
            expand replacement pat before (drop (String.length pat) s)
            ++ match pat with
               | EmptyString =>
                   String c (scan pat replacement 0 (before ++ String c EmptyString) rest)
               | String _ pat' =>
                   scan pat replacement (String.length pat') (before ++ String c EmptyString) rest
               end
          else String c (scan pat replacement 0 (before ++ String c EmptyString) rest)
      end
  end.

Definition replace_all (pat replacement s : string) : string :=
  scan pat replacement 0 EmptyString s.

(** [pat] occurs somewhere in [s]. *)
Fixpoint occurs (pat s : string) : bool :=
  starts_with pat s
  || match s with
     | EmptyString => false
     | String _ rest => occurs pat rest
     end.

End Replace.

(** ** [EmailTemplate] (src/lib/email/email-service.ts) *)

Record RenderedTemplate : Type := mkRendered { html : string; text : string }.

Record EmailTemplate : Type :=
  mkTemplate { htmlTemplate : string; textTemplate : string }.

(** What [s.replace(regex, replacement)] computes, as a function of the
    replacement and of [s]. *)
Definition Replacer : Type := string -> string -> string.

(** The source text of the pattern built for a key: [`{{${key}}}`]. *)
Definition placeholder (key : string) : string := "{{" ++ key ++ "}}".

(** Characters with a meaning in a pattern. *)
Definition syntax_char (c : ascii) : bool := Js.one_of "^$\.*+?()[]{}|" c.

Fixpoint no_syntax (s : string) : bool :=
  match s with
  | EmptyString => true
  | String c rest => negb (syntax_char c) && no_syntax rest
  end.

(** A key for which [{{key}}] is literal text as a pattern: no syntax
    character in the key, and no leading digit (which would make the inner
    brace a quantifier, as in [{{2}}]). *)
Definition plain_key (key : string) : bool :=
  no_syntax key
  && match key with
     | String c _ => negb (Js.is_digit c)
     | EmptyString => true
     end.

Section Render.

(** [new RegExp(source, 'g')] for the sources that are more than literal
    text: the runtime's compiler, which may throw a SyntaxError. *)
Variable RegExp_g : string -> outcome Replacer.

Definition new_RegExp_g (key : string) : outcome Replacer :=
  if plain_key key
  then Returns (Replace.replace_all (placeholder key))
  else RegExp_g (placeholder key).

(** One round of the [forEach] of [render]. *)
Definition render_step (acc : outcome RenderedTemplate) (entry : string * jsval)
  : outcome RenderedTemplate :=
  obind acc (fun r =>
  obind (new_RegExp_g (fst entry)) (fun regex =>
  Returns {| html := regex (String_of (snd entry)) (html r);
             text := regex (String_of (snd entry)) (text r) |})).

(** [render(data)]; [data] is given as [Object.entries] lists it. *)
Definition render (t : EmailTemplate) (data : list (string * jsval))
  : outcome RenderedTemplate :=
  fold_left render_step data
    (Returns {| html := htmlTemplate t; text := textTemplate t |}).

End Render.

(** ** [sanitizeHtml] (src/lib/utils.ts)

    The cleaning itself is DOMPurify's; the repository fixes the
    configuration it is called with. *)

Record SanitizeConfig : Type := mkSanitizeConfig {
  ALLOWED_TAGS : list string;
  ALLOWED_ATTR : list string;
  ALLOWED_URI_REGEXP : string;   (* the pattern's source text; flag [i] *)
  ADD_ATTR : list string;
  FORBID_TAGS : list string;
  FORBID_ATTR : list string;
  SANITIZE_DOM : bool;
  KEEP_CONTENT : bool
}.

Definition sanitize_config : SanitizeConfig := {|
  ALLOWED_TAGS :=
    ["a"; "b"; "br"; "div"; "em"; "h1"; "h2"; "h3"; "h4"; "h5"; "h6";
     "i"; "li"; "ol"; "p"; "span"; "strong"; "table"; "tbody"; "td";
     "tfoot"; "th"; "thead"; "tr"; "ul"];
  ALLOWED_ATTR := ["href"; "target"; "rel"; "style"; "class"];
  ALLOWED_URI_REGEXP :=
    "^(?:(?:(?:f|ht)tps?|mailto|tel|callto|sms|maps):|[^a-z]|[a-z+.\-]+(?:[^a-z+.\-:]|$))";
  ADD_ATTR := ["target"];
  FORBID_TAGS := ["script"; "style"; "iframe"; "form"; "input"; "button"];
  FORBID_ATTR := ["onerror"; "onload"; "onclick"];
  SANITIZE_DOM := true;
  KEEP_CONTENT := true
|}.

(** ** Schemas (zod)

    A schema maps the value found under a key ([None] when the key is
    absent) to the validated value or to the list of issues.  All checks of a
    string run, and all keys of an object are visited, so issues add up; a
    [transform] runs only on a value that passed every check. *)

Module Zod.

Inductive issue_message : Type :=
| Custom (text : string)          (* the message given in the schema *)
| Default (code : string).        (* zod's own message for the issue code *)

(** A pair [{field, message}]: [field] is the path of the issue joined with
    dots, empty for the payload itself. *)
Record FieldError : Type := mkFieldError { field : string; message : issue_message }.

Inductive Parse (A : Type) : Type :=
| Valid (data : A)
| Invalid (errors : list FieldError).
Arguments Valid {A} data.
Arguments Invalid {A} errors.

Definition success {A : Type} (p : Parse A) : bool :=
  match p with Valid _ => true | Invalid _ => false end.

Definition map {A B : Type} (f : A -> B) (p : Parse A) : Parse B :=
  match p with
  | Valid a => Valid (f a)
  | Invalid errors => Invalid errors
  end.

(** Two keys of an object, in the order of the shape. *)
Definition ap {A B : Type} (pf : Parse (A -> B)) (pa : Parse A) : Parse B :=
  match pf, pa with
  | Valid f, Valid a => Valid (f a)
  | Valid _, Invalid errors => Invalid errors
  | Invalid errors, Valid _ => Invalid errors
  | Invalid errors, Invalid more => Invalid (errors ++ more)
  end.

Inductive check : Type :=
| min (n : nat) (text : string)
| max (n : nat) (text : option string)
| email (accepts : string -> bool) (text : string)
| regex (accepts : string -> bool) (text : string)
| datetime (accepts : string -> bool).

Definition told (text : option string) (code : string) : issue_message :=
  match text with Some t => Custom t | None => Default code end.

Definition run_check (key : string) (s : string) (c : check) : list FieldError :=
  match c with
  | min n text =>
      if (String.length s <? n)%nat then [mkFieldError key (Custom text)] else []
  | max n text =>
      if (n <? String.length s)%nat then [mkFieldError key (told text "too_big")] else []
  | email accepts text =>
      if accepts s then [] else [mkFieldError key (Custom text)]
  | regex accepts text =>
      if accepts s then [] else [mkFieldError key (Custom text)]
  | datetime accepts =>
      if accepts s then [] else [mkFieldError key (Default "invalid_string")]
  end.

Definition Schema (A : Type) : Type := string -> option jsval -> Parse A.

(** [z.string()] followed by its checks. *)
Definition string_ (checks : list check) : Schema string :=
  fun key v =>
    match v with
    | Some (VStr s) =>
        match flat_map (run_check key s) checks with
        | [] => Valid s
        | errors => Invalid errors
        end
    | _ => Invalid [mkFieldError key (Default "invalid_type")]
    end.

(** [z.enum([...])] *)
Definition enum (values : list string) : Schema string :=
  fun key v =>
    match v with
    | Some (VStr s) =>
        if existsb (String.eqb s) values then Valid s
        else Invalid [mkFieldError key (Default "invalid_enum_value")]
    | _ => Invalid [mkFieldError key (Default "invalid_type")]
    end.

(** [schema.transform(f)] *)
Definition transform {A B : Type} (f : A -> B) (schema : Schema A) : Schema B :=
  fun key v => map f (schema key v).

(** [schema.optional()] *)
Definition optional {A : Type} (schema : Schema A) : Schema (option A) :=
  fun key v =>
    match v with
    | None | Some VUndefined => Valid None
    | _ => map Some (schema key v)
    end.

End Zod.

(** ** The console, the transport and the environment *)

(** What reaches the console.  The timestamp and the diagnostic metadata of
    a line are not recorded; the validation errors attached to a line are. *)
Inductive LogEntry : Type :=
| log_error (context : string) (error : option JsError) (validationErrors : list Zod.FieldError)
| log_info (context : string) (message : string)
| console_warn (message : string)
| console_log (label : string) (detail : string).

Record Attachment : Type := mkAttachment { filename : string; path : string }.

(** The object handed to [transporter.sendMail]. *)
Record MailOptions : Type := mkMailOptions {
  from_name : string;
  from_address : string;
  mail_to : string;
  mail_subject : string;
  mail_text : option string;
  mail_html : option string;
  mail_replyTo : option string;
  mail_attachments : option (list Attachment);
  mail_headers : list (string * string)
}.

(** [process.env] *)
Record Env : Type := mkEnv {
  NODE_ENV : option string;
  SMTP_HOST : option string;
  SMTP_PORT : option string;
  SMTP_USER : option string;
  SMTP_PASSWORD : option string;
  SMTP_FROM : option string
}.

(** The settings given to [nodemailer.createTransport]. *)
Record TransportConfig : Type := mkTransportConfig {
  host : string;
  port : string;                 (* the text given to [parseInt] *)
  secure : bool;
  auth_user : string;
  auth_pass : string;
  tls_rejectUnauthorized : bool;
  tls_minVersion : string;
  pool : bool;
  maxConnections : nat;
  maxMessages : nat;
  rateLimit_per_second : nat;
  debug : bool;
  logger : bool
}.

(** Everything the pipeline reads from outside the repository. *)
Record Platform : Type := mkPlatform {
  env : Env;
  (** [new Date().toISOString()] and [Date.now()] *)
  clock_iso : string;
  clock_ms : N;
  (** the runtime's pattern compiler, for patterns that are not literal text *)
  RegExp_g : string -> outcome Replacer;
  (** [DOMPurify.sanitize(html, config)] *)
  DOMPurify_sanitize : SanitizeConfig -> string -> outcome string;
  (** [nodemailer.createTransport(settings)] *)
  createTransport : TransportConfig -> outcome unit;
  (** [transporter.sendMail]: what the call number [n] (from 0) does with
      the message, a message id or an exception *)
  sendMail : nat -> MailOptions -> outcome string;
  (** zod's built-in [.email()] and [.datetime()] string checks *)
  zod_email : string -> bool;
  zod_datetime : string -> bool
}.

(** The state the pipeline changes: console lines, calls of
    [transporter.sendMail], timers awaited (in ms) and files truncated, each
    oldest first. *)
Record World : Type := mkWorld {
  console : list LogEntry;
  sent : list MailOptions;
  slept : list nat;
  truncated : list string
}.

Definition M (A : Type) : Type := World -> outcome A * World.

Definition ret {A : Type} (a : A) : M A := fun w => (Returns a, w).
Definition throw {A : Type} (e : JsError) : M A := fun w => (Throws e, w).

Definition bind {A B : Type} (m : M A) (k : A -> M B) : M B :=
  fun w =>
    match m w with
    | (Returns a, w1) => k a w1
    | (Throws e, w1) => (Throws e, w1)
    end.

(** [try { body } catch (error) { handler(error) }] *)
Definition try_catch {A : Type} (body : M A) (handler : JsError -> M A) : M A :=
  fun w =>
    match body w with
    | (Returns a, w1) => (Returns a, w1)
    | (Throws e, w1) => handler e w1
    end.

(** A call of a library function, which returns or throws. *)
Definition lift {A : Type} (o : outcome A) : M A := fun w => (o, w).

Notation "'let!' x ':=' m 'in' k" := (bind m (fun x => k))
  (at level 10, x name, m at level 100, k at level 200).
Notation "'run!' m 'in' k" := (bind m (fun _ => k))
  (at level 10, m at level 100, k at level 200).

Definition emit (entry : LogEntry) : M unit :=
  fun w => (Returns tt, {| console := console w ++ [entry]; sent := sent w;
                           slept := slept w; truncated := truncated w |}).

(** [logError(context, error, metadata)] and [logInfo(context, message)]. *)
Definition logError (context : string) (error : option JsError)
  (validationErrors : list Zod.FieldError) : M unit :=
  emit (log_error context error validationErrors).

Definition logInfo (context message : string) : M unit :=
  emit (log_info context message).

(** [await new Promise(resolve => setTimeout(resolve, ms))] *)
Definition sleep (ms : nat) : M unit :=
  fun w => (Returns tt, {| console := console w; sent := sent w;
                           slept := slept w ++ [ms]; truncated := truncated w |}).

(** [await writeFile(path, '')] *)
Definition truncate_file (result : outcome unit) (file : string) : M unit :=
  fun w =>
    match result with
    | Returns _ => (Returns tt, {| console := console w; sent := sent w;
                                   slept := slept w; truncated := truncated w ++ [file] |})
    | Throws e => (Throws e, w)
    end.

Definition env_is (value : option string) (expected : string) : bool :=
  match value with
  | Some s => String.eqb s expected
  | None => false
  end.

(** ** [EmailService] (src/lib/email/email-service.ts) *)

Inductive Recipients : Type :=
| One (address : string)
| Several (addresses : list string).

Record EmailOptions : Type := mkEmailOptions {
  to : Recipients;
  subject : string;
  o_text : option string;
  o_html : option string;
  o_from : option string;
  o_replyTo : option string;
  o_attachments : option (list Attachment);
  o_template : option EmailTemplate;
  o_templateData : option (list (string * jsval))
}.

Record EmailService : Type := mkEmailService {
  transporter : option TransportConfig;
  defaultFrom : string;
  isConfigured : bool
}.

Definition maxRetries : nat := 3.
Definition retryDelay : nat := 1000.

Definition inspect {A : Type} (a : A) : {b : A | a = b} := exist _ a eq_refl.

(** [s.split('@')[1]]: the text between the first [@] and the next one. *)
Fixpoint until_at (s : string) : string :=
  match s with
  | EmptyString => EmptyString
  | String c rest => if Ascii.eqb c "@" then EmptyString else String c (until_at rest)
  end.

Fixpoint split_at_1 (s : string) : option string :=
  match s with
  | EmptyString => None
  | String c rest => if Ascii.eqb c "@" then Some (until_at rest) else split_at_1 rest
  end.

(** [Array.isArray(emails) ? emails : [emails]] *)
Definition emailList (emails : Recipients) : list string :=
  match emails with
  | Several l => l
  | One e => [e]
  end.

Definition validateEmails (emails : Recipients) : bool :=
  forallb validateEmail (emailList emails).

Section Service.

Context (P : Platform).

Definition production : bool := env_is (NODE_ENV (env P)) "production".
Definition development : bool := env_is (NODE_ENV (env P)) "development".

(** The constructor: [defaultFrom], then [initializeTransporter], with the
    lines it writes to the console. *)
Definition initializeTransporter : EmailService * list LogEntry :=
  let from := Js.or_else (SMTP_FROM (env P)) "" in
  if negb (Js.truthy_opt (SMTP_HOST (env P)))
     || negb (Js.truthy_opt (SMTP_USER (env P)))
     || negb (Js.truthy_opt (SMTP_PASSWORD (env P)))
  then ({| transporter := None; defaultFrom := from; isConfigured := false |},
        [console_warn "Email service not configured: Missing SMTP credentials"])
  else
    let settings := {|
      host := Js.or_else (SMTP_HOST (env P)) "";
      port := Js.or_else (SMTP_PORT (env P)) "587";
      secure := env_is (SMTP_PORT (env P)) "465";
      auth_user := Js.or_else (SMTP_USER (env P)) "";
      auth_pass := Js.or_else (SMTP_PASSWORD (env P)) "";
      tls_rejectUnauthorized := production;
      tls_minVersion := "TLSv1.2";
      pool := true;
      maxConnections := 5;
      maxMessages := 100;
      rateLimit_per_second := 5;
      debug := negb production;
      logger := negb production |} in
    match createTransport P settings with
    | Returns _ =>
        ({| transporter := Some settings; defaultFrom := from; isConfigured := true |}, [])
    | Throws error =>
        ({| transporter := None; defaultFrom := from; isConfigured := false |},
         [log_error "Email Service Initialization Error" (Some error) []])
    end.

(** The singleton [emailService]. *)
Definition emailService : EmailService := fst initializeTransporter.

Definition sanitizeHtml (html : string) : outcome string :=
  DOMPurify_sanitize P sanitize_config html.

(** The [try] block of [sendWithRetry]: one call of the transport.  The
    preview line is recorded with the message id (the URL is nodemailer's). *)
Definition send_once (svc : EmailService) (mailOptions : MailOptions) : M bool :=
  match transporter svc with
  | None => throw (Error "Email transporter not initialized")
  | Some _ =>
      fun w =>
        let w1 := {| console := console w; sent := sent w ++ [mailOptions];
                     slept := slept w; truncated := truncated w |} in
        match sendMail P (List.length (sent w)) mailOptions with
        | Throws error => (Throws error, w1)
        | Returns messageId =>
            (run! (if negb production
                   then run! emit (console_log "Email sent:" messageId) in
                        if Js.truthy messageId
                        then emit (console_log "Preview URL:" messageId)
                        else ret tt
                   else ret tt) in
             run! logInfo "Email Service" "Email sent successfully" in
             ret true) w1
        end
  end.

Equations? sendWithRetry (svc : EmailService) (mailOptions : MailOptions)
  (retries : nat) (w : World) : outcome bool * World
  by wf (maxRetries - retries) lt :=
sendWithRetry svc mailOptions retries w with send_once svc mailOptions w => {
  | (Returns sent_ok, w1) => (Returns sent_ok, w1);
  | (Throws error, w1) with inspect (retries <? maxRetries)%nat => {
      | exist _ true Hlt =>
          match (run! logInfo "Email Service"
                        ("Retrying email send (attempt "
                           ++ Js.nat_toString (retries + 1) ++ ")") in
                 sleep retryDelay) w1 with
          | (_, w2) => sendWithRetry svc mailOptions (retries + 1) w2
          end;
      | exist _ false _ => (Throws error, w1) } }.
Proof.
  apply Nat.ltb_lt in Hlt. lia.
Qed.

(** The message [sendEmail] builds once it has decided to send: template
    applied, HTML cleaned, sender and headers set.  Rendering and cleaning
    may throw. *)
Definition mailOptions_for (svc : EmailService) (options : EmailOptions)
  : outcome MailOptions :=
  obind
    match o_template options, o_templateData options with
    | Some template, Some data =>
        obind (render (RegExp_g P) template data)
              (fun rendered => Returns (Some (html rendered), Some (text rendered)))
    | _, _ => Returns (o_html options, o_text options)
    end (fun content =>
  obind
    match fst content with
    | Some h => if Js.truthy h
                then obind (sanitizeHtml h) (fun h' => Returns (Some h'))
                else Returns (Some h)
    | None => Returns None
    end (fun clean =>
  Returns {|
    from_name := "Carlora Strategic Innovation";
    from_address := Js.or_else (o_from options) (defaultFrom svc);
    mail_to := match to options with
               | Several l => Js.join "," l
               | One address => address
               end;
    mail_subject := subject options;
    mail_text := snd content;
    mail_html := clean;
    mail_replyTo := o_replyTo options;
    mail_attachments := o_attachments options;
    mail_headers :=
      [("X-Entity-Ref-ID", Js.N_toString (clock_ms P));
       ("List-Unsubscribe",
        ("<mailto:unsubscribe@"
           ++ Js.or_else (match SMTP_FROM (env P) with
                          | Some from => split_at_1 from
                          | None => None
                          end) "carlora.com"
           ++ ">")%string)] |})).

(** The body of the [try] block of [sendEmail].  The line of the simulated
    send is recorded with the subject of the message. *)
Definition sendEmail_try (svc : EmailService) (options : EmailOptions) : M bool :=
  if negb (validateEmails (to options))
  then throw (Error "Invalid email address(es)")
  else if development || negb (isConfigured svc)
  then run! emit (console_log "Email would be sent in production:" (subject options)) in
       ret true
  else
    let! mailOptions := lift (mailOptions_for svc options) in
    sendWithRetry svc mailOptions 0.

Definition sendEmail (svc : EmailService) (options : EmailOptions) : M bool :=
  try_catch (sendEmail_try svc options)
    (fun error =>
       run! logError "Email Sending Error" (Some error) [] in
       ret false).

End Service.

(** ** Requests and responses *)

(** A parsed payload: an object with its own keys, or anything else. *)
Inductive Body : Type :=
| BodyObject (fields : gmap string jsval)
| BodyOther (v : jsval).

Record UploadedFile : Type := mkUploadedFile { file_name : string; file_path : string }.

(** An incoming request with what the collaborators of the handler answer
    for it: the rate limiter ([limiter.success], or an exception), the body
    parsers ([request.json()], formidable's [form.parse]) and the file system
    ([writeFile]). *)
Record Request : Type := mkRequest {
  x_forwarded_for : option string;
  user_agent : option string;
  limiter : outcome bool;
  json : outcome Body;
  form : outcome (Body * option UploadedFile);
  writeFile : outcome unit
}.

Inductive ResponseBody : Type :=
| error_body (error : string) (details : option (list Zod.FieldError))
| message_body (success : option bool) (text : string).

Record Response : Type := mkResponse { status : nat; body : ResponseBody }.

Record DiagnosticInfo : Type := mkDiagnosticInfo {
  startTime : string;
  clientIP : string;
  userAgent : option string
}.

Definition diagnosticInfo (P : Platform) (request : Request) : DiagnosticInfo := {|
  startTime := clock_iso P;
  clientIP := Js.or_else (x_forwarded_for request) "unknown";
  userAgent := user_agent request
|}.

(** A header value that may be [null], as a template variable. *)
Definition nullable_text (o : option string) : jsval :=
  match o with Some s => VStr s | None => VNull end.

(** [process.env.SMTP_USER!] as a recipient: an unset variable reaches the
    address test as the text of [undefined]. *)
Definition smtp_user (P : Platform) : Recipients :=
  One (match SMTP_USER (env P) with Some u => u | None => "undefined" end).

Definition too_many_requests : Response :=
  {| status := 429;
     body := error_body "Too many requests. Please try again in a few minutes." None |}.

Definition check_your_input (validationErrors : list Zod.FieldError) : Response :=
  {| status := 400;
     body := error_body "Please check your input and try again" (Some validationErrors) |}.

Definition submission_rejected : Response :=
  {| status := 400; body := error_body "Form submission rejected" None |}.

Definition technical_difficulties : Response :=
  {| status := 500;
     body := error_body
       "We're experiencing technical difficulties. Please try again later or contact support directly."
       None |}.

Definition not_an_object {A : Type} : Zod.Parse A :=
  Zod.Invalid [Zod.mkFieldError "" (Zod.Default "invalid_type")].

Notation "pf <&> pa" := (Zod.ap pf pa) (at level 50, left associativity).

(** ** Consultation booking (src/app/api/book-consultation/route.ts) *)

Module Consultation.

Record Data : Type := mkData {
  name : string;
  email : string;
  company : string;
  industry : string;
  companySize : string;
  consultationType : string;
  message : string;
  preferredDate : string;
  honeypot : option string
}.

Section Handler.

Context (P : Platform).

Definition consultationSchema (data : Body) : Zod.Parse Data :=
  match data with
  | BodyOther _ => not_an_object
  | BodyObject o =>
      Zod.Valid mkData
      <&> Zod.string_ [Zod.min 2 "Name must be at least 2 characters"] "name" (o !! "name")
      <&> Zod.string_ [Zod.email (zod_email P) "Invalid email address"] "email" (o !! "email")
      <&> Zod.string_ [Zod.min 2 "Company name must be at least 2 characters"]
            "company" (o !! "company")
      <&> Zod.enum ["Technology"; "Finance"; "Healthcare"; "Retail"; "Manufacturing"; "Other"]
            "industry" (o !! "industry")
      <&> Zod.enum ["1-10"; "11-50"; "51-200"; "201-500"; "500+"]
            "companySize" (o !! "companySize")
      <&> Zod.enum ["Business Strategy"; "Digital Transformation";
                    "Performance Optimization"; "Market Analysis"; "Innovation Consulting"]
            "consultationType" (o !! "consultationType")
      <&> Zod.string_ [Zod.min 10 "Please provide more details about your needs"]
            "message" (o !! "message")
      <&> Zod.string_ [Zod.min 1 "Please select a preferred date"]
            "preferredDate" (o !! "preferredDate")
      <&> Zod.optional (Zod.string_ [Zod.max 0 None]) "honeypot" (o !! "honeypot")
  end.

(** [{...validatedData, timestamp, ip, userAgent}] as [Object.entries]
    lists it; the optional key is there when the payload had it. *)
Definition templateData (v : Data) (info : DiagnosticInfo) : list (string * jsval) :=
  [("name", VStr (name v)); ("email", VStr (email v)); ("company", VStr (company v));
   ("industry", VStr (industry v)); ("companySize", VStr (companySize v));
   ("consultationType", VStr (consultationType v)); ("message", VStr (message v));
   ("preferredDate", VStr (preferredDate v))]
  ++ match honeypot v with Some h => [("honeypot", VStr h)] | None => [] end
  ++ [("timestamp", VStr (clock_iso P)); ("ip", VStr (clientIP info));
      ("userAgent", nullable_text (userAgent info))].

Definition POST (template : EmailTemplate) (request : Request) : M Response :=
  let info := diagnosticInfo P request in
  try_catch
    (let! limiter_success := lift (limiter request) in
     if negb limiter_success then
       run! logError "Rate Limit Exceeded" None [] in
       ret too_many_requests
     else
       let! data := lift (json request) in
       match consultationSchema data with
       | Zod.Invalid validationErrors =>
           run! logError "Consultation Booking Validation Failed" None validationErrors in
           ret (check_your_input validationErrors)
       | Zod.Valid validatedData =>
           if Js.truthy_opt (honeypot validatedData) then
             run! logError "Honeypot Triggered" None [] in
             ret submission_rejected
           else
             let! emailSent :=
               sendEmail P (emailService P) {|
                 to := smtp_user P;
                 subject := "New Consultation Request: " ++ name validatedData
                            ++ " - " ++ company validatedData;
                 o_text := None; o_html := None; o_from := None; o_replyTo := None;
                 o_attachments := None;
                 o_template := Some template;
                 o_templateData := Some (templateData validatedData info) |} in
             if negb emailSent then
               throw (Error "Failed to send email notification")
             else
               run! logInfo "Consultation Booking Success"
                            "Consultation request submitted successfully" in
               ret {| status := 200;
                      body := message_body (Some true)
                                "Consultation request submitted successfully" |}
       end)
    (fun error =>
       run! logError "Consultation Booking Error" (Some error) [] in
       ret technical_difficulties).

End Handler.

End Consultation.

(** ** Contact form (the second handler of the same source file) *)

Module Contact.

Record Data : Type := mkData {
  name : string;
  email : string;
  message : string;
  timestamp : option string;
  honeypot : option string
}.

(** [/^[a-zA-Z\s]*$/] *)
Definition letters_only (s : string) : bool :=
  Re.matches (Re.Star (Re.Class (fun c => Js.is_alpha c || Js.is_space c))) s.

Section Handler.

Context (P : Platform).

Definition contactSchema (data : Body) : Zod.Parse Data :=
  match data with
  | BodyOther _ => not_an_object
  | BodyObject o =>
      Zod.Valid mkData
      <&> Zod.transform Js.trim
            (Zod.string_ [Zod.min 2 "Name must be at least 2 characters";
                          Zod.regex letters_only "Name must contain only letters"])
            "name" (o !! "name")
      <&> Zod.transform (fun val => Js.trim (Js.toLowerCase val))
            (Zod.string_ [Zod.email (zod_email P) "Invalid email format";
                          Zod.regex validateEmail "Please enter a valid email address"])
            "email" (o !! "email")
      <&> Zod.transform Js.trim
            (Zod.string_ [Zod.min 10 "Message must be at least 10 characters";
                          Zod.max 1000 (Some "Message must not exceed 1000 characters")])
            "message" (o !! "message")
      <&> Zod.optional (Zod.string_ [Zod.datetime (zod_datetime P)])
            "timestamp" (o !! "timestamp")
      <&> Zod.optional (Zod.string_ [Zod.max 0 None]) "honeypot" (o !! "honeypot")
  end.

Definition templateData (v : Data) (info : DiagnosticInfo) : list (string * jsval) :=
  [("name", VStr (name v)); ("email", VStr (email v)); ("message", VStr (message v));
   ("timestamp", VStr (clock_iso P)); ("ip", VStr (clientIP info));
   ("userAgent", nullable_text (userAgent info))].

Definition POST (template : EmailTemplate) (request : Request) : M Response :=
  let info := diagnosticInfo P request in
  try_catch
    (let! limiter_success := lift (limiter request) in
     if negb limiter_success then
       run! logError "Rate Limit Exceeded" None [] in
       ret too_many_requests
     else
       let! data := lift (json request) in
       match contactSchema data with
       | Zod.Invalid validationErrors =>
           run! logError "Form Validation Failed" None validationErrors in
           ret (check_your_input validationErrors)
       | Zod.Valid validatedData =>
           if Js.truthy_opt (honeypot validatedData) then
             run! logError "Honeypot Triggered" None [] in
             ret submission_rejected
           else
             let! emailSent :=
               sendEmail P (emailService P) {|
                 to := smtp_user P;
                 subject := "Contact Form: " ++ name validatedData;
                 o_text := None; o_html := None; o_from := None; o_replyTo := None;
                 o_attachments := None;
                 o_template := Some template;
                 o_templateData := Some (templateData validatedData info) |} in
             if negb emailSent then
               throw (Error "Failed to send email notification")
             else
               run! logInfo "Form Submission Success"
                            "Contact form submitted successfully" in
               ret {| status := 200;
                      body := message_body None "Message sent successfully" |}
       end)
    (fun error =>
       run! logError "Contact Form Error" (Some error) [] in
       ret technical_difficulties).

End Handler.

End Contact.

(** ** Application form (src/app/api/applications/route.ts) *)

Module Application.

Record Data : Type := mkData {
  name : string;
  email : string;
  phone : string;
  message : string;
  honeypot : option string
}.

(** [/\+?[1-9]\d{1,14}$/]: not anchored at the start. *)
Definition phone_pattern : Re.regex :=
  Re.Seq (Re.Opt (Re.Class (Js.is_char "+")))
    (Re.Seq (Re.Class (Js.between "1" "9"))
            (Re.Repeat 1 13 (Re.Class Js.is_digit))).

Definition phone_like (s : string) : bool := Re.matches_suffix phone_pattern s.

Section Handler.

Context (P : Platform).

Definition applicationSchema (data : Body) : Zod.Parse Data :=
  match data with
  | BodyOther _ => not_an_object
  | BodyObject o =>
      Zod.Valid mkData
      <&> Zod.string_ [Zod.min 2 "Name must be at least 2 characters"] "name" (o !! "name")
      <&> Zod.string_ [Zod.email (zod_email P) "Invalid email address"] "email" (o !! "email")
      <&> Zod.string_ [Zod.regex phone_like "Invalid phone number"] "phone" (o !! "phone")
      <&> Zod.string_ [Zod.min 10 "Please provide more details"] "message" (o !! "message")
      <&> Zod.optional (Zod.string_ [Zod.max 0 None]) "honeypot" (o !! "honeypot")
  end.

Definition templateData (v : Data) (info : DiagnosticInfo) : list (string * jsval) :=
  [("name", VStr (name v)); ("email", VStr (email v)); ("phone", VStr (phone v));
   ("message", VStr (message v));
   ("timestamp", VStr (clock_iso P)); ("ip", VStr (clientIP info));
   ("userAgent", nullable_text (userAgent info))].

Definition POST (template : EmailTemplate) (request : Request) : M Response :=
  let info := diagnosticInfo P request in
  try_catch
    (let! limiter_success := lift (limiter request) in
     if negb limiter_success then
       run! logError "Rate Limit Exceeded" None [] in
       ret too_many_requests
     else
       let! parsed := lift (form request) in
       let fields := fst parsed in
       let resume := snd parsed in
       match applicationSchema fields with
       | Zod.Invalid validationErrors =>
           run! logError "Application Form Validation Failed" None validationErrors in
           ret (check_your_input validationErrors)
       | Zod.Valid validatedData =>
           if Js.truthy_opt (honeypot validatedData) then
             run! logError "Honeypot Triggered" None [] in
             ret submission_rejected
           else
             let! emailSent :=
               sendEmail P (emailService P) {|
                 to := smtp_user P;
                 subject := "Application Form: " ++ name validatedData;
                 o_text := None; o_html := None; o_from := None; o_replyTo := None;
                 o_attachments :=
                   Some (match resume with
                         | Some file => [{| filename := file_name file;
                                            path := file_path file |}]
                         | None => []
                         end);
                 o_template := Some template;
                 o_templateData := Some (templateData validatedData info) |} in
             if negb emailSent then
               throw (Error "Failed to send email notification")
             else
               run! match resume with
                    | Some file => truncate_file (writeFile request) (file_path file)
                    | None => ret tt
                    end in
               run! logInfo "Application Form Success"
                            "Application submitted successfully" in
               ret {| status := 200;
                      body := message_body None "Application submitted successfully" |}
       end)
    (fun error =>
       run! logError "Application Form Error" (Some error) [] in
       ret technical_difficulties).

End Handler.

End Application.

(** ** Example inputs *)

(** Platforms for the examples: the given environment, a pattern compiler
    that rejects what is not literal text, a cleaner that changes nothing,
    and a transport that fails on its first [failures] calls and works
    afterwards. *)
Definition example_env (mode : string) (smtp_host : option string) : Env :=
  {| NODE_ENV := Some mode; SMTP_HOST := smtp_host;
     SMTP_PORT := Some "465"; SMTP_USER := Some "desk@example.com";
     SMTP_PASSWORD := Some "secret"; SMTP_FROM := Some "site@example.com" |}.

Definition example_platform (environment : Env) (failures : nat) : Platform := {|
  env := environment;
  clock_iso := "2024-05-01T10:00:00.000Z";
  clock_ms := 1714557600000%N;
  RegExp_g := fun _ => Throws (mkError "SyntaxError" "Invalid regular expression");
  DOMPurify_sanitize := fun _ h => Returns h;
  createTransport := fun _ => Returns tt;
  sendMail := fun n _ => if (n <? failures)%nat
                         then Throws (Error "ETIMEDOUT") else Returns "<id@example.com>";
  zod_email := validateEmail;
  zod_datetime := fun _ => true
|}.

Definition flaky_platform (mode : string) (failures : nat) : Platform :=
  example_platform (example_env mode (Some "smtp.example.com")) failures.

(** The same without [SMTP_HOST]. *)
Definition hostless_platform (mode : string) : Platform :=
  example_platform (example_env mode None) 0.

Definition empty_world : World :=
  {| console := []; sent := []; slept := []; truncated := [] |}.

Definition plain_mail (address : string) : EmailOptions := {|
  to := One address; subject := "Hello"; o_text := Some "Hi"; o_html := None;
  o_from := None; o_replyTo := None; o_attachments := None;
  o_template := None; o_templateData := None |}.

Definition demo_template : EmailTemplate :=
  {| htmlTemplate := "<p>{{name}} ({{email}}): {{message}}</p>";
     textTemplate := "{{name}} ({{email}}): {{message}}" |}.

(** The message built for [plain_mail] on the example platforms. *)
Definition plain_message (address : string) : MailOptions :=
  {| from_name := "Carlora Strategic Innovation";
     from_address := "site@example.com";
     mail_to := address;
     mail_subject := "Hello";
     mail_text := Some "Hi";
     mail_html := None;
     mail_replyTo := None;
     mail_attachments := None;
     mail_headers := [("X-Entity-Ref-ID", "1714557600000");
                      ("List-Unsubscribe", "<mailto:unsubscribe@example.com>")] |}.

(** The template of the examples of section 8 of the specification. *)
Definition greeting : EmailTemplate :=
  {| htmlTemplate := "<p>Hi {{name}}</p>"; textTemplate := "Hi {{name}}" |}.


Definition object_of (entries : list (string * jsval)) : Body :=
  BodyObject (list_to_map entries).

(** A consultation payload that passes the schema, with the given honeypot
    added when there is one. *)
Definition consultation_payload (trap : option string) : Body :=
  object_of
    ([("name", VStr "Ann Lee"); ("email", VStr "Ann@Example.COM");
      ("company", VStr "Lee Ltd"); ("industry", VStr "Retail");
      ("companySize", VStr "11-50"); ("consultationType", VStr "Market Analysis");
      ("message", VStr "  We would like a market study.  ");
      ("preferredDate", VStr "2024-06-01")]
     ++ match trap with Some h => [("honeypot", VStr h)] | None => [] end).

Definition contact_payload (address : string) : Body :=
  object_of [("name", VStr " Ann Lee "); ("email", VStr address);
             ("message", VStr "  I have $$ to spend  ")].

Definition application_payload : Body :=
  object_of [("name", VStr "Ann Lee"); ("email", VStr "Ann@Example.COM");
             ("phone", VStr "+4915112345678");
             ("message", VStr " I would like to apply. ")].

(** A request with the given answer of the rate limiter and the given
    payload, as JSON body and as form fields. *)
Definition example_request (admitted : bool) (data : Body) : Request :=
  {| x_forwarded_for := Some "203.0.113.9"; user_agent := None;
     limiter := Returns admitted; json := Returns data;
     form := Returns (data, None); writeFile := Returns tt |}.

(** ** The three routes together *)

Inductive Route : Type :=
| BookConsultation
| ContactForm
| Applications.

Definition handler (P : Platform) (r : Route)
  : EmailTemplate -> Request -> M Response :=
  match r with
  | BookConsultation => Consultation.POST P
  | ContactForm => Contact.POST P
  | Applications => Application.POST P
  end.

(** The payload a route validates: the JSON body, or the fields of the
    multipart form. *)
Definition payload (r : Route) (request : Request) : outcome Body :=
  match r with
  | Applications => obind (form request) (fun parsed => Returns (fst parsed))
  | _ => json request
  end.

(** The honeypot of the validated data, when the payload passes the schema
    of the route. *)
Definition validated_honeypot (P : Platform) (r : Route) (data : Body)
  : Zod.Parse (option string) :=
  match r with
  | BookConsultation => Zod.map Consultation.honeypot (Consultation.consultationSchema P data)
  | ContactForm => Zod.map Contact.honeypot (Contact.contactSchema P data)
  | Applications => Zod.map Application.honeypot (Application.applicationSchema P data)
  end.

(** The context under which a route logs a rejected payload. *)
Definition validation_context (r : Route) : string :=
  match r with
  | BookConsultation => "Consultation Booking Validation Failed"
  | ContactForm => "Form Validation Failed"
  | Applications => "Application Form Validation Failed"
  end.

(** The world after more lines reached the console and nothing else
    happened. *)
Definition logged (w : World) (entries : list LogEntry) : World :=
  {| console := console w ++ entries; sent := sent w;
     slept := slept w; truncated := truncated w |}.

Definition retry_message (attempt : nat) : LogEntry :=
  log_info "Email Service"
    ("Retrying email send (attempt " ++ Js.nat_toString attempt ++ ")").

(** The lines of a successful transport call. *)
Definition success_lines (P : Platform) (messageId : string) : list LogEntry :=
  (if negb (production P)
   then console_log "Email sent:" messageId
        :: (if Js.truthy messageId then [console_log "Preview URL:" messageId] else [])
   else [])
  ++ [log_info "Email Service" "Email sent successfully"].

(** The lines written by the bot-detection branch of a handler, counted. *)
Definition is_bot_line (entry : LogEntry) : bool :=
  match entry with
  | log_error context _ _ => String.eqb context "Honeypot Triggered"
  | _ => false
  end.

Definition bot_count (lines : list LogEntry) : nat :=
  List.length (List.filter is_bot_line lines).

Definition bot_detections (w : World) : nat := bot_count (console w).

(** The world after one failed attempt and the notice and pause that follow it. *)
Definition after_failure (m : MailOptions) (retries : nat) (w : World) : World :=
  {| console := console w ++ [retry_message (retries + 1)];
     sent := sent w ++ [m];
     slept := slept w ++ [retryDelay];
     truncated := truncated w |}.

(** The issue zod reports for a honeypot that is not empty. *)
Definition honeypot_issue : Zod.FieldError :=
  Zod.mkFieldError "honeypot" (Zod.Default "too_big").

(** ** [verifyConnection], [testConnection] and the test script

    The handshake [transporter.verify()] is the transport's; what it does is
    a parameter.  Thrown values are [Error] objects throughout the model. *)

Record TestResult : Type := mkTestResult { test_success : bool; test_message : string }.

(** The message [testConnection] sends to the account itself. *)
Definition test_mail (P : Platform) : EmailOptions := {|
  to := smtp_user P;
  subject := "Email System Test";
  o_text := Some "This is a test email to verify the email system is working correctly.";
  o_html := Some "<p>This is a test email to verify the email system is working correctly.</p>";
  o_from := None; o_replyTo := None; o_attachments := None;
  o_template := None; o_templateData := None |}.

Section Diagnostics.

Context (P : Platform).

(** [await this.transporter.verify()] *)
Variable verify : outcome unit.

Definition verifyConnection (svc : EmailService) : M bool :=
  if negb (isConfigured svc)
     || match transporter svc with None => true | Some _ => false end
  then ret false
  else
    try_catch
      (run! lift verify in
       run! logInfo "Email Service" "Connection verified successfully" in
       ret true)
      (fun error =>
         run! logError "Email Connection Verification Error" (Some error) [] in
         ret false).

Definition testConnection (svc : EmailService) : M TestResult :=
  try_catch
    (let! isConnected := verifyConnection svc in
     if negb isConnected then
       ret {| test_success := false;
              test_message := "Failed to connect to email server" |}
     else
       let! testResult := sendEmail P svc (test_mail P) in
       ret {| test_success := testResult;
              test_message := if testResult
                              then "Email system is working correctly"
                              else "Failed to send test email" |})
    (fun error =>
       ret {| test_success := false; test_message := err_message error |}).

(** The script [testEmailSystem]: the lines it prints and the status it
    passes to [process.exit] (0 when it runs to its end without calling it).
    [console.error] with a label is recorded as an error line under that
    label. *)
Definition testEmailSystem : M nat :=
  run! emit (console_log "Testing email system..." "") in
  try_catch
    (let! result := testConnection (emailService P) in
     run! emit (console_log (String "010" "Test Results:") "") in
     run! emit (console_log "-------------" "") in
     run! emit (console_log "Success:" (if test_success result then "true" else "false")) in
     run! emit (console_log "Message:" (test_message result)) in
     if negb (test_success result) then ret 1 else ret 0)
    (fun error =>
       run! emit (log_error (String "010" "Test failed:") (Some error) []) in
       ret 1).

End Diagnostics.

(** ** The handlers by their stages *)

(** The message a route hands to [sendEmail] when the payload of the request
    passes its schema. *)
Definition submission (P : Platform) (r : Route) (template : EmailTemplate)
  (request : Request) : option EmailOptions :=
  let info := diagnosticInfo P request in
  match r with
  | BookConsultation =>
      match json request with
      | Returns data =>
          match Consultation.consultationSchema P data with
          | Zod.Valid v =>
              Some {| to := smtp_user P;
                      subject := "New Consultation Request: " ++ Consultation.name v
                                 ++ " - " ++ Consultation.company v;
                      o_text := None; o_html := None; o_from := None; o_replyTo := None;
                      o_attachments := None;
                      o_template := Some template;
                      o_templateData := Some (Consultation.templateData P v info) |}
          | Zod.Invalid _ => None
          end
      | Throws _ => None
      end
  | ContactForm =>
      match json request with
      | Returns data =>
          match Contact.contactSchema P data with
          | Zod.Valid v =>
              Some {| to := smtp_user P;
                      subject := "Contact Form: " ++ Contact.name v;
                      o_text := None; o_html := None; o_from := None; o_replyTo := None;
                      o_attachments := None;
                      o_template := Some template;
                      o_templateData := Some (Contact.templateData P v info) |}
          | Zod.Invalid _ => None
          end
      | Throws _ => None
      end
  | Applications =>
      match form request with
      | Returns (fields, resume) =>
          match Application.applicationSchema P fields with
          | Zod.Valid v =>
              Some {| to := smtp_user P;
                      subject := "Application Form: " ++ Application.name v;
                      o_text := None; o_html := None; o_from := None; o_replyTo := None;
                      o_attachments :=
                        Some (match resume with
                              | Some file => [{| filename := file_name file;
                                                 path := file_path file |}]
                              | None => []
                              end);
                      o_template := Some template;
                      o_templateData := Some (Application.templateData P v info) |}
          | Zod.Invalid _ => None
          end
      | Throws _ => None
      end
  end.

(** The uploaded file a route truncates after a successful send. *)
Definition upload (r : Route) (request : Request) : option UploadedFile :=
  match r, form request with
  | Applications, Returns (_, resume) => resume
  | _, _ => None
  end.

(** The answer of a route to an accepted submission. *)
Definition accepted (r : Route) : Response :=
  match r with
  | BookConsultation =>
      {| status := 200;
         body := message_body (Some true) "Consultation request submitted successfully" |}
  | ContactForm =>
      {| status := 200; body := message_body None "Message sent successfully" |}
  | Applications =>
      {| status := 200; body := message_body None "Application submitted successfully" |}
  end.

Definition success_line (r : Route) : LogEntry :=
  match r with
  | BookConsultation =>
      log_info "Consultation Booking Success" "Consultation request submitted successfully"
  | ContactForm =>
      log_info "Form Submission Success" "Contact form submitted successfully"
  | Applications =>
      log_info "Application Form Success" "Application submitted successfully"
  end.

(** The context under which a route logs what its [catch] receives. *)
Definition failure_context (r : Route) : string :=
  match r with
  | BookConsultation => "Consultation Booking Error"
  | ContactForm => "Contact Form Error"
  | Applications => "Application Form Error"
  end.

Definition failure_line (r : Route) (error : JsError) : LogEntry :=
  log_error (failure_context r) (Some error) [].

(** The keys of the schema of a route. *)
Definition schema_keys (r : Route) : list string :=
  match r with
  | BookConsultation =>
      ["name"; "email"; "company"; "industry"; "companySize"; "consultationType";
       "message"; "preferredDate"; "honeypot"]
  | ContactForm => ["name"; "email"; "message"; "timestamp"; "honeypot"]
  | Applications => ["name"; "email"; "phone"; "message"; "honeypot"]
  end.

(** An HTML body that went through the cleaner, or that [sendEmail] leaves
    alone because it is absent or empty. *)
Definition cleaned (P : Platform) (h : option string) : Prop :=
  h = None \/ h = Some ""
  \/ exists raw clean, sanitizeHtml P raw = Returns clean /\ h = Some clean.

(** Every character of a string passes a test. *)
Fixpoint all_chars (p : ascii -> bool) (s : string) : bool :=
  match s with
  | EmptyString => true
  | String c rest => p c && all_chars p rest
  end.

(** The number of occurrences of a character. *)
Fixpoint count_char (x : ascii) (s : string) : nat :=
  match s with
  | EmptyString => 0
  | String c rest => (if Ascii.eqb x c then 1 else 0) + count_char x rest
  end.

(** ** Patterns by their classes *)

Module Pattern.
Import Re.

(** Every class of the pattern lies within a test. *)
Fixpoint classes_within (q : ascii -> bool) (r : regex) : Prop :=
  match r with
  | Fail | Empty => True
  | Class p => forall c, p c = true -> q c = true
  | Seq r1 r2 | Alt r1 r2 => classes_within q r1 /\ classes_within q r2
  | Star r1 => classes_within q r1
  end.

(** Every class of the pattern is closed under a map of characters. *)
Fixpoint classes_closed (f : ascii -> ascii) (r : regex) : Prop :=
  match r with
  | Fail | Empty => True
  | Class p => forall c, p c = true -> p (f c) = true
  | Seq r1 r2 | Alt r1 r2 => classes_closed f r1 /\ classes_closed f r2
  | Star r1 => classes_closed f r1
  end.

Fixpoint map_chars (f : ascii -> ascii) (s : string) : string :=
  match s with
  | EmptyString => EmptyString
  | String c rest => String (f c) (map_chars f rest)
  end.

(** Characters of a domain: those of a label, and the dot. *)
Definition domain_char (c : ascii) : bool := label_char c || Js.is_char "." c.

Definition domain_part : regex :=
  Seq domain_label (Star (Seq (Class (Js.is_char ".")) domain_label)).

End Pattern.

(** The issues of a parse, when it fails: at least one, each under one of
    the given keys. *)
Definition reported {A : Type} (keys : list string) (p : Zod.Parse A) : Prop :=
  match p with
  | Zod.Valid _ => True
  | Zod.Invalid errors =>
      errors <> [] /\ forall e, List.In e errors -> List.In (Zod.field e) keys
  end.

(** A platform in development mode whose [SMTP_USER] is a login name, not an
    address. *)
Definition login_platform : Platform :=
  example_platform
    {| NODE_ENV := Some "development"; SMTP_HOST := Some "smtp.example.com";
       SMTP_PORT := Some "587"; SMTP_USER := Some "apikey";
       SMTP_PASSWORD := Some "secret"; SMTP_FROM := Some "site@example.com" |} 0.

(** * Properties *)

(** ** The patterns and the replacement on examples *)

Example validateEmail_ok : validateEmail "ann.lee+x@mail.example.com" = true.
Proof. vm_compute. reflexivity. Qed.

Example validateEmail_space : validateEmail " ann@example.com" = false.
Proof. vm_compute. reflexivity. Qed.

Example validateEmail_nodomain : validateEmail "ann@" = false.
Proof. vm_compute. reflexivity. Qed.

Example validateEmail_hyphen_end : validateEmail "a@b-.com" = false.
Proof. vm_compute. reflexivity. Qed.

Example validateEmail_undefined : validateEmail "undefined" = false.
Proof. vm_compute. reflexivity. Qed.

Example replace_all_plain : Replace.replace_all "{{name}}" "Ann" "Hi {{name}}, {{name}}!" = "Hi Ann, Ann!".
Proof. vm_compute. reflexivity. Qed.

Example replace_all_dollar_amp : Replace.replace_all "{{name}}" "$&" "Hi {{name}}" = "Hi {{name}}".
Proof. vm_compute. reflexivity. Qed.

Example replace_all_dollars : Replace.replace_all "{{m}}" "costs $$5" "{{m}}" = "costs $5".
Proof. vm_compute. reflexivity. Qed.

Example replace_all_before_after : Replace.replace_all "b" "[$`|$']" "abc" = "a[a|c]c".
Proof. vm_compute. reflexivity. Qed.

Example replace_all_no_overlap : Replace.replace_all "aa" "x" "aaa" = "xa".
Proof. vm_compute. reflexivity. Qed.

Example replace_all_second_match : Replace.replace_all "b" "<$`>" "xbyb" = "x<x>y<xby>".
Proof. vm_compute. reflexivity. Qed.

Example replace_all_no_groups : Replace.replace_all "b" "$1$" "abc" = "a$1$c".
Proof. vm_compute. reflexivity. Qed.

Example trim_both : Js.trim "  Ann Lee  " = "Ann Lee".
Proof. vm_compute. reflexivity. Qed.

Example toLowerCase_mixed : Js.toLowerCase "Ann@Example.COM" = "ann@example.com".
Proof. vm_compute. reflexivity. Qed.

(** The no-break space U+00A0 is white space for [trim] and for [\s]. *)
Example trim_no_break_space :
  Js.trim (String (ascii_of_nat 160) ("hello world" ++ String (ascii_of_nat 160) " "))
  = "hello world".
Proof. vm_compute. reflexivity. Qed.

Example letters_only_no_break_space :
  Contact.letters_only ("Ann" ++ String (ascii_of_nat 160) "Lee") = true.
Proof. vm_compute. reflexivity. Qed.

(** U+00C9 is lower-cased to U+00E9; the multiplication sign U+00D7 and the
    division sign U+00F7 stay. *)
Example toLowerCase_latin1 :
  Js.toLowerCase (String (ascii_of_nat 201) (String (ascii_of_nat 215) "COLE"))
  = String (ascii_of_nat 233) (String (ascii_of_nat 215) "cole").
Proof. vm_compute. reflexivity. Qed.

Example unsubscribe_domain : split_at_1 "site@example.com" = Some "example.com".
Proof. vm_compute. reflexivity. Qed.

Example phone_like_ok : Application.phone_like "+4915112345678" = true.
Proof. vm_compute. reflexivity. Qed.

Example phone_like_suffix : Application.phone_like "call 12" = true.
Proof. vm_compute. reflexivity. Qed.

Example phone_like_short : Application.phone_like "7" = false.
Proof. vm_compute. reflexivity. Qed.

(** ** The matcher decides the language of a pattern *)

Module ReFacts.
Import Re.

#[local] Arguments String.append !s1 s2 : simpl nomatch.

Lemma append_nil_r (s : string) : (s ++ "")%string = s.
Proof. induction s as [| c s IH]; cbn; [reflexivity | rewrite IH; reflexivity]. Qed.

Lemma append_assoc (s1 s2 s3 : string) :
  ((s1 ++ s2) ++ s3)%string = (s1 ++ (s2 ++ s3))%string.
Proof. induction s1 as [| c s1 IH]; cbn; [reflexivity | rewrite IH; reflexivity]. Qed.

Lemma append_empty (s1 s2 : string) :
  (s1 ++ s2)%string = "" -> s1 = "" /\ s2 = "".
Proof. destruct s1; cbn; intros H; [split; [reflexivity | exact H] | discriminate]. Qed.

Lemma nullable_lang r : nullable r = true <-> lang r "".
Proof.
  split.
  - induction r as [| | p | r1 IH1 r2 IH2 | r1 IH1 r2 IH2 | r IH]; cbn; intros H;
      try discriminate.
    + constructor.
    + apply andb_true_iff in H as [H1 H2].
      change "" with ("" ++ "")%string. constructor; auto.
    + apply orb_true_iff in H as [H1 | H2];
        [apply lang_Alt_l | apply lang_Alt_r]; auto.
    + constructor.
  - intros H. remember "" as s eqn:Es. induction H; cbn; try reflexivity.
    + discriminate.
    + apply append_empty in Es as [-> ->]. rewrite IHlang1, IHlang2; reflexivity.
    + rewrite IHlang by exact Es. reflexivity.
    + rewrite IHlang by exact Es. apply orb_true_r.
Qed.

Lemma lang_Fail s : ~ lang Fail s.
Proof. intros H. inversion H. Qed.

Lemma lang_seq r1 r2 s : lang (seq r1 r2) s <-> lang (Seq r1 r2) s.
Proof.
  split.
  - destruct r1, r2; cbn; intros H;
      try exact H; try solve [destruct (lang_Fail _ H)];
      change s with ("" ++ s)%string; (constructor; [constructor | exact H]).
  - intros H. inversion H as [| | ? ? s1 s2 H1 H2 | | | |]; subst.
    destruct r1, r2; cbn;
      try solve [destruct (lang_Fail _ H1)]; try solve [destruct (lang_Fail _ H2)];
      try solve [constructor; assumption];
      inversion H1; subst; exact H2.
Qed.

Lemma lang_alt r1 r2 s : lang (alt r1 r2) s <-> lang (Alt r1 r2) s.
Proof.
  split.
  - destruct r1, r2; cbn; intros H;
      try exact H;
      try solve [apply lang_Alt_l; exact H];
      try solve [apply lang_Alt_r; exact H].
  - intros H. inversion H as [| | | ? ? ? H1 | ? ? ? H2 | |]; subst.
    + destruct r1, r2; cbn;
        try solve [destruct (lang_Fail _ H1)]; try exact H1;
        apply lang_Alt_l; exact H1.
    + destruct r1, r2; cbn;
        try solve [destruct (lang_Fail _ H2)]; try exact H2;
        apply lang_Alt_r; exact H2.
Qed.

(** A non-empty string of [Star r] starts with a non-empty string of [r]. *)
Lemma star_head r s :
  lang (Star r) s ->
  s = "" \/ exists c s1 s2, s = String c (s1 ++ s2) /\ lang r (String c s1) /\ lang (Star r) s2.
Proof.
  intros H. remember (Star r) as sr eqn:Er. induction H; try discriminate.
  - left. reflexivity.
  - injection Er as ->. destruct s1 as [| c s1].
    + cbn. apply IHlang2. reflexivity.
    + right. exists c, s1, s2. repeat split; assumption.
Qed.

Lemma deriv_lang r : forall c s, lang (deriv c r) s <-> lang r (String c s).
Proof.
  induction r as [| | p | r1 IH1 r2 IH2 | r1 IH1 r2 IH2 | r IH]; intros c s; cbn [deriv].
  - split; intros H; inversion H.
  - split; intros H; inversion H.
  - destruct (p c) eqn:Hp; split; intros H.
    + inversion H; subst. constructor. exact Hp.
    + inversion H; subst. constructor.
    + inversion H.
    + inversion H; subst. congruence.
  - split.
    + intros H. destruct (nullable r1) eqn:Hn.
      * apply lang_alt in H. inversion H as [| | | ? ? ? H1 | ? ? ? H2 | |]; subst.
        -- apply lang_seq in H1. inversion H1 as [| | ? ? s1 s2 Ha Hb | | | |]; subst.
           change (String c (s1 ++ s2)) with (String c s1 ++ s2)%string.
           constructor; [apply IH1; exact Ha | exact Hb].
        -- change (String c s) with ("" ++ String c s)%string.
           constructor; [apply nullable_lang; exact Hn | apply IH2; exact H2].
      * apply lang_seq in H. inversion H as [| | ? ? s1 s2 Ha Hb | | | |]; subst.
        change (String c (s1 ++ s2)) with (String c s1 ++ s2)%string.
        constructor; [apply IH1; exact Ha | exact Hb].
    + intros H. inversion H as [| | ? ? s1 s2 Ha Hb Hr Hs | | | |]; subst.
      destruct s1 as [| c1 s1]; cbn in Hs.
      * subst s2. assert (Hn : nullable r1 = true) by (apply nullable_lang; exact Ha).
        rewrite Hn. apply lang_alt, lang_Alt_r, IH2. exact Hb.
      * injection Hs as -> <-.
        assert (Hd : lang (seq (deriv c r1) r2) (s1 ++ s2)).
        { apply lang_seq. constructor; [apply IH1; exact Ha | exact Hb]. }
        destruct (nullable r1); [apply lang_alt, lang_Alt_l |]; exact Hd.
  - split.
    + intros H. apply lang_alt in H.
      inversion H; subst; [apply lang_Alt_l, IH1 | apply lang_Alt_r, IH2]; assumption.
    + intros H. apply lang_alt.
      inversion H; subst; [apply lang_Alt_l, IH1 | apply lang_Alt_r, IH2]; assumption.
  - split.
    + intros H. apply lang_seq in H. inversion H as [| | ? ? s1 s2 Ha Hb | | | |]; subst.
      change (String c (s1 ++ s2)) with (String c s1 ++ s2)%string.
      constructor; [apply IH; exact Ha | exact Hb].
    + intros H. apply star_head in H as [Hnil | (c' & s1 & s2 & Hs & Ha & Hb)];
        [discriminate |].
      injection Hs as <- ->. apply lang_seq.
      constructor; [apply IH; exact Ha | exact Hb].
Qed.

Theorem matches_lang r s : matches r s = true <-> lang r s.
Proof.
  revert r. induction s as [| c s IH]; intros r; cbn.
  - apply nullable_lang.
  - rewrite IH. apply deriv_lang.
Qed.

End ReFacts.

(** ** The monad *)

Lemma logged_nil w : logged w [] = w.
Proof. destruct w. unfold logged. simpl. rewrite app_nil_r. reflexivity. Qed.

Lemma logged_logged w l1 l2 : logged (logged w l1) l2 = logged w (l1 ++ l2).
Proof. unfold logged. simpl. rewrite app_assoc. reflexivity. Qed.

Lemma emit_logged entry w : emit entry w = (Returns tt, logged w [entry]).
Proof. reflexivity. Qed.

(** ** Retry *)

Section ServiceFacts.

Context (P : Platform).

Lemma sendWithRetry_step svc m retries w :
  sendWithRetry P svc m retries w =
  match send_once P svc m w with
  | (Returns ok, w1) => (Returns ok, w1)
  | (Throws error, w1) =>
      if (retries <? maxRetries)%nat
      then sendWithRetry P svc m (retries + 1)
             (snd ((run! logInfo "Email Service"
                           ("Retrying email send (attempt "
                              ++ Js.nat_toString (retries + 1) ++ ")") in
                    sleep retryDelay) w1))
      else (Throws error, w1)
  end.
Proof.
  simp sendWithRetry.
  destruct (send_once P svc m w) as [[ok | error] w1] eqn:E; simpl.
  - reflexivity.
  - destruct (retries <? maxRetries)%nat; reflexivity.
Qed.

Lemma send_once_throws svc t m w e :
  transporter svc = Some t ->
  sendMail P (List.length (sent w)) m = Throws e ->
  send_once P svc m w =
  (Throws e, {| console := console w; sent := sent w ++ [m];
                slept := slept w; truncated := truncated w |}).
Proof.
  intros Ht He. unfold send_once. rewrite Ht, He. reflexivity.
Qed.

Lemma send_once_returns svc t m w id :
  transporter svc = Some t ->
  sendMail P (List.length (sent w)) m = Returns id ->
  send_once P svc m w =
  (Returns true, {| console := console w ++ success_lines P id; sent := sent w ++ [m];
                    slept := slept w; truncated := truncated w |}).
Proof.
  intros Ht Hid. unfold send_once, success_lines. rewrite Ht, Hid.
  destruct (negb (production P)); [destruct (Js.truthy id) |]; cbn;
    rewrite <- ?app_assoc; reflexivity.
Qed.

Lemma send_once_no_transporter svc m w :
  transporter svc = None ->
  send_once P svc m w = (Throws (Error "Email transporter not initialized"), w).
Proof.
  intros Ht. unfold send_once. rewrite Ht. reflexivity.
Qed.

(** A failed attempt that may be retried: notice, pause, next attempt. *)
Lemma sendWithRetry_retries svc t m retries w e :
  transporter svc = Some t ->
  sendMail P (List.length (sent w)) m = Throws e ->
  (retries < maxRetries)%nat ->
  sendWithRetry P svc m retries w =
  sendWithRetry P svc m (retries + 1) (after_failure m retries w).
Proof.
  intros Ht He Hlt. rewrite sendWithRetry_step.
  rewrite (send_once_throws svc t m w e Ht He).
  apply Nat.ltb_lt in Hlt. rewrite Hlt. reflexivity.
Qed.



(** ** [sendEmail] *)

Lemma sendEmail_of_try svc options w :
  sendEmail P svc options w =
  match sendEmail_try P svc options w with
  | (Returns ok, w1) => (Returns ok, w1)
  | (Throws error, w1) =>
      (Returns false, logged w1 [log_error "Email Sending Error" (Some error) []])
  end.
Proof.
  unfold sendEmail, try_catch.
  destruct (sendEmail_try P svc options w) as [[ok | error] w1]; reflexivity.
Qed.

Lemma sendEmail_returns svc options w :
  exists ok w', sendEmail P svc options w = (Returns ok, w').
Proof.
  rewrite sendEmail_of_try.
  destruct (sendEmail_try P svc options w) as [[ok | error] w1]; eauto.
Qed.

End ServiceFacts.

(** A message that cannot be built (the template or the cleaner throws) is
    reported as [false] and never reaches the transport. *)
Lemma sendEmail_build_failure P svc options w error :
  validateEmails (to options) = true ->
  development P = false ->
  isConfigured svc = true ->
  mailOptions_for P svc options = Throws error ->
  sendEmail P svc options w =
  (Returns false, logged w [log_error "Email Sending Error" (Some error) []]).
Proof.
  intros Hvalid Hdev Hconf Hbuild. rewrite sendEmail_of_try.
  unfold sendEmail_try. rewrite Hvalid, Hdev, Hconf. cbn.
  unfold bind, lift. rewrite Hbuild. reflexivity.
Qed.

(** A service whose transporter is missing although it counts as configured:
    every attempt throws before the transport is called, and the error comes
    back as [false]. *)
Lemma sendEmail_no_transporter P svc options w m :
  validateEmails (to options) = true ->
  development P = false ->
  isConfigured svc = true ->
  transporter svc = None ->
  mailOptions_for P svc options = Returns m ->
  fst (sendEmail P svc options w) = Returns false
  /\ sent (snd (sendEmail P svc options w)) = sent w.
Proof.
  intros Hvalid Hdev Hconf Hnone Hbuild. rewrite sendEmail_of_try.
  unfold sendEmail_try. rewrite Hvalid, Hdev, Hconf. cbn.
  unfold bind, lift. rewrite Hbuild.
  do 4 (rewrite sendWithRetry_step, send_once_no_transporter by exact Hnone; cbn).
  split; reflexivity.
Qed.



Lemma validateEmails_false_iff emails :
  validateEmails emails = false <->
  exists bad, List.In bad (emailList emails) /\ validateEmail bad = false.
Proof.
  unfold validateEmails. split.
  - intros H. induction (emailList emails) as [| e l IH]; cbn in H; [discriminate |].
    destruct (validateEmail e) eqn:E.
    + destruct (IH H) as (bad & Hin & Hbad). exists bad. split; [right; exact Hin | exact Hbad].
    + exists e. split; [left; reflexivity | exact E].
  - intros (bad & Hin & Hbad).
    destruct (forallb validateEmail (emailList emails)) eqn:E; [| reflexivity].
    rewrite forallb_forall in E. rewrite (E bad Hin) in Hbad. discriminate.
Qed.

(** C3. When one of the recipients fails the address pattern, [sendEmail]
    returns [false], logs the error, and the transport is not called: the
    world only gains the error line. *)
Theorem sendEmail_invalid_recipient
  (P : Platform) (svc : EmailService) (options : EmailOptions) (w : World)
  (bad : string) :
  List.In bad (emailList (to options)) ->
  validateEmail bad = false ->
  sendEmail P svc options w =
    (Returns false,
     logged w [log_error "Email Sending Error"
                 (Some (Error "Invalid email address(es)")) []])
  /\ sent (snd (sendEmail P svc options w)) = sent w.
Proof.
  intros Hin Hbad.
  assert (Hvalid : validateEmails (to options) = false).
  { apply validateEmails_false_iff. exists bad. split; assumption. }
  assert (Heq : sendEmail P svc options w =
                (Returns false,
                 logged w [log_error "Email Sending Error"
                             (Some (Error "Invalid email address(es)")) []])).
  { rewrite sendEmail_of_try. unfold sendEmail_try. rewrite Hvalid. reflexivity. }
  split; [exact Heq | rewrite Heq; reflexivity].
Qed.

Lemma sendEmail_invalid_recipient_witness :
  let P := flaky_platform "production" 0 in
  let options := {| to := Several ["ann@example.com"; "bob at example.com"];
                    subject := "Hello"; o_text := Some "Hi"; o_html := None;
                    o_from := None; o_replyTo := None; o_attachments := None;
                    o_template := None; o_templateData := None |} in
  sendEmail P (emailService P) options empty_world =
    (Returns false,
     logged empty_world [log_error "Email Sending Error"
                           (Some (Error "Invalid email address(es)")) []])
  /\ sent (snd (sendEmail P (emailService P) options empty_world)) = [].
Proof.
  intros P options.
  apply (sendEmail_invalid_recipient P (emailService P) options empty_world
           "bob at example.com").
  - right. left. reflexivity.
  - vm_compute. reflexivity.
Defined.

(** C4, as the code has it. In production, with [SMTP_HOST] missing, the
    service is unconfigured and [sendEmail] reports success, not failure. *)
Lemma unconfigured_production_reports_success :
  let P := hostless_platform "production" in
  production P = true
  /\ isConfigured (emailService P) = false
  /\ sendEmail P (emailService P) (plain_mail "ann@example.com") empty_world =
     (Returns true,
      logged empty_world [console_log "Email would be sent in production:" "Hello"]).
Proof. vm_compute. repeat split. Qed.

(** C4, amended. When [SMTP_HOST], [SMTP_USER] or [SMTP_PASSWORD] is missing
    or empty, the service is unconfigured and has no transporter, and in
    every environment [sendEmail] ends without calling the transport: with
    recipients that all pass the address pattern it logs the would-be e-mail
    and returns [true]; with a recipient that does not it logs the error and
    returns [false]. *)
Theorem unconfigured_short_circuit
  (P : Platform) (options : EmailOptions) (w : World) :
  Js.truthy_opt (SMTP_HOST (env P)) && Js.truthy_opt (SMTP_USER (env P))
    && Js.truthy_opt (SMTP_PASSWORD (env P)) = false ->
  isConfigured (emailService P) = false
  /\ transporter (emailService P) = None
  /\ sendEmail P (emailService P) options w =
     (if validateEmails (to options)
      then (Returns true,
            logged w [console_log "Email would be sent in production:" (subject options)])
      else (Returns false,
            logged w [log_error "Email Sending Error"
                        (Some (Error "Invalid email address(es)")) []]))
  /\ sent (snd (sendEmail P (emailService P) options w)) = sent w.
Proof.
  intros Hmissing.
  assert (Hsvc : isConfigured (emailService P) = false
                 /\ transporter (emailService P) = None).
  { unfold emailService, initializeTransporter.
    destruct (Js.truthy_opt (SMTP_HOST (env P)));
      destruct (Js.truthy_opt (SMTP_USER (env P)));
      destruct (Js.truthy_opt (SMTP_PASSWORD (env P)));
      try discriminate Hmissing; cbn; split; reflexivity. }
  destruct Hsvc as [Hconf Hnone].
  assert (Heq : sendEmail P (emailService P) options w =
     (if validateEmails (to options)
      then (Returns true,
            logged w [console_log "Email would be sent in production:" (subject options)])
      else (Returns false,
            logged w [log_error "Email Sending Error"
                        (Some (Error "Invalid email address(es)")) []]))).
  { rewrite sendEmail_of_try. unfold sendEmail_try. rewrite Hconf.
    destruct (validateEmails (to options)); cbn.
    - rewrite orb_true_r. reflexivity.
    - reflexivity. }
  repeat split; try assumption.
  rewrite Heq. destruct (validateEmails (to options)); reflexivity.
Qed.

Lemma unconfigured_short_circuit_witness :
  let P := hostless_platform "production" in
  isConfigured (emailService P) = false
  /\ transporter (emailService P) = None
  /\ sendEmail P (emailService P) (plain_mail "ann@example.com") empty_world =
     (if validateEmails (to (plain_mail "ann@example.com"))
      then (Returns true,
            logged empty_world [console_log "Email would be sent in production:" "Hello"])
      else (Returns false,
            logged empty_world [log_error "Email Sending Error"
                                  (Some (Error "Invalid email address(es)")) []]))
  /\ sent (snd (sendEmail P (emailService P) (plain_mail "ann@example.com") empty_world)) = [].
Proof.
  intros P.
  apply (unconfigured_short_circuit P (plain_mail "ann@example.com") empty_world).
  reflexivity.
Defined.

(** C10. [sendEmail] never throws: on every platform, service, message and
    world it returns a boolean; and whenever its body throws (an invalid
    address, a missing transporter, retries exhausted, a template or cleaner
    that throws) the error is logged under "Email Sending Error" and the
    result is [false]. *)
Theorem sendEmail_never_throws
  (P : Platform) (svc : EmailService) (options : EmailOptions) (w : World) :
  (exists ok w', sendEmail P svc options w = (Returns ok, w'))
  /\ (forall error w1,
        sendEmail_try P svc options w = (Throws error, w1) ->
        sendEmail P svc options w =
        (Returns false, logged w1 [log_error "Email Sending Error" (Some error) []])).
Proof.
  split.
  - apply sendEmail_returns.
  - intros error w1 Htry. rewrite sendEmail_of_try, Htry. reflexivity.
Qed.

(** ** Schemas *)

Lemma ap_valid {A B : Type} (pf : Zod.Parse (A -> B)) (pa : Zod.Parse A) (b : B) :
  pf <&> pa = Zod.Valid b ->
  exists f a, pf = Zod.Valid f /\ pa = Zod.Valid a /\ b = f a.
Proof.
  destruct pf as [f | e1], pa as [a | e2]; cbn; intros H; try discriminate.
  injection H as <-. exists f, a. repeat split.
Qed.

Lemma ap_invalid_last {A B : Type} (pf : Zod.Parse (A -> B)) (pa : Zod.Parse A) e :
  pa = Zod.Invalid e ->
  exists errors, pf <&> pa = Zod.Invalid errors /\ List.incl e errors.
Proof.
  intros ->. destruct pf as [f | e1]; cbn.
  - exists e. split; [reflexivity | apply incl_refl].
  - exists (e1 ++ e). split; [reflexivity | apply incl_appr, incl_refl].
Qed.

Lemma map_valid {A B : Type} (f : A -> B) (p : Zod.Parse A) (b : B) :
  Zod.map f p = Zod.Valid b -> exists a, p = Zod.Valid a /\ b = f a.
Proof.
  destruct p as [a | e]; cbn; intros H; [| discriminate].
  injection H as <-. exists a. split; reflexivity.
Qed.

Lemma map_invalid {A B : Type} (f : A -> B) (p : Zod.Parse A) e :
  Zod.map f p = Zod.Invalid e <-> p = Zod.Invalid e.
Proof.
  destruct p as [a | e']; cbn; split; intros H; try discriminate; congruence.
Qed.

(** [z.string().max(0).optional()] accepts an absent key and the empty
    string, nothing else. *)
Lemma honeypot_schema_valid key v h :
  Zod.optional (Zod.string_ [Zod.max 0 None]) key v = Zod.Valid h ->
  h = None \/ h = Some "".
Proof.
  destruct v as [[| | b | n | s | d] |]; cbn; intros H; try discriminate.
  - injection H as <-. left. reflexivity.
  - destruct s as [| c s]; cbn in H; [| discriminate].
    injection H as <-. right. reflexivity.
  - injection H as <-. left. reflexivity.
Qed.

Lemma honeypot_schema_invalid key s :
  s <> "" ->
  Zod.optional (Zod.string_ [Zod.max 0 None]) key (Some (VStr s)) =
  Zod.Invalid [Zod.mkFieldError key (Zod.Default "too_big")].
Proof.
  intros Hs. destruct s as [| c s]; [congruence | reflexivity].
Qed.

Ltac split_fields H :=
  repeat match type of H with
         | _ <&> _ = Zod.Valid _ =>
             let f := fresh "f" in
             let a := fresh "a" in
             let Ha := fresh "Hfield" in
             apply ap_valid in H as (f & a & H & Ha & ->)
         end.

Lemma validated_honeypot_valid P r data h :
  validated_honeypot P r data = Zod.Valid h -> h = None \/ h = Some "".
Proof.
  intros H. destruct r; cbn in H; apply map_valid in H as (v & H & ->);
    (destruct data as [o | other]; [| discriminate H]).
  - unfold Consultation.consultationSchema in H. split_fields H.
    injection H as <-. cbn. eapply honeypot_schema_valid; eassumption.
  - unfold Contact.contactSchema in H. split_fields H.
    injection H as <-. cbn. eapply honeypot_schema_valid; eassumption.
  - unfold Application.applicationSchema in H. split_fields H.
    injection H as <-. cbn. eapply honeypot_schema_valid; eassumption.
Qed.

Lemma validated_honeypot_invalid P r (o : gmap string jsval) s :
  o !! "honeypot" = Some (VStr s) ->
  s <> "" ->
  exists errors,
    validated_honeypot P r (BodyObject o) = Zod.Invalid errors
    /\ List.In honeypot_issue errors.
Proof.
  intros Hget Hs.
  assert (Hpot := honeypot_schema_invalid "honeypot" s Hs).
  destruct r; cbn [validated_honeypot];
    [unfold Consultation.consultationSchema
    | unfold Contact.contactSchema
    | unfold Application.applicationSchema];
    rewrite Hget;
    match goal with
    | |- context [?pf <&> Zod.optional ?sch ?k ?v] =>
        destruct (ap_invalid_last pf (Zod.optional sch k v) _ Hpot) as (errors & -> & Hincl)
    end;
    exists errors; (split; [reflexivity | apply Hincl; left; reflexivity]).
Qed.

(** ** Handlers *)

(** The schema of a route, seen through what the handler does with it. *)
Lemma payload_application request data :
  payload Applications request = Returns data ->
  exists resume, form request = Returns (data, resume).
Proof.
  unfold payload. destruct (form request) as [[fields resume] | e]; cbn; intros H;
    [| discriminate].
  injection H as <-. exists resume. reflexivity.
Qed.

Lemma handler_rate_limited P r template request w :
  limiter request = Returns false ->
  handler P r template request w =
  (Returns too_many_requests, logged w [log_error "Rate Limit Exceeded" None []]).
Proof.
  intros Hlimit.
  destruct r; cbn [handler];
    [unfold Consultation.POST | unfold Contact.POST | unfold Application.POST];
    unfold try_catch, bind, lift; rewrite Hlimit; reflexivity.
Qed.

Lemma handler_validation_failure P r template request w data errors :
  limiter request = Returns true ->
  payload r request = Returns data ->
  validated_honeypot P r data = Zod.Invalid errors ->
  handler P r template request w =
  (Returns (check_your_input errors),
   logged w [log_error (validation_context r) None errors]).
Proof.
  intros Hlimit Hdata Hschema.
  destruct r; cbn [handler validated_honeypot validation_context] in *;
    apply map_invalid in Hschema.
  - cbn in Hdata. unfold Consultation.POST, try_catch, bind, lift.
    rewrite Hlimit, Hdata. cbn [negb]. rewrite Hschema. reflexivity.
  - cbn in Hdata. unfold Contact.POST, try_catch, bind, lift.
    rewrite Hlimit, Hdata. cbn [negb]. rewrite Hschema. reflexivity.
  - apply payload_application in Hdata as (resume & Hform).
    unfold Application.POST, try_catch, bind, lift.
    rewrite Hlimit, Hform. cbn [negb fst snd]. rewrite Hschema. reflexivity.
Qed.

(** C6. A request the rate limiter rejects is answered 429 with the fixed
    message on every route, whatever its payload: the handler stops before
    the payload is parsed or validated, writes one error line, and the
    transport is not called. *)
Theorem rate_limit_short_circuits
  (P : Platform) (r : Route) (template : EmailTemplate) (request : Request)
  (w : World) :
  limiter request = Returns false ->
  handler P r template request w =
    (Returns {| status := 429;
                body := error_body "Too many requests. Please try again in a few minutes."
                          None |},
     logged w [log_error "Rate Limit Exceeded" None []])
  /\ sent (snd (handler P r template request w)) = sent w.
Proof.
  intros Hlimit. rewrite (handler_rate_limited P r template request w Hlimit).
  split; reflexivity.
Qed.

Lemma rate_limit_short_circuits_witness :
  let P := flaky_platform "production" 0 in
  let request := example_request false (object_of [("honeypot", VNumber "7")]) in
  handler P BookConsultation demo_template request empty_world =
    (Returns {| status := 429;
                body := error_body "Too many requests. Please try again in a few minutes."
                          None |},
     logged empty_world [log_error "Rate Limit Exceeded" None []])
  /\ sent (snd (handler P BookConsultation demo_template request empty_world)) = [].
Proof.
  intros P request.
  apply (rate_limit_short_circuits P BookConsultation demo_template request empty_world).
  reflexivity.
Defined.

(** C1, as the code has it. A payload with a non-empty honeypot is answered
    429 when the rate limiter rejects the request; and when the request is
    admitted the 400 it gets is the validation failure with its field-level
    details, not the generic rejection. No e-mail is sent in either case. *)
Lemma honeypot_not_generic_400 :
  let P := flaky_platform "production" 0 in
  let bot := consultation_payload (Some "bot") in
  handler P BookConsultation demo_template (example_request false bot) empty_world =
    (Returns too_many_requests,
     logged empty_world [log_error "Rate Limit Exceeded" None []])
  /\ status too_many_requests = 429
  /\ handler P BookConsultation demo_template (example_request true bot) empty_world =
    (Returns (check_your_input [honeypot_issue]),
     logged empty_world
       [log_error "Consultation Booking Validation Failed" None [honeypot_issue]])
  /\ check_your_input [honeypot_issue] <> submission_rejected.
Proof.
  vm_compute. repeat split. discriminate.
Qed.

(** C1, amended. On every route, when the rate limiter admits the request
    and the payload is an object, a honeypot that is a non-empty string is
    answered 400 whatever the other fields hold, and no e-mail is sent: the
    handler only writes to the console, the transport is not called. *)
Theorem nonempty_honeypot_rejected
  (P : Platform) (r : Route) (template : EmailTemplate) (request : Request)
  (w : World) (o : gmap string jsval) (h : string) :
  limiter request = Returns true ->
  payload r request = Returns (BodyObject o) ->
  o !! "honeypot" = Some (VStr h) ->
  h <> "" ->
  exists response lines,
    handler P r template request w = (Returns response, logged w lines)
    /\ status response = 400
    /\ sent (snd (handler P r template request w)) = sent w.
Proof.
  intros Hlimit Hdata Hget Hh.
  destruct (validated_honeypot_invalid P r o h Hget Hh) as (errors & Hschema & Hin).
  exists (check_your_input errors), [log_error (validation_context r) None errors].
  rewrite (handler_validation_failure P r template request w _ errors Hlimit Hdata Hschema).
  repeat split.
Qed.

Lemma nonempty_honeypot_rejected_witness :
  let P := flaky_platform "production" 0 in
  let request :=
    example_request true (object_of [("name", VStr "x"); ("honeypot", VStr "bot")]) in
  exists response lines,
    handler P Applications demo_template request empty_world =
      (Returns response, logged empty_world lines)
    /\ status response = 400
    /\ sent (snd (handler P Applications demo_template request empty_world)) = [].
Proof.
  intros P request.
  apply (nonempty_honeypot_rejected P Applications demo_template request empty_world
           (list_to_map [("name", VStr "x"); ("honeypot", VStr "bot")]) "bot").
  - reflexivity.
  - reflexivity.
  - vm_compute. reflexivity.
  - discriminate.
Defined.

(** ** The bot-detection branch *)

Lemma bot_count_app l1 l2 : bot_count (l1 ++ l2) = bot_count l1 + bot_count l2.
Proof. unfold bot_count. rewrite List.filter_app, List.length_app. reflexivity. Qed.

Lemma bot_detections_console w w' lines :
  console w' = console w ++ lines ->
  bot_count lines = 0 ->
  bot_detections w' = bot_detections w.
Proof.
  intros Hc Hzero. unfold bot_detections.
  rewrite Hc, bot_count_app, Hzero. lia.
Qed.

Lemma send_once_bot_detections P svc m w :
  bot_detections (snd (send_once P svc m w)) = bot_detections w.
Proof.
  destruct (transporter svc) as [t |] eqn:Ht.
  - destruct (sendMail P (List.length (sent w)) m) as [messageId | error] eqn:Hs.
    + rewrite (send_once_returns P svc t m w messageId Ht Hs). cbn [snd].
      eapply bot_detections_console; [reflexivity |].
      unfold success_lines.
      destruct (negb (production P)), (Js.truthy messageId); reflexivity.
    + rewrite (send_once_throws P svc t m w error Ht Hs). reflexivity.
  - rewrite (send_once_no_transporter P svc m w Ht). reflexivity.
Qed.

Lemma sendWithRetry_bot_detections P svc m :
  forall k retries w,
    maxRetries - retries = k ->
    bot_detections (snd (sendWithRetry P svc m retries w)) = bot_detections w.
Proof.
  induction k as [| k IH]; intros retries w Hk; rewrite sendWithRetry_step;
    pose proof (send_once_bot_detections P svc m w) as Honce;
    destruct (send_once P svc m w) as [[ok | error] w1]; cbn [snd] in *;
    try exact Honce.
  - replace (retries <? maxRetries)%nat with false
      by (symmetry; apply Nat.ltb_ge; lia).
    exact Honce.
  - destruct (retries <? maxRetries)%nat; [| exact Honce].
    rewrite IH by lia. rewrite <- Honce.
    eapply bot_detections_console; [cbn; reflexivity | reflexivity].
Qed.

Lemma sendEmail_bot_detections P svc options w :
  bot_detections (snd (sendEmail P svc options w)) = bot_detections w.
Proof.
  rewrite sendEmail_of_try.
  assert (Htry : bot_detections (snd (sendEmail_try P svc options w)) = bot_detections w).
  { unfold sendEmail_try.
    destruct (negb (validateEmails (to options))); [reflexivity |].
    destruct (development P || negb (isConfigured svc)).
    - cbn -[bot_detections].
      eapply bot_detections_console; [cbn; reflexivity | reflexivity].
    - unfold bind, lift.
      destruct (mailOptions_for P svc options) as [m | error]; [| reflexivity].
      eapply sendWithRetry_bot_detections. reflexivity. }
  destruct (sendEmail_try P svc options w) as [[ok | error] w1]; cbn [snd] in *.
  - exact Htry.
  - rewrite <- Htry. eapply bot_detections_console; [cbn; reflexivity | reflexivity].
Qed.

Lemma not_triggered P r data h :
  validated_honeypot P r data = Zod.Valid h -> Js.truthy_opt h = false.
Proof.
  intros H. destruct (validated_honeypot_valid P r data h H) as [-> | ->]; reflexivity.
Qed.

(** One line written to the console and nothing else. *)
Lemma bot_detections_logged w entry :
  is_bot_line entry = false ->
  bot_detections (logged w [entry]) = bot_detections w.
Proof.
  intros Hline. eapply bot_detections_console; [cbn; reflexivity |].
  unfold bot_count. cbn. rewrite Hline. reflexivity.
Qed.

Ltac answer :=
  eexists _, _; split; [reflexivity |]; split; [discriminate |];
  eapply bot_detections_console; [cbn; rewrite <- ?app_assoc; reflexivity | reflexivity].

Ltac call_sendEmail P w Hbot :=
  match goal with
  | |- context [sendEmail P ?svc ?opts w] =>
      let ok := fresh "ok" in
      let w1 := fresh "w1" in
      let Hsend := fresh "Hsend" in
      pose proof (sendEmail_bot_detections P svc opts w) as Hbot;
      destruct (sendEmail_returns P svc opts w) as (ok & w1 & Hsend);
      rewrite Hsend in *; cbn [snd] in Hbot; destruct ok; cbn -[bot_detections]
  end.

(** Every request gets a response; it is never the bot rejection, and the
    bot-detection line is never written. *)
Lemma handler_outcome P r template request w :
  exists response w',
    handler P r template request w = (Returns response, w')
    /\ response <> submission_rejected
    /\ bot_detections w' = bot_detections w.
Proof.
  destruct r; cbn [handler].
  - unfold Consultation.POST, try_catch, bind, lift.
    destruct (limiter request) as [[|] | error]; cbn [negb]; [| answer | answer].
    destruct (json request) as [data | error]; cbn -[bot_detections]; [| answer].
    destruct (Consultation.consultationSchema P data) as [v | errors] eqn:Hschema;
      [| answer].
    assert (Hh : Js.truthy_opt (Consultation.honeypot v) = false).
    { apply (not_triggered P BookConsultation data). cbn. rewrite Hschema. reflexivity. }
    rewrite Hh. call_sendEmail P w Hbot; rewrite <- Hbot; answer.
  - unfold Contact.POST, try_catch, bind, lift.
    destruct (limiter request) as [[|] | error]; cbn [negb]; [| answer | answer].
    destruct (json request) as [data | error]; cbn -[bot_detections]; [| answer].
    destruct (Contact.contactSchema P data) as [v | errors] eqn:Hschema;
      [| answer].
    assert (Hh : Js.truthy_opt (Contact.honeypot v) = false).
    { apply (not_triggered P ContactForm data). cbn. rewrite Hschema. reflexivity. }
    rewrite Hh. call_sendEmail P w Hbot; rewrite <- Hbot; answer.
  - unfold Application.POST, try_catch, bind, lift.
    destruct (limiter request) as [[|] | error]; cbn [negb]; [| answer | answer].
    destruct (form request) as [[data resume] | error]; cbn -[bot_detections];
      [| answer].
    destruct (Application.applicationSchema P data) as [v | errors] eqn:Hschema;
      [| answer].
    assert (Hh : Js.truthy_opt (Application.honeypot v) = false).
    { apply (not_triggered P Applications data). cbn. rewrite Hschema. reflexivity. }
    rewrite Hh. call_sendEmail P w Hbot; rewrite <- Hbot; [| answer].
    destruct resume as [file |]; [| answer].
    unfold truncate_file. destruct (writeFile request) as [[] | error];
      cbn -[bot_detections]; answer.
Qed.

(** C9. On every route a payload that passes the schema has no honeypot or
    an empty one, so the honeypot branch after validation is never taken: no
    request is answered with the bot rejection and the bot-detection line is
    never logged; a non-empty honeypot of an admitted request is answered
    with the validation failure, whose field-level details name the
    honeypot. *)
Theorem honeypot_branch_unreachable (P : Platform) (r : Route) :
  (forall data h,
      validated_honeypot P r data = Zod.Valid h -> h = None \/ h = Some "")
  /\ (forall template request w,
        fst (handler P r template request w) <> Returns submission_rejected
        /\ bot_detections (snd (handler P r template request w)) = bot_detections w)
  /\ (forall template request w (o : gmap string jsval) h,
        limiter request = Returns true ->
        payload r request = Returns (BodyObject o) ->
        o !! "honeypot" = Some (VStr h) ->
        h <> "" ->
        exists errors,
          List.In honeypot_issue errors
          /\ handler P r template request w =
             (Returns (check_your_input errors),
              logged w [log_error (validation_context r) None errors])).
Proof.
  split; [| split].
  - intros data h. apply validated_honeypot_valid.
  - intros template request w.
    destruct (handler_outcome P r template request w) as (response & w' & -> & Hne & Hbot).
    cbn [fst snd]. split; [congruence | exact Hbot].
  - intros template request w o h Hlimit Hdata Hget Hh.
    destruct (validated_honeypot_invalid P r o h Hget Hh) as (errors & Hschema & Hin).
    exists errors. split; [exact Hin |].
    apply (handler_validation_failure P r template request w _ errors Hlimit Hdata Hschema).
Qed.

(** ** Normalization *)

Lemma string_valid checks key v s :
  Zod.string_ checks key v = Zod.Valid s ->
  v = Some (VStr s) /\ flat_map (Zod.run_check key s) checks = [].
Proof.
  unfold Zod.string_. destruct v as [[| | b | n | s' | d] |]; try discriminate.
  destruct (flat_map (Zod.run_check key s') checks) eqn:E; [| discriminate].
  intros H. injection H as <-. split; [reflexivity | exact E].
Qed.

Lemma transform_valid {A B : Type} (f : A -> B) (schema : Zod.Schema A) key v b :
  Zod.transform f schema key v = Zod.Valid b ->
  exists a, schema key v = Zod.Valid a /\ b = f a.
Proof. unfold Zod.transform. apply map_valid. Qed.

(** The contact schema rejects an address with a space in front, whatever
    zod's own e-mail check says about it. *)
Lemma contact_rejects_untrimmed_email P :
  Zod.success (Contact.contactSchema P (contact_payload " ann@example.com")) = false.
Proof.
  unfold Contact.contactSchema, contact_payload, object_of.
  replace ((list_to_map [("name", VStr " Ann Lee "); ("email", VStr " ann@example.com");
                         ("message", VStr "  I have $$ to spend  ")] : gmap string jsval)
             !! "email") with (Some (VStr " ann@example.com")) by (vm_compute; reflexivity).
  match goal with
  | |- Zod.success (?pf <&> ?pe <&> ?pm <&> ?pt <&> ?ph) = false =>
      assert (He : exists errors, pe = Zod.Invalid errors)
  end.
  { unfold Zod.transform, Zod.string_. cbn [flat_map Zod.run_check].
    destruct (zod_email P " ann@example.com");
      (replace (validateEmail " ann@example.com") with false by (vm_compute; reflexivity));
      cbn; eexists; reflexivity. }
  destruct He as (errors & ->).
  match goal with
  | |- Zod.success (?pf <&> _ <&> ?pm <&> ?pt <&> ?ph) = false =>
      destruct pf, pm, pt, ph; reflexivity
  end.
Qed.

(** C7, as the code has it. The contact schema validates the address as it
    was submitted: with a space in front it is rejected with 400, although
    trimmed it would pass.  The consultation and application schemas have no
    normalization at all: a mixed-case address and a padded message come out
    of validation unchanged. *)
Lemma email_not_normalized_before_validation :
  let P := flaky_platform "production" 0 in
  validateEmail (Js.trim (Js.toLowerCase " ann@example.com")) = true
  /\ Zod.success (Contact.contactSchema P (contact_payload " ann@example.com")) = false
  /\ Zod.map (fun v => (Consultation.email v, Consultation.message v))
       (Consultation.consultationSchema P (consultation_payload None))
     = Zod.Valid ("Ann@Example.COM", "  We would like a market study.  ")
  /\ Zod.map (fun v => (Application.email v, Application.message v))
       (Application.applicationSchema P application_payload)
     = Zod.Valid ("Ann@Example.COM", " I would like to apply. ").
Proof.
  vm_compute. repeat split.
Qed.

Ltac open_field :=
  match goal with
  | H : Zod.transform _ _ _ _ = Zod.Valid _ |- _ =>
      let s := fresh "s" in
      let Hs := fresh "Hs" in
      apply transform_valid in H as (s & Hs & ->);
      apply string_valid in Hs as (Hs & ?)
  | H : Zod.string_ _ _ _ = Zod.Valid _ |- _ =>
      apply string_valid in H as (H & ?)
  end.

(** C7, amended. Only the contact schema normalizes, and it does so after
    validation.  Whenever the contact schema accepts a payload, the name,
    the address and the message it holds passed every check as they were
    submitted (the lengths, the letters-only pattern, both e-mail checks),
    and the validated data holds the trimmed name, the address lower-cased
    then trimmed, and the trimmed message.  Whenever the consultation schema
    or the application schema accepts a payload, the validated strings are
    the submitted ones, unchanged.  Each of the three statements stands on
    its own. *)
Theorem normalization_after_validation (P : Platform) :
  (forall (contact : gmap string jsval) (c : Contact.Data),
      Contact.contactSchema P (BodyObject contact) = Zod.Valid c ->
      exists name email message,
        contact !! "name" = Some (VStr name)
        /\ contact !! "email" = Some (VStr email)
        /\ contact !! "message" = Some (VStr message)
        /\ 2 <= String.length name
        /\ Contact.letters_only name = true
        /\ zod_email P email = true
        /\ validateEmail email = true
        /\ 10 <= String.length message <= 1000
        /\ Contact.name c = Js.trim name
        /\ Contact.email c = Js.trim (Js.toLowerCase email)
        /\ Contact.message c = Js.trim message)
  /\ (forall (consultation : gmap string jsval) (b : Consultation.Data),
      Consultation.consultationSchema P (BodyObject consultation) = Zod.Valid b ->
      consultation !! "name" = Some (VStr (Consultation.name b))
      /\ consultation !! "email" = Some (VStr (Consultation.email b))
      /\ consultation !! "company" = Some (VStr (Consultation.company b))
      /\ consultation !! "message" = Some (VStr (Consultation.message b))
      /\ consultation !! "preferredDate" = Some (VStr (Consultation.preferredDate b)))
  /\ (forall (application : gmap string jsval) (a : Application.Data),
      Application.applicationSchema P (BodyObject application) = Zod.Valid a ->
      application !! "name" = Some (VStr (Application.name a))
      /\ application !! "email" = Some (VStr (Application.email a))
      /\ application !! "phone" = Some (VStr (Application.phone a))
      /\ application !! "message" = Some (VStr (Application.message a))).
Proof.
  split; [| split].
  - intros contact c Hc. unfold Contact.contactSchema in Hc. split_fields Hc.
    injection Hc as <-. repeat open_field.
    match goal with
    | Hn : contact !! "name" = Some (VStr ?n),
      He : contact !! "email" = Some (VStr ?e),
      Hm : contact !! "message" = Some (VStr ?m),
      Hname : flat_map (Zod.run_check "name" ?n) _ = [],
      Hemail : flat_map (Zod.run_check "email" ?e) _ = [],
      Hmessage : flat_map (Zod.run_check "message" ?m) _ = [] |- _ =>
        exists n, e, m; cbn [flat_map Zod.run_check] in Hname, Hemail, Hmessage;
        destruct (String.length n <? 2)%nat eqn:Hshort; [discriminate Hname |];
        destruct (Contact.letters_only n); [| discriminate Hname];
        destruct (zod_email P e); [| discriminate Hemail];
        destruct (validateEmail e); [| discriminate Hemail];
        destruct (String.length m <? 10)%nat eqn:Hlow; [discriminate Hmessage |];
        destruct (1000 <? String.length m)%nat eqn:Hhigh; [discriminate Hmessage |];
        apply Nat.ltb_ge in Hshort, Hlow, Hhigh;
        repeat split; assumption
    end.
  - intros consultation b Hb. unfold Consultation.consultationSchema in Hb. split_fields Hb.
    injection Hb as <-. repeat open_field. cbn. repeat split; assumption.
  - intros application a Ha. unfold Application.applicationSchema in Ha. split_fields Ha.
    injection Ha as <-. repeat open_field. cbn. repeat split; assumption.
Qed.

Lemma normalization_after_validation_witness :
  let P := flaky_platform "production" 0 in
  let nbsp := String (ascii_of_nat 160) "" in
  let contact :=
    object_of [("name", VStr " Ann Lee "); ("email", VStr "Ann@Example.COM");
               ("message", VStr (nbsp ++ "hello world" ++ nbsp))] in
  exists c b a,
    Contact.contactSchema P contact = Zod.Valid c
    /\ Contact.name c = "Ann Lee"
    /\ Contact.email c = "ann@example.com"
    /\ Contact.message c = "hello world"
    /\ Consultation.consultationSchema P (consultation_payload None) = Zod.Valid b
    /\ Consultation.email b = "Ann@Example.COM"
    /\ Consultation.message b = "  We would like a market study.  "
    /\ Application.applicationSchema P application_payload = Zod.Valid a
    /\ Application.email a = "Ann@Example.COM"
    /\ Application.message a = " I would like to apply. ".
Proof.
  intros P nbsp contact.
  pose (c := {| Contact.name := "Ann Lee"; Contact.email := "ann@example.com";
                Contact.message := "hello world";
                Contact.timestamp := None; Contact.honeypot := None |}).
  pose (b := {| Consultation.name := "Ann Lee"; Consultation.email := "Ann@Example.COM";
                Consultation.company := "Lee Ltd"; Consultation.industry := "Retail";
                Consultation.companySize := "11-50";
                Consultation.consultationType := "Market Analysis";
                Consultation.message := "  We would like a market study.  ";
                Consultation.preferredDate := "2024-06-01";
                Consultation.honeypot := None |}).
  pose (a := {| Application.name := "Ann Lee"; Application.email := "Ann@Example.COM";
                Application.phone := "+4915112345678";
                Application.message := " I would like to apply. ";
                Application.honeypot := None |}).
  assert (Hc : Contact.contactSchema P contact = Zod.Valid c)
    by (vm_compute; reflexivity).
  assert (Hb : Consultation.consultationSchema P (consultation_payload None) = Zod.Valid b)
    by (vm_compute; reflexivity).
  assert (Ha : Application.applicationSchema P application_payload = Zod.Valid a)
    by (vm_compute; reflexivity).
  destruct (normalization_after_validation P) as (Hcontact & Hconsultation & Happlication).
  destruct (Hcontact _ c Hc)
    as (n & e & m & Hn & He & Hm & _ & _ & _ & _ & _ & Hname & Hemail & Hmessage).
  destruct (Hconsultation _ b Hb) as (_ & Hbe & _ & Hbm & _).
  destruct (Happlication _ a Ha) as (_ & Hae & _ & Ham).
  exists c, b, a. repeat split; try assumption; reflexivity.
Defined.

(** ** Templates *)

Example render_ann RegExp_g :
  render RegExp_g greeting [("name", VStr "Ann")] =
  Returns {| html := "<p>Hi Ann</p>"; text := "Hi Ann" |}.
Proof. reflexivity. Qed.

Example render_nothing RegExp_g :
  render RegExp_g greeting [] =
  Returns {| html := "<p>Hi {{name}}</p>"; text := "Hi {{name}}" |}.
Proof. reflexivity. Qed.

Example render_other_key RegExp_g :
  render RegExp_g greeting [("email", VStr "ann@example.com"); ("age", VNumber "41")] =
  Returns {| html := "<p>Hi {{name}}</p>"; text := "Hi {{name}}" |}.
Proof. reflexivity. Qed.

(** A replacement without a dollar sign is inserted as it is. *)
Lemma expand_no_dollar replacement matched before after :
  Js.one_of replacement "$" = false ->
  Replace.expand replacement matched before after = replacement.
Proof.
  induction replacement as [| c tail IH]; intros H; [reflexivity |].
  cbn in H. apply orb_false_iff in H as [Hc Htail].
  cbn [Replace.expand]. rewrite Hc, (IH Htail). reflexivity.
Qed.

Lemma render_step_throws RegExp_g e entry :
  render_step RegExp_g (Throws e) entry = Throws e.
Proof. reflexivity. Qed.

Lemma render_from_throws RegExp_g e data :
  fold_left (render_step RegExp_g) data (Throws e) = Throws e.
Proof. induction data as [| entry data IH]; [reflexivity | exact IH]. Qed.

(** With keys that are literal text as patterns, rendering returns. *)
Lemma render_plain_returns RegExp_g t data :
  forallb (fun entry => plain_key (fst entry)) data = true ->
  exists rendered, render RegExp_g t data = Returns rendered.
Proof.
  unfold render.
  generalize {| html := htmlTemplate t; text := textTemplate t |}.
  induction data as [| [key value] data IH]; intros acc Hplain; cbn.
  - exists acc. reflexivity.
  - cbn in Hplain. apply andb_true_iff in Hplain as [Hkey Hrest].
    unfold new_RegExp_g. rewrite Hkey. cbn. apply IH. exact Hrest.
Qed.

(** A pattern that does not occur leaves the string as it is. *)
Lemma scan_absent pat replacement s :
  Replace.occurs pat s = false ->
  forall before, Replace.scan pat replacement 0 before s = s.
Proof.
  induction s as [| c rest IH]; intros Habsent before.
  - cbn in Habsent. apply orb_false_iff in Habsent as [Hstart _].
    destruct pat; [discriminate Hstart | reflexivity].
  - cbn [Replace.occurs] in Habsent. apply orb_false_iff in Habsent as [Hstart Hrest].
    cbn [Replace.scan]. rewrite Hstart, (IH Hrest). reflexivity.
Qed.

(** Placeholders of keys that are not in the data stay, and so does all the
    rest: with plain keys none of whose placeholders occurs in the sources,
    rendering returns the sources. *)
Lemma render_unmatched RegExp_g t data :
  forallb (fun entry =>
             plain_key (fst entry)
             && negb (Replace.occurs (placeholder (fst entry)) (htmlTemplate t))
             && negb (Replace.occurs (placeholder (fst entry)) (textTemplate t)))
          data = true ->
  render RegExp_g t data =
  Returns {| html := htmlTemplate t; text := textTemplate t |}.
Proof.
  unfold render. induction data as [| [key value] data IH]; intros H; [reflexivity |].
  cbn [forallb fst] in H.
  apply andb_true_iff in H as [Hentry Hrest].
  apply andb_true_iff in Hentry as [Hentry Htext].
  apply andb_true_iff in Hentry as [Hkey Hhtml].
  apply negb_true_iff in Hhtml, Htext.
  cbn [fold_left]. unfold render_step at 2. cbn [obind fst snd html text].
  unfold new_RegExp_g. rewrite Hkey. cbn [obind].
  unfold Replace.replace_all.
  rewrite (scan_absent _ _ _ Hhtml), (scan_absent _ _ _ Htext).
  apply IH. exact Hrest.
Qed.

(** With a key whose pattern the runtime refuses, rendering throws. *)
Lemma render_bad_key RegExp_g t key value e :
  plain_key key = false ->
  RegExp_g (placeholder key) = Throws e ->
  render RegExp_g t [(key, value)] = Throws e.
Proof.
  intros Hkey He. unfold render. cbn. unfold new_RegExp_g. rewrite Hkey, He. reflexivity.
Qed.

(** C5. [render] is not a plain substitution of the value: the value is
    used as the replacement text of [String.prototype.replace], so [$&] in it
    stands for the placeholder itself and [$$] for a single dollar sign.
    With the template "Hi {{name}}" and the value "$& and $$" the result is
    "Hi {{name}} and $", not "Hi $& and $$". *)
Theorem render_interprets_dollar_patterns (RegExp_g : string -> outcome Replacer) :
  render RegExp_g greeting [("name", VStr "$& and $$")] =
  Returns {| html := "<p>Hi {{name}} and $</p>"; text := "Hi {{name}} and $" |}.
Proof. reflexivity. Qed.

(** The same through the contact form: a message that passes the schema
    reaches the mail with its dollar signs halved. *)
Example contact_message_loses_dollar :
  let P := flaky_platform "production" 0 in
  List.map mail_text
    (sent (snd (handler P ContactForm
                  {| htmlTemplate := "<p>{{message}}</p>"; textTemplate := "{{message}}" |}
                  (example_request true (contact_payload "ann@example.com"))
                  empty_world)))
  = [Some "I have $ to spend"].
Proof. vm_compute. reflexivity. Qed.

(** * Further properties of the pipeline *)

(** ** What [sendWithRetry] does, in full *)

Section RetryFacts.

Context (P : Platform).

(** The attempts of one call: [n] failed attempts, each followed by a notice
    and a pause, then either a success, or a last failure when no retry is
    left. *)
Lemma sendWithRetry_trace svc t m :
  transporter svc = Some t ->
  forall k retries w,
    maxRetries - retries = k ->
    exists n,
      n <= k
      /\ (forall i, i < n -> exists e, sendMail P (List.length (sent w) + i) m = Throws e)
      /\ sent (snd (sendWithRetry P svc m retries w)) = sent w ++ List.repeat m (n + 1)
      /\ slept (snd (sendWithRetry P svc m retries w)) = slept w ++ List.repeat retryDelay n
      /\ truncated (snd (sendWithRetry P svc m retries w)) = truncated w
      /\ ((exists id,
              sendMail P (List.length (sent w) + n) m = Returns id
              /\ fst (sendWithRetry P svc m retries w) = Returns true
              /\ console (snd (sendWithRetry P svc m retries w)) =
                 console w ++ List.map retry_message (List.seq (retries + 1) n)
                 ++ success_lines P id)
          \/ (n = k
              /\ exists e,
                  sendMail P (List.length (sent w) + n) m = Throws e
                  /\ fst (sendWithRetry P svc m retries w) = Throws e
                  /\ console (snd (sendWithRetry P svc m retries w)) =
                     console w ++ List.map retry_message (List.seq (retries + 1) n))).
Proof.
  intros Ht k. induction k as [| k IH]; intros retries w Hk.
  - exists 0. rewrite Nat.add_0_r.
    split; [lia |]. split; [intros i Hi; lia |].
    rewrite sendWithRetry_step.
    destruct (sendMail P (List.length (sent w)) m) as [id | e] eqn:Hs.
    + rewrite (send_once_returns P svc t m w id Ht Hs). cbn.
      repeat split; try (rewrite app_nil_r; reflexivity).
      left. exists id. repeat split.
    + rewrite (send_once_throws P svc t m w e Ht Hs).
      replace (retries <? maxRetries)%nat with false
        by (symmetry; apply Nat.ltb_ge; lia).
      cbn. repeat split; try (rewrite app_nil_r; reflexivity).
      right. split; [reflexivity |]. exists e. repeat split.
      rewrite app_nil_r. reflexivity.
  - destruct (sendMail P (List.length (sent w)) m) as [id | e] eqn:Hs.
    + exists 0. rewrite Nat.add_0_r.
      split; [lia |]. split; [intros i Hi; lia |].
      rewrite sendWithRetry_step, (send_once_returns P svc t m w id Ht Hs). cbn.
      repeat split; try (rewrite app_nil_r; reflexivity).
      left. exists id. repeat split; [exact Hs].
    + rewrite (sendWithRetry_retries P svc t m retries w e Ht Hs) by lia.
      destruct (IH (retries + 1) (after_failure m retries w)) as
        (n & Hn & Hfail & Hsent & Hslept & Htrunc & Hend); [lia |].
      assert (Hlen : List.length (sent (after_failure m retries w))
                     = S (List.length (sent w))).
      { unfold after_failure. cbn. rewrite List.length_app. cbn. lia. }
      rewrite Hlen in *.
      exists (S n). split; [lia |]. split; [| split; [| split; [| split]]].
      * intros [| i] Hi.
        -- exists e. rewrite Nat.add_0_r. exact Hs.
        -- destruct (Hfail i) as (e' & He'); [lia |]. exists e'.
           rewrite <- He'. f_equal. lia.
      * rewrite Hsent. unfold after_failure. cbn. rewrite <- app_assoc. reflexivity.
      * rewrite Hslept. unfold after_failure. cbn. rewrite <- app_assoc. reflexivity.
      * rewrite Htrunc. reflexivity.
      * replace (List.length (sent w) + S n) with (S (List.length (sent w)) + n) by lia.
        destruct Hend as [(id & Hid & Hres & Hcons) | (-> & e' & He' & Hres & Hcons)].
        -- left. exists id. split; [exact Hid |]. split; [exact Hres |].
           rewrite Hcons. unfold after_failure. cbn [console].
           rewrite <- app_assoc. rewrite !Nat.add_1_r. reflexivity.
        -- right. split; [reflexivity |]. exists e'.
           split; [exact He' |]. split; [exact Hres |].
           rewrite Hcons. unfold after_failure. cbn [console].
           rewrite <- app_assoc. rewrite !Nat.add_1_r. reflexivity.
Qed.

End RetryFacts.

Lemma sendWithRetry_without_transporter P svc m :
  transporter svc = None ->
  forall k retries w,
    maxRetries - retries = k ->
    sendWithRetry P svc m retries w =
    (Throws (Error "Email transporter not initialized"),
     {| console := console w ++ List.map retry_message (List.seq (retries + 1) k);
        sent := sent w;
        slept := slept w ++ List.repeat retryDelay k;
        truncated := truncated w |}).
Proof.
  intros Hnone k. induction k as [| k IH]; intros retries w Hk;
    rewrite sendWithRetry_step, (send_once_no_transporter P svc m w Hnone).
  - replace (retries <? maxRetries)%nat with false
      by (symmetry; apply Nat.ltb_ge; lia).
    cbn. rewrite !app_nil_r. destruct w; reflexivity.
  - replace (retries <? maxRetries)%nat with true
      by (symmetry; apply Nat.ltb_lt; lia).
    rewrite IH by lia. cbn. rewrite <- !app_assoc, !Nat.add_1_r. reflexivity.
Qed.

(** The calls of the transport in one [sendWithRetry]. *)
Lemma sendWithRetry_sent P svc m retries w :
  exists calls,
    sent (snd (sendWithRetry P svc m retries w)) = sent w ++ List.repeat m calls
    /\ calls <= maxRetries - retries + 1
    /\ truncated (snd (sendWithRetry P svc m retries w)) = truncated w.
Proof.
  destruct (transporter svc) as [t |] eqn:Ht.
  - destruct (sendWithRetry_trace P svc t m Ht _ retries w eq_refl)
      as (n & Hn & _ & Hsent & _ & Htrunc & _).
    exists (n + 1). repeat split; try assumption; lia.
  - rewrite (sendWithRetry_without_transporter P svc m Ht _ retries w eq_refl).
    exists 0. cbn [snd sent truncated List.repeat]. rewrite app_nil_r.
    repeat split; lia.
Qed.

(** X1. Whatever the transport does and whether or not there is a
    transporter, one call of [sendWithRetry] hands the same message to the
    transport at most [maxRetries - retries + 1] times, pauses at most
    [maxRetries - retries] times, each time for 1000 ms, and touches no
    file. *)
Theorem sendWithRetry_bounded
  (P : Platform) (svc : EmailService) (m : MailOptions) (retries : nat) (w : World) :
  exists calls pauses,
    sent (snd (sendWithRetry P svc m retries w)) = sent w ++ List.repeat m calls
    /\ slept (snd (sendWithRetry P svc m retries w)) = slept w ++ List.repeat 1000 pauses
    /\ truncated (snd (sendWithRetry P svc m retries w)) = truncated w
    /\ calls <= maxRetries - retries + 1
    /\ pauses <= maxRetries - retries.
Proof.
  destruct (transporter svc) as [t |] eqn:Ht.
  - destruct (sendWithRetry_trace P svc t m Ht _ retries w eq_refl)
      as (n & Hn & _ & Hsent & Hslept & Htrunc & _).
    exists (n + 1), n. repeat split; try assumption; lia.
  - rewrite (sendWithRetry_without_transporter P svc m Ht _ retries w eq_refl).
    exists 0, (maxRetries - retries). cbn [snd sent slept truncated List.repeat].
    rewrite app_nil_r. repeat split; lia.
Qed.

(** X2. With a transporter, [sendWithRetry] returns only [true], and only
    when the last call of the transport succeeded; it throws only when each
    of the [maxRetries - retries + 1] calls it made failed, and what it
    throws is the failure of the last one. *)
Theorem sendWithRetry_result
  (P : Platform) (svc : EmailService) (t : TransportConfig) (m : MailOptions)
  (retries : nat) (w : World) :
  transporter svc = Some t ->
  match fst (sendWithRetry P svc m retries w) with
  | Returns ok =>
      ok = true
      /\ exists id,
          sendMail P (List.length (sent (snd (sendWithRetry P svc m retries w))) - 1) m
          = Returns id
  | Throws e =>
      List.length (sent (snd (sendWithRetry P svc m retries w)))
      = List.length (sent w) + (maxRetries - retries) + 1
      /\ (forall i, i <= maxRetries - retries ->
                    exists e', sendMail P (List.length (sent w) + i) m = Throws e')
      /\ sendMail P (List.length (sent w) + (maxRetries - retries)) m = Throws e
  end.
Proof.
  intros Ht.
  destruct (sendWithRetry_trace P svc t m Ht _ retries w eq_refl)
    as (n & Hn & Hfail & Hsent & _ & _ & Hend).
  destruct Hend as [(id & Hid & Hres & _) | (-> & e & He & Hres & _)]; rewrite Hres.
  - split; [reflexivity |]. exists id. rewrite Hsent, List.length_app, List.repeat_length.
    rewrite <- Hid. f_equal. lia.
  - rewrite Hsent, List.length_app, List.repeat_length.
    split; [lia |]. split; [| exact He].
    intros i Hi. apply Nat.le_lteq in Hi as [Hi | ->]; [apply Hfail; exact Hi |].
    exists e. exact He.
Qed.

Lemma sendWithRetry_result_witness :
  let P := flaky_platform "production" 1 in
  let m := plain_message "ann@example.com" in
  match fst (sendWithRetry P (emailService P) m 0 empty_world) with
  | Returns ok =>
      ok = true
      /\ exists id,
          sendMail P (List.length
                        (sent (snd (sendWithRetry P (emailService P) m 0 empty_world))) - 1) m
          = Returns id
  | Throws e =>
      List.length (sent (snd (sendWithRetry P (emailService P) m 0 empty_world)))
      = List.length (sent empty_world) + (maxRetries - 0) + 1
      /\ (forall i, i <= maxRetries - 0 ->
                    exists e', sendMail P (List.length (sent empty_world) + i) m = Throws e')
      /\ sendMail P (List.length (sent empty_world) + (maxRetries - 0)) m = Throws e
  end.
Proof.
  intros P m.
  apply (sendWithRetry_result P (emailService P)
           (default
              {| host := ""; port := ""; secure := false; auth_user := "";
                 auth_pass := ""; tls_rejectUnauthorized := false;
                 tls_minVersion := ""; pool := false; maxConnections := 0;
                 maxMessages := 0; rateLimit_per_second := 0; debug := false;
                 logger := false |}
              (transporter (emailService P)))
           m 0 empty_world).
  reflexivity.
Defined.

(** Without a transporter [sendWithRetry] still goes through its
    retries: three notices and three pauses of 1000 ms, no call of the
    transport, then the error "Email transporter not initialized". *)
Theorem sendWithRetry_missing_transporter
  (P : Platform) (svc : EmailService) (m : MailOptions) (w : World) :
  transporter svc = None ->
  sendWithRetry P svc m 0 w =
  (Throws (Error "Email transporter not initialized"),
   {| console := console w ++ [retry_message 1; retry_message 2; retry_message 3];
      sent := sent w;
      slept := slept w ++ [1000; 1000; 1000];
      truncated := truncated w |}).
Proof.
  intros Hnone.
  rewrite (sendWithRetry_without_transporter P svc m Hnone 3 0 w eq_refl).
  reflexivity.
Qed.

Lemma sendWithRetry_missing_transporter_witness :
  let P := flaky_platform "production" 0 in
  let svc := {| transporter := None; defaultFrom := ""; isConfigured := true |} in
  sendWithRetry P svc (plain_message "ann@example.com") 0 empty_world =
  (Throws (Error "Email transporter not initialized"),
   {| console := [retry_message 1; retry_message 2; retry_message 3];
      sent := [];
      slept := [1000; 1000; 1000];
      truncated := [] |}).
Proof.
  intros P svc.
  apply (sendWithRetry_missing_transporter P svc (plain_message "ann@example.com")
           empty_world).
  reflexivity.
Defined.

(** ** [sendEmail]: simulation, delivery, cleaning *)

Lemma sendEmail_try_sending P svc options w :
  validateEmails (to options) = true ->
  development P = false ->
  isConfigured svc = true ->
  sendEmail_try P svc options w =
  match mailOptions_for P svc options with
  | Returns m => sendWithRetry P svc m 0 w
  | Throws e => (Throws e, w)
  end.
Proof.
  intros Hvalid Hdev Hconf. unfold sendEmail_try. rewrite Hvalid, Hdev, Hconf. cbn.
  unfold bind, lift. destruct (mailOptions_for P svc options); reflexivity.
Qed.

Lemma sendEmail_try_simulating P svc options w :
  validateEmails (to options) = true ->
  development P || negb (isConfigured svc) = true ->
  sendEmail_try P svc options w =
  (Returns true,
   logged w [console_log "Email would be sent in production:" (subject options)]).
Proof.
  intros Hvalid Hsim. unfold sendEmail_try. rewrite Hvalid, Hsim. reflexivity.
Qed.

Lemma sendEmail_try_invalid P svc options w :
  validateEmails (to options) = false ->
  sendEmail_try P svc options w = (Throws (Error "Invalid email address(es)"), w).
Proof.
  intros Hvalid. unfold sendEmail_try. rewrite Hvalid. reflexivity.
Qed.

(** X3. In development mode [sendEmail] is a simulation even when the
    service is fully configured: recipients that pass the address pattern
    give [true] and one console line, a recipient that fails it gives
    [false] and the error line, and the transport is not called. *)
Theorem sendEmail_development_simulates
  (P : Platform) (svc : EmailService) (options : EmailOptions) (w : World) :
  development P = true ->
  sendEmail P svc options w =
  (if validateEmails (to options)
   then (Returns true,
         logged w [console_log "Email would be sent in production:" (subject options)])
   else (Returns false,
         logged w [log_error "Email Sending Error"
                     (Some (Error "Invalid email address(es)")) []])).
Proof.
  intros Hdev. rewrite sendEmail_of_try.
  destruct (validateEmails (to options)) eqn:Hvalid.
  - rewrite sendEmail_try_simulating by (rewrite ?Hdev; auto). reflexivity.
  - rewrite sendEmail_try_invalid by exact Hvalid. reflexivity.
Qed.

Lemma sendEmail_development_simulates_witness :
  let P := flaky_platform "development" 0 in
  isConfigured (emailService P) = true
  /\ sendEmail P (emailService P) (plain_mail "ann@example.com") empty_world =
     (if validateEmails (to (plain_mail "ann@example.com"))
      then (Returns true,
            logged empty_world [console_log "Email would be sent in production:" "Hello"])
      else (Returns false,
            logged empty_world [log_error "Email Sending Error"
                                  (Some (Error "Invalid email address(es)")) []])).
Proof.
  intros P. split; [reflexivity |].
  apply (sendEmail_development_simulates P (emailService P)
           (plain_mail "ann@example.com") empty_world).
  reflexivity.
Defined.

Lemma mailOptions_for_cleaned P svc options m :
  mailOptions_for P svc options = Returns m -> cleaned P (mail_html m).
Proof.
  unfold mailOptions_for.
  destruct (match o_template options with
            | Some template =>
                match o_templateData options with
                | Some data =>
                    obind (render (RegExp_g P) template data)
                      (fun rendered => Returns (Some (html rendered), Some (text rendered)))
                | None => Returns (o_html options, o_text options)
                end
            | None => Returns (o_html options, o_text options)
            end) as [[h t] | e]; cbn [obind fst snd]; [| discriminate].
  destruct h as [h |]; cbn [obind].
  - destruct (Js.truthy h) eqn:Htruthy; cbn [obind].
    + destruct (sanitizeHtml P h) as [clean | e] eqn:Hclean; cbn [obind]; [| discriminate].
      intros H. injection H as <-. cbn. right. right. exists h, clean. split; auto.
    + intros H. injection H as <-. cbn. right. left.
      destruct h; [reflexivity | discriminate].
  - intros H. injection H as <-. left. reflexivity.
Qed.

(** The transport calls of one [sendEmail]. *)
Lemma sendEmail_sent P svc options w :
  sent (snd (sendEmail P svc options w)) = sent w
  \/ exists m calls,
      mailOptions_for P svc options = Returns m
      /\ sent (snd (sendEmail P svc options w)) = sent w ++ List.repeat m calls
      /\ calls <= maxRetries + 1.
Proof.
  rewrite sendEmail_of_try.
  destruct (validateEmails (to options)) eqn:Hvalid;
    [| rewrite sendEmail_try_invalid by exact Hvalid; left; reflexivity].
  destruct (development P || negb (isConfigured svc)) eqn:Hsim;
    [rewrite sendEmail_try_simulating by assumption; left; reflexivity |].
  apply orb_false_iff in Hsim as [Hdev Hconf]. apply negb_false_iff in Hconf.
  rewrite sendEmail_try_sending by assumption.
  destruct (mailOptions_for P svc options) as [m | e]; [| left; reflexivity].
  right. exists m.
  destruct (sendWithRetry_sent P svc m 0 w) as (calls & Hsent & Hc & _).
  exists calls. split; [reflexivity |].
  destruct (sendWithRetry P svc m 0 w) as [[ok | e] w1]; cbn [snd] in *;
    (split; [exact Hsent |]); unfold maxRetries in *; lia.
Qed.

(** X4. No HTML reaches the transport unless it went through the cleaner:
    every message [sendEmail] hands to the transport has an HTML body that
    is absent, empty, or the output of [sanitizeHtml]. *)
Theorem sendEmail_html_cleaned
  (P : Platform) (svc : EmailService) (options : EmailOptions) (w : World)
  (m : MailOptions) :
  List.In m (sent (snd (sendEmail P svc options w))) ->
  List.In m (sent w) \/ cleaned P (mail_html m).
Proof.
  intros Hin.
  destruct (sendEmail_sent P svc options w) as [Hsame | (m0 & calls & Hbuild & Hsent & _)].
  - left. rewrite <- Hsame. exact Hin.
  - rewrite Hsent in Hin. apply in_app_or in Hin as [Hold | Hnew].
    + left. exact Hold.
    + right. apply List.repeat_spec in Hnew as ->.
      apply (mailOptions_for_cleaned P svc options). exact Hbuild.
Qed.

Lemma sendEmail_html_cleaned_witness :
  let P := flaky_platform "production" 1 in
  let m := {| from_name := "Carlora Strategic Innovation";
              from_address := "site@example.com";
              mail_to := "desk@example.com";
              mail_subject := "Email System Test";
              mail_text :=
                Some "This is a test email to verify the email system is working correctly.";
              mail_html :=
                Some "<p>This is a test email to verify the email system is working correctly.</p>";
              mail_replyTo := None;
              mail_attachments := None;
              mail_headers := [("X-Entity-Ref-ID", "1714557600000");
                               ("List-Unsubscribe", "<mailto:unsubscribe@example.com>")] |} in
  List.In m (sent empty_world) \/ cleaned P (mail_html m).
Proof.
  intros P m.
  apply (sendEmail_html_cleaned P (emailService P) (test_mail P) empty_world m).
  vm_compute. left. reflexivity.
Defined.

(** What a [true] from [sendEmail] rests on. *)
Lemma sendEmail_true_cases
  (P : Platform) (svc : EmailService) (options : EmailOptions) (w : World) :
  fst (sendEmail P svc options w) = Returns true ->
  validateEmails (to options) = true
  /\ (((development P = true \/ isConfigured svc = false)
       /\ sent (snd (sendEmail P svc options w)) = sent w)
      \/ exists m failures id,
          mailOptions_for P svc options = Returns m
          /\ failures <= maxRetries
          /\ sent (snd (sendEmail P svc options w)) = sent w ++ List.repeat m (failures + 1)
          /\ sendMail P (List.length (sent w) + failures) m = Returns id).
Proof.
  rewrite sendEmail_of_try.
  destruct (validateEmails (to options)) eqn:Hvalid;
    [| rewrite sendEmail_try_invalid by exact Hvalid; discriminate].
  intros Htrue. split; [reflexivity |].
  destruct (development P || negb (isConfigured svc)) eqn:Hsim.
  - left. rewrite sendEmail_try_simulating by assumption.
    split; [| reflexivity].
    apply orb_true_iff in Hsim as [Hdev | Hconf]; [left; exact Hdev |].
    right. apply negb_true_iff. exact Hconf.
  - apply orb_false_iff in Hsim as [Hdev Hconf]. apply negb_false_iff in Hconf.
    rewrite sendEmail_try_sending in * by assumption.
    destruct (mailOptions_for P svc options) as [m | e]; [| discriminate Htrue].
    destruct (transporter svc) as [t |] eqn:Ht.
    + destruct (sendWithRetry_trace P svc t m Ht _ 0 w eq_refl)
        as (n & Hn & _ & Hsent & _ & _ & Hend).
      destruct (sendWithRetry P svc m 0 w) as [[ok | e] w1]; cbn [fst snd] in *;
        [| discriminate Htrue].
      destruct Hend as [(id & Hid & _ & _) | (_ & e & _ & Hres & _)]; [| discriminate Hres].
      right. exists m, n, id. repeat split; assumption.
    + rewrite (sendWithRetry_without_transporter P svc m Ht _ 0 w eq_refl) in Htrue.
      discriminate Htrue.
Qed.



(** ** The service and its self-test *)

Lemma emailService_unconfigured P :
  Js.truthy_opt (SMTP_HOST (env P)) && Js.truthy_opt (SMTP_USER (env P))
    && Js.truthy_opt (SMTP_PASSWORD (env P)) = false ->
  isConfigured (emailService P) = false.
Proof.
  intros Hmissing. unfold emailService, initializeTransporter.
  destruct (Js.truthy_opt (SMTP_HOST (env P)));
    destruct (Js.truthy_opt (SMTP_USER (env P)));
    destruct (Js.truthy_opt (SMTP_PASSWORD (env P)));
    try discriminate Hmissing; reflexivity.
Qed.

Lemma emailService_transporter P :
  isConfigured (emailService P) = true ->
  exists t,
    transporter (emailService P) = Some t
    /\ SMTP_USER (env P) = Some (auth_user t).
Proof.
  unfold emailService, initializeTransporter.
  destruct (SMTP_HOST (env P)) as [[| h0 h] |];
    destruct (SMTP_USER (env P)) as [[| u0 u] |];
    destruct (SMTP_PASSWORD (env P)) as [[| p0 p] |]; cbn; try discriminate.
  match goal with
  | |- context [createTransport P ?settings] =>
      destruct (createTransport P settings) as [[] | e]
  end; cbn; [| discriminate].
  intros _. eexists. split; reflexivity.
Qed.

(** X6. The singleton service counts as configured exactly when it has a
    transporter; and the settings of that transporter carry the three
    credentials of the environment, none of them empty, and were accepted by
    [createTransport]. *)
Theorem emailService_configured (P : Platform) :
  (isConfigured (emailService P) = true <->
   exists t, transporter (emailService P) = Some t)
  /\ (forall t,
        transporter (emailService P) = Some t ->
        SMTP_HOST (env P) = Some (host t)
        /\ SMTP_USER (env P) = Some (auth_user t)
        /\ SMTP_PASSWORD (env P) = Some (auth_pass t)
        /\ host t <> "" /\ auth_user t <> "" /\ auth_pass t <> ""
        /\ createTransport P t = Returns tt).
Proof.
  unfold emailService, initializeTransporter.
  destruct (SMTP_HOST (env P)) as [[| h0 h] |];
    destruct (SMTP_USER (env P)) as [[| u0 u] |];
    destruct (SMTP_PASSWORD (env P)) as [[| p0 p] |]; cbn;
    try (split; [split; [discriminate | intros (t & Ht); discriminate Ht]
                | intros t Ht; discriminate Ht]).
  match goal with
  | |- context [createTransport P ?settings] =>
      destruct (createTransport P settings) as [[] | e] eqn:Hcreate
  end; cbn.
  - split; [split; [intros _; eexists; reflexivity | reflexivity] |].
    intros t Ht. injection Ht as <-. cbn. repeat split; try discriminate. exact Hcreate.
  - split; [split; [discriminate | intros (t & Ht); discriminate Ht]
           | intros t Ht; discriminate Ht].
Qed.

Section DiagnosticsFacts.

Context (P : Platform) (verify : outcome unit).

Lemma verifyConnection_cases svc w :
  verifyConnection verify svc w =
  if isConfigured svc && match transporter svc with Some _ => true | None => false end
  then match verify with
       | Returns _ =>
           (Returns true,
            logged w [log_info "Email Service" "Connection verified successfully"])
       | Throws e =>
           (Returns false,
            logged w [log_error "Email Connection Verification Error" (Some e) []])
       end
  else (Returns false, w).
Proof.
  unfold verifyConnection.
  destruct (isConfigured svc), (transporter svc); cbn; try reflexivity.
  unfold try_catch, bind, lift. destruct verify; reflexivity.
Qed.

(** X7. [testConnection] never throws and never reports raw error text:
    its answer is one of three fixed ones; the transport is only called by
    the test message; and the test message is sent only after the handshake
    succeeded. *)
Theorem testConnection_answers (svc : EmailService) (w : World) :
  exists result w',
    testConnection P verify svc w = (Returns result, w')
    /\ (result = {| test_success := false;
                    test_message := "Failed to connect to email server" |}
        /\ sent w' = sent w
        \/ exists unit_value,
            verify = Returns unit_value
            /\ sent w' =
               sent (snd (sendEmail P svc (test_mail P)
                            (logged w [log_info "Email Service"
                                         "Connection verified successfully"])))
            /\ (result = {| test_success := true;
                            test_message := "Email system is working correctly" |}
                \/ result = {| test_success := false;
                               test_message := "Failed to send test email" |})).
Proof.
  unfold testConnection, try_catch, bind. rewrite verifyConnection_cases.
  destruct (isConfigured svc && match transporter svc with
                                | Some _ => true
                                | None => false
                                end).
  - destruct verify as [u | e]; cbn [negb].
    + destruct (sendEmail_returns P svc (test_mail P)
                  (logged w [log_info "Email Service" "Connection verified successfully"]))
        as (ok & w1 & Hsend).
      rewrite Hsend. cbn. eexists _, _. split; [reflexivity |].
      right. exists u. split; [reflexivity |]. split; [reflexivity |].
      destruct ok; [left | right]; reflexivity.
    + cbn. eexists _, _. split; [reflexivity |]. left. split; reflexivity.
  - cbn. eexists _, _. split; [reflexivity |]. left. split; reflexivity.
Qed.

(** X8. On the singleton with a missing credential the self-test fails at
    once with "Failed to connect to email server": no handshake result is
    looked at, nothing is logged, nothing is sent. *)
Theorem testConnection_unconfigured (w : World) :
  Js.truthy_opt (SMTP_HOST (env P)) && Js.truthy_opt (SMTP_USER (env P))
    && Js.truthy_opt (SMTP_PASSWORD (env P)) = false ->
  testConnection P verify (emailService P) w =
  (Returns {| test_success := false;
              test_message := "Failed to connect to email server" |}, w).
Proof.
  intros Hmissing.
  assert (Hconf : isConfigured (emailService P) = false)
    by (apply emailService_unconfigured; exact Hmissing).
  unfold testConnection, try_catch, bind. rewrite verifyConnection_cases, Hconf.
  reflexivity.
Qed.

(** X9. A successful self-test means: the service is configured, the
    handshake succeeded, [SMTP_USER] is an address that passes the pattern,
    and the test message was either simulated (development mode, the
    transport not called) or delivered by the transport to that address. *)
Theorem testConnection_success (svc : EmailService) (w : World) :
  test_success
    (match fst (testConnection P verify svc w) with
     | Returns result => result
     | Throws _ => {| test_success := false; test_message := "" |}
     end) = true ->
  isConfigured svc = true
  /\ (exists unit_value, verify = Returns unit_value)
  /\ validateEmails (smtp_user P) = true
  /\ ((development P = true /\ sent (snd (testConnection P verify svc w)) = sent w)
      \/ exists m failures id,
          mailOptions_for P svc (test_mail P) = Returns m
          /\ mail_to m = match SMTP_USER (env P) with Some u => u | None => "undefined" end
          /\ failures <= maxRetries
          /\ sent (snd (testConnection P verify svc w))
             = sent w ++ List.repeat m (failures + 1)
          /\ sendMail P (List.length (sent w) + failures) m = Returns id).
Proof.
  unfold testConnection, try_catch, bind. rewrite verifyConnection_cases.
  destruct (isConfigured svc) eqn:Hconf; [| cbn; discriminate].
  destruct (transporter svc) as [t |] eqn:Ht; [| cbn; discriminate].
  destruct verify as [u | e]; [| cbn; discriminate]. cbn [andb negb].
  set (w0 := logged w [log_info "Email Service" "Connection verified successfully"]).
  pose proof (sendEmail_true_cases P svc (test_mail P) w0) as Htrue.
  destruct (sendEmail P svc (test_mail P) w0) as [[ok | e] w1] eqn:Hsend;
    cbn [fst snd] in *; [| discriminate].
  cbn. intros Hok. subst ok.
  destruct (Htrue eq_refl) as (Hvalid & Hhow).
  split; [reflexivity |]. split; [exists u; reflexivity |]. split; [exact Hvalid |].
  destruct Hhow as [([Hdev | Hunconf] & Hsent) | (m & n & id & Hbuild & Hn & Hsent & Hid)].
  - left. split; [exact Hdev | exact Hsent].
  - congruence.
  - right. exists m, n, id. repeat split; try assumption.
    unfold mailOptions_for in Hbuild. cbn in Hbuild.
    destruct (sanitizeHtml P _); cbn in Hbuild; [| discriminate].
    injection Hbuild as <-. reflexivity.
Qed.

Lemma testConnection_returns (svc : EmailService) (w : World) :
  exists result w', testConnection P verify svc w = (Returns result, w').
Proof.
  unfold testConnection, try_catch, bind. rewrite verifyConnection_cases.
  destruct (isConfigured svc && match transporter svc with
                                | Some _ => true
                                | None => false
                                end); [| cbn; eauto].
  destruct verify as [u | e]; cbn [negb]; [| cbn; eauto].
  destruct (sendEmail_returns P svc (test_mail P)
              (logged w [log_info "Email Service" "Connection verified successfully"]))
    as (ok & w1 & Hsend).
  rewrite Hsend. cbn. eauto.
Qed.

(** X10. The test script never throws; it calls [process.exit(1)] exactly
    when the self-test did not succeed, and otherwise runs to its end. *)
Theorem testEmailSystem_exit (w : World) :
  exists code w',
    testEmailSystem P verify w = (Returns code, w')
    /\ exists result,
        fst (testConnection P verify (emailService P)
               (logged w [console_log "Testing email system..." ""])) = Returns result
        /\ code = if test_success result then 0 else 1.
Proof.
  unfold testEmailSystem, bind at 1. cbn [emit].
  fold (logged w [console_log "Testing email system..." ""]).
  destruct (testConnection_returns (emailService P)
              (logged w [console_log "Testing email system..." ""]))
    as (result & w1 & Hrun).
  unfold try_catch, bind. rewrite Hrun. cbn.
  destruct result as [ok text]. destruct ok; cbn;
    eexists _, _; (split; [reflexivity |]); eexists; split; reflexivity.
Qed.

End DiagnosticsFacts.

Lemma testConnection_unconfigured_witness :
  let P := hostless_platform "production" in
  testConnection P (Returns tt) (emailService P) empty_world =
  (Returns {| test_success := false;
              test_message := "Failed to connect to email server" |}, empty_world).
Proof.
  intros P. apply (testConnection_unconfigured P (Returns tt) empty_world). reflexivity.
Defined.

Lemma testConnection_success_witness :
  let P := flaky_platform "production" 1 in
  let w := empty_world in
  isConfigured (emailService P) = true
  /\ (exists unit_value, Returns tt = Returns unit_value)
  /\ validateEmails (smtp_user P) = true
  /\ ((development P = true
       /\ sent (snd (testConnection P (Returns tt) (emailService P) w)) = sent w)
      \/ exists m failures id,
          mailOptions_for P (emailService P) (test_mail P) = Returns m
          /\ mail_to m = match SMTP_USER (env P) with Some u => u | None => "undefined" end
          /\ failures <= maxRetries
          /\ sent (snd (testConnection P (Returns tt) (emailService P) w))
             = sent w ++ List.repeat m (failures + 1)
          /\ sendMail P (List.length (sent w) + failures) m = Returns id).
Proof.
  intros P w.
  apply (testConnection_success P (Returns tt) (emailService P) w).
  vm_compute. reflexivity.
Defined.

(** ** The handlers, stage by stage *)

Lemma submission_honeypot P r template request options :
  submission P r template request = Some options ->
  exists data h,
    payload r request = Returns data
    /\ validated_honeypot P r data = Zod.Valid h
    /\ Js.truthy_opt h = false.
Proof.
  intros Hsub.
  assert (H : exists data h, payload r request = Returns data
                             /\ validated_honeypot P r data = Zod.Valid h).
  { destruct r; cbn in Hsub |- *.
    - destruct (json request) as [data | e]; [| discriminate].
      destruct (Consultation.consultationSchema P data) as [v | errors] eqn:Hs;
        [| discriminate].
      exists data, (Consultation.honeypot v). rewrite Hs. split; reflexivity.
    - destruct (json request) as [data | e]; [| discriminate].
      destruct (Contact.contactSchema P data) as [v | errors] eqn:Hs; [| discriminate].
      exists data, (Contact.honeypot v). rewrite Hs. split; reflexivity.
    - destruct (form request) as [[data resume] | e]; [| discriminate].
      destruct (Application.applicationSchema P data) as [v | errors] eqn:Hs;
        [| discriminate].
      exists data, (Application.honeypot v). rewrite Hs. split; reflexivity. }
  destruct H as (data & h & Hdata & Hvalid). exists data, h.
  repeat split; try assumption. apply (not_triggered P r data h Hvalid).
Qed.

(** An admitted request whose payload passes the schema: the handler is
    [sendEmail] on the submission, then the answer. *)
Lemma handler_submitted P r template request w options :
  limiter request = Returns true ->
  submission P r template request = Some options ->
  handler P r template request w =
  match sendEmail P (emailService P) options w with
  | (Returns true, w1) =>
      match upload r request with
      | Some file =>
          match writeFile request with
          | Returns _ =>
              (Returns (accepted r),
               {| console := console w1 ++ [success_line r]; sent := sent w1;
                  slept := slept w1; truncated := truncated w1 ++ [file_path file] |})
          | Throws e => (Returns technical_difficulties, logged w1 [failure_line r e])
          end
      | None => (Returns (accepted r), logged w1 [success_line r])
      end
  | (Returns false, w1) =>
      (Returns technical_difficulties,
       logged w1 [failure_line r (Error "Failed to send email notification")])
  | (Throws e, w1) => (Returns technical_difficulties, logged w1 [failure_line r e])
  end.
Proof.
  intros Hlimit Hsub.
  destruct r; cbn [handler upload] in *.
  - unfold Consultation.POST, try_catch, bind, lift. rewrite Hlimit. cbn [negb].
    cbn [submission] in Hsub.
    destruct (json request) as [data | e]; [| discriminate].
    destruct (Consultation.consultationSchema P data) as [v | errors] eqn:Hs;
      [| discriminate].
    assert (Hh : Js.truthy_opt (Consultation.honeypot v) = false).
    { apply (not_triggered P BookConsultation data). cbn. rewrite Hs. reflexivity. }
    rewrite Hh. injection Hsub as <-.
    match goal with
    | |- context [sendEmail P ?svc ?opts w] =>
        destruct (sendEmail P svc opts w) as [[[|] | e] w1]
    end; reflexivity.
  - unfold Contact.POST, try_catch, bind, lift. rewrite Hlimit. cbn [negb].
    cbn [submission] in Hsub.
    destruct (json request) as [data | e]; [| discriminate].
    destruct (Contact.contactSchema P data) as [v | errors] eqn:Hs; [| discriminate].
    assert (Hh : Js.truthy_opt (Contact.honeypot v) = false).
    { apply (not_triggered P ContactForm data). cbn. rewrite Hs. reflexivity. }
    rewrite Hh. injection Hsub as <-.
    match goal with
    | |- context [sendEmail P ?svc ?opts w] =>
        destruct (sendEmail P svc opts w) as [[[|] | e] w1]
    end; reflexivity.
  - unfold Application.POST, try_catch, bind, lift. rewrite Hlimit. cbn [negb].
    cbn [submission] in Hsub.
    destruct (form request) as [[data resume] | e]; [| discriminate]. cbn [fst snd].
    destruct (Application.applicationSchema P data) as [v | errors] eqn:Hs;
      [| discriminate].
    assert (Hh : Js.truthy_opt (Application.honeypot v) = false).
    { apply (not_triggered P Applications data). cbn. rewrite Hs. reflexivity. }
    rewrite Hh. injection Hsub as <-.
    match goal with
    | |- context [sendEmail P ?svc ?opts w] =>
        destruct (sendEmail P svc opts w) as [[[|] | e] w1]
    end; try reflexivity.
    destruct resume as [file |]; [| reflexivity].
    unfold truncate_file. destruct (writeFile request) as [[] | e]; reflexivity.
Qed.

(** Every other request: one line on the console and the answer, 429, 400
    or 500. *)
Lemma handler_not_submitted P r template request w :
  limiter request <> Returns true \/ submission P r template request = None ->
  exists response line,
    handler P r template request w = (Returns response, logged w [line])
    /\ (response = too_many_requests /\ limiter request = Returns false
        \/ (exists errors data,
               response = check_your_input errors
               /\ limiter request = Returns true
               /\ payload r request = Returns data
               /\ validated_honeypot P r data = Zod.Invalid errors)
        \/ (response = technical_difficulties
            /\ exists e, line = failure_line r e
                         /\ (limiter request = Throws e
                             \/ limiter request = Returns true
                                /\ payload r request = Throws e))).
Proof.
  intros Hnot.
  destruct (limiter request) as [[|] | e] eqn:Hlimit.
  - destruct Hnot as [Hnot | Hnone]; [congruence |].
    destruct (payload r request) as [data | e] eqn:Hdata.
    + destruct (validated_honeypot P r data) as [h | errors] eqn:Hschema.
      * exfalso. destruct r; cbn in Hnone, Hdata, Hschema.
        -- rewrite Hdata in Hnone.
           destruct (Consultation.consultationSchema P data); discriminate.
        -- rewrite Hdata in Hnone.
           destruct (Contact.contactSchema P data); discriminate.
        -- destruct (form request) as [[fields resume] | e]; [| discriminate].
           cbn in Hdata. injection Hdata as ->.
           destruct (Application.applicationSchema P data); discriminate.
      * eexists _, _.
        rewrite (handler_validation_failure P r template request w data errors
                   Hlimit Hdata Hschema).
        split; [reflexivity |]. right. left. exists errors, data. repeat split; assumption.
    + exists technical_difficulties, (failure_line r e). split.
      * destruct r; cbn [handler payload] in *;
          [unfold Consultation.POST | unfold Contact.POST | unfold Application.POST];
          unfold try_catch, bind, lift; rewrite Hlimit; cbn [negb].
        -- rewrite Hdata. reflexivity.
        -- rewrite Hdata. reflexivity.
        -- destruct (form request) as [[fields resume] | e']; [discriminate |].
           cbn in Hdata. injection Hdata as ->. reflexivity.
      * right. right. split; [reflexivity |]. exists e. split; [reflexivity |].
        right. split; reflexivity.
  - eexists _, _. rewrite (handler_rate_limited P r template request w Hlimit).
    split; [reflexivity |]. left. split; reflexivity.
  - exists technical_difficulties, (failure_line r e). split.
    + destruct r; cbn [handler];
        [unfold Consultation.POST | unfold Contact.POST | unfold Application.POST];
        unfold try_catch, bind, lift; rewrite Hlimit; reflexivity.
    + right. right. split; [reflexivity |]. exists e. split; [reflexivity |].
      left. reflexivity.
Qed.

(** ** What a rejected payload is told *)

Lemma reported_valid {A : Type} keys (a : A) : reported keys (Zod.Valid a).
Proof. exact I. Qed.

Lemma reported_ap {A B : Type} keys (pf : Zod.Parse (A -> B)) (pa : Zod.Parse A) :
  reported keys pf -> reported keys pa -> reported keys (pf <&> pa).
Proof.
  destruct pf as [f | e1], pa as [a | e2]; cbn; try tauto.
  intros [Hne1 Hin1] [Hne2 Hin2]. split.
  - destruct e1; [congruence | discriminate].
  - intros e He. apply in_app_or in He as [He | He]; auto.
Qed.

Lemma reported_map {A B : Type} keys (f : A -> B) (p : Zod.Parse A) :
  reported keys p -> reported keys (Zod.map f p).
Proof. destruct p; cbn; auto. Qed.

Lemma run_check_field key s c e :
  List.In e (Zod.run_check key s c) -> Zod.field e = key.
Proof.
  destruct c; cbn;
    match goal with |- context [if ?b then _ else _] => destruct b end;
    cbn; intros H; solve [destruct H | destruct H as [<- | []]; reflexivity].
Qed.

Lemma reported_string keys checks key v :
  List.In key keys -> reported keys (Zod.string_ checks key v).
Proof.
  intros Hkey. unfold Zod.string_.
  destruct v as [[| | b | n | s | d] |]; cbn;
    try (split; [discriminate | intros e [<- | []]; exact Hkey]).
  destruct (flat_map (Zod.run_check key s) checks) as [| e0 errors] eqn:E; cbn; [exact I |].
  split; [discriminate |].
  intros e He.
  assert (He' : List.In e (flat_map (Zod.run_check key s) checks)) by (rewrite E; exact He).
  apply in_flat_map in He' as (c & _ & Hc).
  rewrite (run_check_field key s c e Hc). exact Hkey.
Qed.

Lemma reported_enum keys values key v :
  List.In key keys -> reported keys (Zod.enum values key v).
Proof.
  intros Hkey. unfold Zod.enum.
  destruct v as [[| | b | n | s | d] |]; cbn;
    try (split; [discriminate | intros e [<- | []]; exact Hkey]).
  destruct (existsb (String.eqb s) values); cbn; [exact I |].
  split; [discriminate | intros e [<- | []]; exact Hkey].
Qed.

Lemma reported_optional {A : Type} keys (schema : Zod.Schema A) key v :
  reported keys (schema key v) -> reported keys (Zod.optional schema key v).
Proof.
  intros H. unfold Zod.optional.
  destruct v as [[| | b | n | s | d] |]; try exact I; apply reported_map; exact H.
Qed.

Lemma reported_transform {A B : Type} keys (f : A -> B) (schema : Zod.Schema A) key v :
  reported keys (schema key v) -> reported keys (Zod.transform f schema key v).
Proof. apply reported_map. Qed.

Ltac report_fields :=
  repeat first
    [ apply reported_ap
    | apply reported_valid
    | apply reported_transform
    | apply reported_optional
    | apply reported_string
    | apply reported_enum ];
  cbn; tauto.

Lemma schema_reported P r data :
  reported ("" :: schema_keys r) (validated_honeypot P r data).
Proof.
  destruct r; cbn [validated_honeypot]; apply reported_map;
    [unfold Consultation.consultationSchema
    | unfold Contact.contactSchema
    | unfold Application.applicationSchema];
    (destruct data as [o | other];
     [| cbn; split; [discriminate | intros e [<- | []]; left; reflexivity]]);
    report_fields.
Qed.

(** X11. A payload that fails the schema of its route is told at least one
    issue, and every issue names a key of that schema (or the payload
    itself, with the empty path): nothing else is ever reported to the
    client. *)
Theorem validation_issues
  (P : Platform) (r : Route) (data : Body) (errors : list Zod.FieldError) :
  validated_honeypot P r data = Zod.Invalid errors ->
  errors <> []
  /\ forall e, List.In e errors -> Zod.field e = "" \/ List.In (Zod.field e) (schema_keys r).
Proof.
  intros Hinvalid.
  pose proof (schema_reported P r data) as H.
  rewrite Hinvalid in H. destruct H as [Hne Hin].
  split; [exact Hne |]. intros e He. destruct (Hin e He) as [<- | Hk]; auto.
Qed.

Lemma validation_issues_witness :
  let P := flaky_platform "production" 0 in
  let errors := [Zod.mkFieldError "name" (Zod.Default "invalid_type");
                 Zod.mkFieldError "email" (Zod.Default "invalid_type");
                 Zod.mkFieldError "phone" (Zod.Default "invalid_type");
                 Zod.mkFieldError "message" (Zod.Default "invalid_type");
                 Zod.mkFieldError "honeypot" (Zod.Default "invalid_type")] in
  errors <> []
  /\ forall e, List.In e errors ->
               Zod.field e = "" \/ List.In (Zod.field e) (schema_keys Applications).
Proof.
  intros P errors.
  apply (validation_issues P Applications (object_of [("honeypot", VNumber "7")]) errors).
  vm_compute. reflexivity.
Defined.

(** ** The handlers as a whole *)

Lemma handler_decide P r template request :
  (limiter request = Returns true
   /\ exists options, submission P r template request = Some options)
  \/ (limiter request <> Returns true \/ submission P r template request = None).
Proof.
  destruct (limiter request) as [[|] | e]; try (right; left; discriminate).
  destruct (submission P r template request) as [options |].
  - left. split; [reflexivity | exists options; reflexivity].
  - right. right. reflexivity.
Qed.

(** X12. Every request is answered, and with one of four answers only: the
    fixed 429, a 400 that lists at least one validation issue, the fixed 200
    of the route, or the fixed 500.  In particular no text of an internal
    error ever reaches the client. *)
Theorem handler_answers
  (P : Platform) (r : Route) (template : EmailTemplate) (request : Request) (w : World) :
  exists response w',
    handler P r template request w = (Returns response, w')
    /\ (response = too_many_requests
        \/ (exists errors, errors <> [] /\ response = check_your_input errors)
        \/ response = accepted r
        \/ response = technical_difficulties).
Proof.
  destruct (handler_decide P r template request) as [(Hlimit & options & Hsub) | Hnot].
  - rewrite (handler_submitted P r template request w options Hlimit Hsub).
    destruct (sendEmail P (emailService P) options w) as [[[|] | e] w1].
    + destruct (upload r request) as [file |]; [destruct (writeFile request) |];
        eexists _, _; (split; [reflexivity |]); auto.
    + eexists _, _. split; [reflexivity |]. auto.
    + eexists _, _. split; [reflexivity |]. auto.
  - destruct (handler_not_submitted P r template request w Hnot)
      as (response & line & -> & [(-> & _) | [(errors & data & -> & _ & _ & Hinv) | (-> & _)]]).
    + eexists _, _. split; [reflexivity |]. auto.
    + eexists _, _. split; [reflexivity |]. right. left. exists errors.
      split; [| reflexivity].
      pose proof (schema_reported P r data) as Hrep. rewrite Hinv in Hrep. apply Hrep.
    + eexists _, _. split; [reflexivity |]. auto.
Qed.

(** X13. The transport is called only for a request that the rate limiter
    admitted and whose payload passed the schema; what it is handed is the
    message built from that submission, at least once and at most
    [maxRetries + 1 = 4] times. *)
Theorem handler_transport_calls
  (P : Platform) (r : Route) (template : EmailTemplate) (request : Request) (w : World) :
  sent (snd (handler P r template request w)) = sent w
  \/ (limiter request = Returns true
      /\ exists options m calls,
          submission P r template request = Some options
          /\ mailOptions_for P (emailService P) options = Returns m
          /\ sent (snd (handler P r template request w)) = sent w ++ List.repeat m calls
          /\ 1 <= calls <= 4).
Proof.
  destruct (handler_decide P r template request) as [(Hlimit & options & Hsub) | Hnot].
  - assert (Hsame : sent (snd (handler P r template request w))
                    = sent (snd (sendEmail P (emailService P) options w))).
    { rewrite (handler_submitted P r template request w options Hlimit Hsub).
      destruct (sendEmail P (emailService P) options w) as [[[|] | e] w1]; cbn [snd];
        try reflexivity.
      destruct (upload r request) as [file |]; [destruct (writeFile request) |];
        reflexivity. }
    rewrite Hsame.
    destruct (sendEmail_sent P (emailService P) options w)
      as [Hnone | (m & calls & Hbuild & Hsent & Hcalls)]; [left; exact Hnone |].
    destruct calls as [| calls].
    + left. rewrite Hsent. cbn. apply app_nil_r.
    + right. split; [exact Hlimit |]. exists options, m, (S calls).
      repeat split; try assumption; unfold maxRetries in *; lia.
  - left.
    destruct (handler_not_submitted P r template request w Hnot)
      as (response & line & -> & _). reflexivity.
Qed.

(** X14. An exception of the rate limiter or of the body parser (a body
    that is not JSON, a form that cannot be read) is answered with the fixed
    500, not with a 400; the error is logged under the context of the route
    and nothing is sent. *)
Theorem handler_collaborator_failure
  (P : Platform) (r : Route) (template : EmailTemplate) (request : Request) (w : World)
  (e : JsError) :
  limiter request = Throws e
  \/ (limiter request = Returns true /\ payload r request = Throws e) ->
  handler P r template request w =
  (Returns {| status := 500;
              body := error_body
                "We're experiencing technical difficulties. Please try again later or contact support directly."
                None |},
   logged w [log_error (failure_context r) (Some e) []]).
Proof.
  intros Hfail.
  assert (Hnot : limiter request <> Returns true
                 \/ submission P r template request = None).
  { destruct Hfail as [Hl | [Hl Hp]]; [left; congruence |]. right.
    destruct r; cbn in Hp |- *.
    - rewrite Hp. reflexivity.
    - rewrite Hp. reflexivity.
    - destruct (form request) as [[fields resume] | e']; [discriminate | reflexivity]. }
  destruct (handler_not_submitted P r template request w Hnot)
    as (response & line & Hrun & Hcases).
  rewrite Hrun.
  destruct Hcases as [(_ & Hl) | [(errors & data & _ & Hl & Hp & _) | (-> & e' & -> & He')]].
  - destruct Hfail as [Hf | [Hf _]]; congruence.
  - destruct Hfail as [Hf | [_ Hf]]; congruence.
  - assert (e' = e) as ->.
    { destruct Hfail as [Hf | [Hf1 Hf2]], He' as [He' | [He1 He2]]; congruence. }
    reflexivity.
Qed.

Lemma handler_collaborator_failure_witness :
  let P := flaky_platform "production" 0 in
  let request := {| x_forwarded_for := None; user_agent := None;
                    limiter := Returns true;
                    json := Throws (mkError "SyntaxError" "Unexpected token");
                    form := Throws (Error "no form"); writeFile := Returns tt |} in
  handler P ContactForm demo_template request empty_world =
  (Returns {| status := 500;
              body := error_body
                "We're experiencing technical difficulties. Please try again later or contact support directly."
                None |},
   logged empty_world
     [log_error (failure_context ContactForm)
        (Some (mkError "SyntaxError" "Unexpected token")) []]).
Proof.
  intros P request.
  apply (handler_collaborator_failure P ContactForm demo_template request empty_world).
  right. split; reflexivity.
Defined.

(** X15. When [SMTP_USER] is unset or is not an address that passes the
    pattern, every admitted submission that passes the schema is answered
    with the fixed 500 and nothing is sent, in every environment,
    development included: the recipient is checked before the simulation
    is considered. *)
Theorem handler_unusable_recipient
  (P : Platform) (r : Route) (template : EmailTemplate) (request : Request) (w : World)
  (options : EmailOptions) :
  validateEmails (smtp_user P) = false ->
  limiter request = Returns true ->
  submission P r template request = Some options ->
  handler P r template request w =
  (Returns technical_difficulties,
   logged w [log_error "Email Sending Error" (Some (Error "Invalid email address(es)")) [];
             log_error (failure_context r)
               (Some (Error "Failed to send email notification")) []]).
Proof.
  intros Hbad Hlimit Hsub.
  rewrite (handler_submitted P r template request w options Hlimit Hsub).
  assert (Hto : to options = smtp_user P).
  { destruct r; cbn in Hsub.
    - destruct (json request); [| discriminate].
      destruct (Consultation.consultationSchema P a); [| discriminate].
      injection Hsub as <-. reflexivity.
    - destruct (json request); [| discriminate].
      destruct (Contact.contactSchema P a); [| discriminate].
      injection Hsub as <-. reflexivity.
    - destruct (form request) as [[fields resume] |]; [| discriminate].
      destruct (Application.applicationSchema P fields); [| discriminate].
      injection Hsub as <-. reflexivity. }
  rewrite sendEmail_of_try, sendEmail_try_invalid by (rewrite Hto; exact Hbad).
  unfold failure_line. rewrite logged_logged. reflexivity.
Qed.

Lemma handler_unusable_recipient_witness :
  let P := login_platform in
  let request := example_request true (consultation_payload None) in
  handler P BookConsultation demo_template request empty_world =
  (Returns technical_difficulties,
   logged empty_world
     [log_error "Email Sending Error" (Some (Error "Invalid email address(es)")) [];
      log_error (failure_context BookConsultation)
        (Some (Error "Failed to send email notification")) []]).
Proof.
  intros P request.
  destruct (submission P BookConsultation demo_template request) as [options |] eqn:Hsub;
    [| vm_compute in Hsub; discriminate Hsub].
  apply (handler_unusable_recipient P BookConsultation demo_template request empty_world
           options).
  - vm_compute. reflexivity.
  - reflexivity.
  - exact Hsub.
Defined.

Lemma sendEmail_truncated P svc options w :
  truncated (snd (sendEmail P svc options w)) = truncated w.
Proof.
  rewrite sendEmail_of_try.
  destruct (validateEmails (to options)) eqn:Hvalid;
    [| rewrite sendEmail_try_invalid by exact Hvalid; reflexivity].
  destruct (development P || negb (isConfigured svc)) eqn:Hsim;
    [rewrite sendEmail_try_simulating by assumption; reflexivity |].
  apply orb_false_iff in Hsim as [Hdev Hconf]. apply negb_false_iff in Hconf.
  rewrite sendEmail_try_sending by assumption.
  destruct (mailOptions_for P svc options) as [m | e]; [| reflexivity].
  destruct (sendWithRetry_sent P svc m 0 w) as (calls & _ & _ & Htrunc).
  destruct (sendWithRetry P svc m 0 w) as [[ok | e] w1]; cbn [snd] in *; exact Htrunc.
Qed.

(** X16. A 200 is given only to a request that the rate limiter admitted,
    whose payload passed the schema and for which [sendEmail] returned
    [true]: so either the send was simulated (development mode or an
    unconfigured service, the transport not called), or the transport
    accepted the message of the submission on its last call. *)
Theorem handler_accepted
  (P : Platform) (r : Route) (template : EmailTemplate) (request : Request) (w : World)
  (response : Response) :
  fst (handler P r template request w) = Returns response ->
  status response = 200 ->
  response = accepted r
  /\ limiter request = Returns true
  /\ exists options,
      submission P r template request = Some options
      /\ fst (sendEmail P (emailService P) options w) = Returns true
      /\ (((development P = true \/ isConfigured (emailService P) = false)
           /\ sent (snd (handler P r template request w)) = sent w)
          \/ exists m failures id,
              mailOptions_for P (emailService P) options = Returns m
              /\ failures <= maxRetries
              /\ sent (snd (handler P r template request w))
                 = sent w ++ List.repeat m (failures + 1)
              /\ sendMail P (List.length (sent w) + failures) m = Returns id).
Proof.
  intros Hrun Hstatus.
  destruct (handler_decide P r template request) as [(Hlimit & options & Hsub) | Hnot].
  - pose proof (sendEmail_true_cases P (emailService P) options w) as Htrue.
    rewrite (handler_submitted P r template request w options Hlimit Hsub) in *.
    destruct (sendEmail P (emailService P) options w) as [[[|] | e] w1] eqn:Hsend;
      cbn [fst snd] in *.
    + destruct (Htrue eq_refl) as (_ & Hhow).
      assert (Hresp : response = accepted r
                      /\ sent (snd match upload r request with
                                   | Some file =>
                                       match writeFile request with
                                       | Returns _ =>
                                           (Returns (accepted r),
                                            {| console := console w1 ++ [success_line r];
                                               sent := sent w1; slept := slept w1;
                                               truncated := truncated w1 ++ [file_path file] |})
                                       | Throws e =>
                                           (Returns technical_difficulties,
                                            logged w1 [failure_line r e])
                                       end
                                   | None => (Returns (accepted r), logged w1 [success_line r])
                                   end) = sent w1).
      { destruct (upload r request) as [file |]; [destruct (writeFile request) |];
          cbn [fst snd] in *; injection Hrun as <-;
          try (cbn in Hstatus; discriminate Hstatus); split; reflexivity. }
      destruct Hresp as [-> Hsent]. rewrite Hsent.
      split; [reflexivity |]. split; [exact Hlimit |].
      exists options. split; [exact Hsub |]. rewrite Hsend.
      split; [reflexivity |]. exact Hhow.
    + injection Hrun as <-. cbn in Hstatus. discriminate Hstatus.
    + injection Hrun as <-. cbn in Hstatus. discriminate Hstatus.
  - destruct (handler_not_submitted P r template request w Hnot)
      as (response' & line & Hrun' & Hcases).
    rewrite Hrun' in Hrun. cbn in Hrun. injection Hrun as <-.
    destruct Hcases as [(-> & _) | [(errors & data & -> & _) | (-> & _)]];
      cbn in Hstatus; discriminate Hstatus.
Qed.

Lemma handler_accepted_witness :
  let P := flaky_platform "production" 1 in
  let request := example_request true (contact_payload "ann@example.com") in
  let w := empty_world in
  accepted ContactForm = accepted ContactForm
  /\ limiter request = Returns true
  /\ exists options,
      submission P ContactForm demo_template request = Some options
      /\ fst (sendEmail P (emailService P) options w) = Returns true
      /\ (((development P = true \/ isConfigured (emailService P) = false)
           /\ sent (snd (handler P ContactForm demo_template request w)) = sent w)
          \/ exists m failures id,
              mailOptions_for P (emailService P) options = Returns m
              /\ failures <= maxRetries
              /\ sent (snd (handler P ContactForm demo_template request w))
                 = sent w ++ List.repeat m (failures + 1)
              /\ sendMail P (List.length (sent w) + failures) m = Returns id).
Proof.
  intros P request w.
  apply (handler_accepted P ContactForm demo_template request w (accepted ContactForm)).
  - vm_compute. reflexivity.
  - reflexivity.
Defined.

(** X17. An uploaded file is truncated only on the way to a 200, after
    [sendEmail] returned [true], and it is the file of that request; no
    other route and no other outcome touches a file. *)
Theorem handler_truncates_after_send
  (P : Platform) (r : Route) (template : EmailTemplate) (request : Request) (w : World) :
  truncated (snd (handler P r template request w)) = truncated w
  \/ exists file options,
      r = Applications
      /\ upload r request = Some file
      /\ submission P r template request = Some options
      /\ fst (sendEmail P (emailService P) options w) = Returns true
      /\ fst (handler P r template request w) = Returns (accepted r)
      /\ truncated (snd (handler P r template request w)) = truncated w ++ [file_path file].
Proof.
  destruct (handler_decide P r template request) as [(Hlimit & options & Hsub) | Hnot].
  - pose proof (sendEmail_truncated P (emailService P) options w) as Htrunc.
    rewrite (handler_submitted P r template request w options Hlimit Hsub).
    destruct (sendEmail P (emailService P) options w) as [[[|] | e] w1] eqn:Hsend;
      cbn [fst snd] in *; try (left; exact Htrunc).
    destruct (upload r request) as [file |] eqn:Hup; [| left; exact Htrunc].
    destruct (writeFile request) as [u | e]; [| left; exact Htrunc].
    right. exists file, options. rewrite Hsend. cbn [fst snd truncated]. rewrite Htrunc.
    repeat split; try assumption. destruct r; cbn in Hup; try discriminate Hup. reflexivity.
  - left.
    destruct (handler_not_submitted P r template request w Hnot)
      as (response & line & -> & _). reflexivity.
Qed.

(** X18. When truncating the uploaded file fails after [sendEmail] returned
    [true], the application is answered with the fixed 500 although the
    message was handed over: the world is the one [sendEmail] left, plus the
    error line. *)
Theorem application_cleanup_failure
  (P : Platform) (template : EmailTemplate) (request : Request) (w w1 : World)
  (options : EmailOptions) (file : UploadedFile) (e : JsError) :
  limiter request = Returns true ->
  submission P Applications template request = Some options ->
  upload Applications request = Some file ->
  writeFile request = Throws e ->
  sendEmail P (emailService P) options w = (Returns true, w1) ->
  handler P Applications template request w =
  (Returns technical_difficulties, logged w1 [log_error "Application Form Error" (Some e) []]).
Proof.
  intros Hlimit Hsub Hup Hwrite Hsend.
  rewrite (handler_submitted P Applications template request w options Hlimit Hsub).
  rewrite Hsend, Hup, Hwrite. reflexivity.
Qed.

Lemma application_cleanup_failure_witness :
  let P := flaky_platform "production" 0 in
  let request := {| x_forwarded_for := None; user_agent := None;
                    limiter := Returns true; json := Throws (Error "not json");
                    form := Returns (application_payload,
                                     Some {| file_name := "cv.pdf";
                                             file_path := "tmp/resume-1.pdf" |});
                    writeFile := Throws (Error "EACCES") |} in
  fst (handler P Applications demo_template request empty_world)
    = Returns technical_difficulties
  /\ List.length (sent (snd (handler P Applications demo_template request empty_world))) = 1
  /\ truncated (snd (handler P Applications demo_template request empty_world)) = [].
Proof.
  intros P request.
  destruct (submission P Applications demo_template request) as [options |] eqn:Hsub;
    [| vm_compute in Hsub; discriminate Hsub].
  assert (Hsend : sendEmail P (emailService P) options empty_world
                  = (Returns true, snd (sendEmail P (emailService P) options empty_world))).
  { vm_compute in Hsub. injection Hsub as <-. vm_compute. reflexivity. }
  rewrite (application_cleanup_failure P demo_template request empty_world _ options
             {| file_name := "cv.pdf"; file_path := "tmp/resume-1.pdf" |}
             (Error "EACCES") eq_refl Hsub eq_refl eq_refl Hsend).
  vm_compute in Hsub. injection Hsub as <-. vm_compute. repeat split.
Defined.

Lemma mailOptions_for_envelope P svc options m :
  mailOptions_for P svc options = Returns m ->
  mail_to m = match to options with
              | Several l => Js.join "," l
              | One address => address
              end
  /\ mail_subject m = subject options
  /\ from_name m = "Carlora Strategic Innovation"
  /\ mail_attachments m = o_attachments options
  /\ mail_replyTo m = o_replyTo options.
Proof.
  unfold mailOptions_for.
  match goal with |- obind ?first _ = _ -> _ => destruct first as [[h t] | e] end;
    cbn [obind fst snd]; [| discriminate].
  match goal with |- obind ?second _ = _ -> _ => destruct second as [clean | e] end;
    cbn [obind]; [| discriminate].
  intros H. injection H as <-. repeat split.
Qed.

(** X19. In development mode an admitted submission that passes the schema,
    and whose uploaded file (applications route), if there is one, is
    truncated without error, is answered 200 although nothing is sent: with
    a usable [SMTP_USER] the send is simulated, and the transport is not
    called.  (When the truncation throws, the answer is 500.) *)
Theorem handler_development_accepts
  (P : Platform) (r : Route) (template : EmailTemplate) (request : Request) (w : World)
  (options : EmailOptions) :
  development P = true ->
  validateEmails (smtp_user P) = true ->
  limiter request = Returns true ->
  submission P r template request = Some options ->
  upload r request = None \/ writeFile request = Returns tt ->
  fst (handler P r template request w) = Returns (accepted r)
  /\ sent (snd (handler P r template request w)) = sent w
  /\ slept (snd (handler P r template request w)) = slept w.
Proof.
  intros Hdev Huser Hlimit Hsub Hfile.
  assert (Hto : validateEmails (to options) = true).
  { destruct r; cbn in Hsub.
    - destruct (json request); [| discriminate].
      destruct (Consultation.consultationSchema P a); [| discriminate].
      injection Hsub as <-. exact Huser.
    - destruct (json request); [| discriminate].
      destruct (Contact.contactSchema P a); [| discriminate].
      injection Hsub as <-. exact Huser.
    - destruct (form request) as [[fields resume] |]; [| discriminate].
      destruct (Application.applicationSchema P fields); [| discriminate].
      injection Hsub as <-. exact Huser. }
  rewrite (handler_submitted P r template request w options Hlimit Hsub).
  rewrite sendEmail_of_try, sendEmail_try_simulating by (rewrite ?Hdev; auto).
  destruct (upload r request) as [file |].
  - destruct Hfile as [Hnone | ->]; [discriminate Hnone |]. repeat split.
  - repeat split.
Qed.

Lemma handler_development_accepts_witness :
  let P := flaky_platform "development" 5 in
  let request := example_request true (consultation_payload None) in
  fst (handler P BookConsultation demo_template request empty_world)
    = Returns (accepted BookConsultation)
  /\ sent (snd (handler P BookConsultation demo_template request empty_world)) = []
  /\ slept (snd (handler P BookConsultation demo_template request empty_world)) = [].
Proof.
  intros P request.
  destruct (submission P BookConsultation demo_template request) as [options |] eqn:Hsub;
    [| vm_compute in Hsub; discriminate Hsub].
  apply (handler_development_accepts P BookConsultation demo_template request empty_world
           options).
  - reflexivity.
  - vm_compute. reflexivity.
  - reflexivity.
  - exact Hsub.
  - left. reflexivity.
Defined.

(** X20. Outside development mode, on a configured service, an admitted
    submission that passes the schema, whose message the transport accepts
    at the first call and whose uploaded file (applications route), if there
    is one, is truncated without error, is answered 200; the transport is
    called exactly once, without a pause, with a message addressed to
    [SMTP_USER] that carries the subject of the submission. *)
Theorem handler_delivers_once
  (P : Platform) (r : Route) (template : EmailTemplate) (request : Request) (w : World)
  (options : EmailOptions) (m : MailOptions) (id : string) :
  development P = false ->
  isConfigured (emailService P) = true ->
  validateEmails (smtp_user P) = true ->
  limiter request = Returns true ->
  submission P r template request = Some options ->
  mailOptions_for P (emailService P) options = Returns m ->
  sendMail P (List.length (sent w)) m = Returns id ->
  upload r request = None \/ writeFile request = Returns tt ->
  fst (handler P r template request w) = Returns (accepted r)
  /\ sent (snd (handler P r template request w)) = sent w ++ [m]
  /\ slept (snd (handler P r template request w)) = slept w
  /\ Some (mail_to m) = SMTP_USER (env P)
  /\ mail_subject m = subject options.
Proof.
  intros Hdev Hconf Huser Hlimit Hsub Hbuild Hid Hfile.
  assert (Hto : to options = smtp_user P).
  { destruct r; cbn in Hsub.
    - destruct (json request); [| discriminate].
      destruct (Consultation.consultationSchema P a); [| discriminate].
      injection Hsub as <-. reflexivity.
    - destruct (json request); [| discriminate].
      destruct (Contact.contactSchema P a); [| discriminate].
      injection Hsub as <-. reflexivity.
    - destruct (form request) as [[fields resume] |]; [| discriminate].
      destruct (Application.applicationSchema P fields); [| discriminate].
      injection Hsub as <-. reflexivity. }
  destruct (emailService_transporter P Hconf) as (t & Ht & Hu).
  assert (Hsend : sendEmail P (emailService P) options w =
                  (Returns true,
                   {| console := console w ++ success_lines P id; sent := sent w ++ [m];
                      slept := slept w; truncated := truncated w |})).
  { rewrite sendEmail_of_try, sendEmail_try_sending, Hbuild
      by (rewrite ?Hto; assumption).
    rewrite sendWithRetry_step, (send_once_returns P (emailService P) t m w id Ht Hid).
    reflexivity. }
  rewrite (handler_submitted P r template request w options Hlimit Hsub), Hsend.
  destruct (mailOptions_for_envelope P _ _ _ Hbuild) as (Hmto & Hsubj & _).
  assert (Hrecipient : Some (mail_to m) = SMTP_USER (env P)).
  { rewrite Hmto, Hto. unfold smtp_user. rewrite Hu. reflexivity. }
  destruct (upload r request) as [file |].
  - destruct Hfile as [Hnone | ->]; [discriminate Hnone |]. repeat split; assumption.
  - repeat split; assumption.
Qed.

Lemma handler_delivers_once_witness :
  let P := flaky_platform "production" 0 in
  let request := example_request true (contact_payload "ann@example.com") in
  exists m,
    fst (handler P ContactForm demo_template request empty_world)
      = Returns (accepted ContactForm)
    /\ sent (snd (handler P ContactForm demo_template request empty_world)) = [] ++ [m]
    /\ slept (snd (handler P ContactForm demo_template request empty_world)) = []
    /\ Some (mail_to m) = Some "desk@example.com"
    /\ mail_subject m = "Contact Form: Ann Lee".
Proof.
  intros P request.
  destruct (submission P ContactForm demo_template request) as [options |] eqn:Hsub;
    [| vm_compute in Hsub; discriminate Hsub].
  destruct (mailOptions_for P (emailService P) options) as [m | e] eqn:Hbuild;
    [| vm_compute in Hsub; injection Hsub as <-; vm_compute in Hbuild; discriminate Hbuild].
  exists m.
  assert (Hsubject : subject options = "Contact Form: Ann Lee").
  { vm_compute in Hsub. injection Hsub as <-. reflexivity. }
  rewrite <- Hsubject.
  apply (handler_delivers_once P ContactForm demo_template request empty_world
           options m "<id@example.com>").
  - reflexivity.
  - reflexivity.
  - vm_compute. reflexivity.
  - reflexivity.
  - exact Hsub.
  - exact Hbuild.
  - reflexivity.
  - left. reflexivity.
Defined.

(** ** What the patterns accept *)

Module PatternFacts.
Import Re ReFacts Pattern.

#[local] Arguments String.append !s1 s2 : simpl nomatch.

Lemma all_chars_app q s1 s2 :
  all_chars q (s1 ++ s2) = all_chars q s1 && all_chars q s2.
Proof.
  induction s1 as [| c s1 IH]; cbn; [reflexivity |].
  rewrite IH. apply andb_assoc.
Qed.

Lemma count_char_app x s1 s2 :
  count_char x (s1 ++ s2) = count_char x s1 + count_char x s2.
Proof. induction s1 as [| c s1 IH]; cbn; [reflexivity | rewrite IH; lia]. Qed.

Lemma map_chars_app f s1 s2 :
  map_chars f (s1 ++ s2) = (map_chars f s1 ++ map_chars f s2)%string.
Proof. induction s1 as [| c s1 IH]; cbn; [reflexivity | rewrite IH; reflexivity]. Qed.

Lemma lang_within q r s : classes_within q r -> lang r s -> all_chars q s = true.
Proof.
  intros Hq H. induction H; cbn in Hq |- *; try reflexivity.
  - rewrite (Hq c H). reflexivity.
  - destruct Hq as [H1 H2]. rewrite all_chars_app, IHlang1, IHlang2; auto.
  - apply IHlang, Hq.
  - apply IHlang, Hq.
  - rewrite all_chars_app, IHlang1, IHlang2; auto.
Qed.

Lemma lang_closed f r s : classes_closed f r -> lang r s -> lang r (map_chars f s).
Proof.
  intros Hf H. induction H; cbn in Hf |- *.
  - constructor.
  - constructor. apply Hf. assumption.
  - destruct Hf as [H1 H2]. rewrite map_chars_app. constructor; auto.
  - apply lang_Alt_l, IHlang, Hf.
  - apply lang_Alt_r, IHlang, Hf.
  - constructor.
  - rewrite map_chars_app. constructor; auto.
Qed.

Lemma within_Upto q n r : classes_within q r -> classes_within q (Upto n r).
Proof. intros H. induction n; cbn; auto. Qed.

Lemma closed_Upto f n r : classes_closed f r -> classes_closed f (Upto n r).
Proof. intros H. induction n; cbn; auto. Qed.

Lemma all_chars_weaken (p q : ascii -> bool) s :
  (forall c, p c = true -> q c = true) -> all_chars p s = true -> all_chars q s = true.
Proof.
  intros Hpq. induction s as [| c s IH]; cbn; [reflexivity |].
  intros H. apply andb_true_iff in H as [Hc Hs]. rewrite (Hpq c Hc), (IH Hs). reflexivity.
Qed.

Lemma count_char_absent x s :
  all_chars (fun c => negb (Ascii.eqb x c)) s = true -> count_char x s = 0.
Proof.
  induction s as [| c s IH]; cbn; [reflexivity |].
  intros H. apply andb_true_iff in H as [Hc Hs]. apply negb_true_iff in Hc.
  rewrite Hc, (IH Hs). reflexivity.
Qed.

Ltac by_cases c :=
  destruct c as [[] [] [] [] [] [] [] []]; vm_compute; intros; congruence.

Lemma domain_label_within : classes_within label_char domain_label.
Proof.
  unfold domain_label. cbn -[Upto]. split; [intros c; by_cases c |]. split; [exact I |].
  split; [apply within_Upto; cbn; auto | intros c; by_cases c].
Qed.

Lemma domain_part_within : classes_within domain_char domain_part.
Proof.
  assert (H : classes_within domain_char domain_label).
  { unfold domain_label. cbn -[Upto]. split; [intros c; by_cases c |]. split; [exact I |].
    split; [apply within_Upto; cbn; intros c; by_cases c | intros c; by_cases c]. }
  cbn -[domain_label]. split; [exact H |]. split; [intros c; by_cases c | exact H].
Qed.

Lemma lang_nonempty_Plus p s : lang (Plus (Class p)) s -> s <> "".
Proof.
  intros H. inversion H as [| | ? ? s1 s2 H1 H2 | | | |]; subst.
  inversion H1; subst. discriminate.
Qed.

Lemma lang_nonempty_label s : lang domain_label s -> s <> "".
Proof.
  intros H. inversion H as [| | ? ? s1 s2 H1 H2 | | | |]; subst.
  inversion H1; subst. discriminate.
Qed.

(** The parts of an accepted address. *)
Lemma validateEmail_parts s :
  validateEmail s = true ->
  exists local domain,
    s = (local ++ "@" ++ domain)%string
    /\ local <> "" /\ domain <> ""
    /\ all_chars local_char local = true
    /\ all_chars domain_char domain = true.
Proof.
  intros H. apply matches_lang in H. unfold emailRegex in H.
  inversion H as [| | ? ? local rest Hlocal Hrest | | | |]; subst.
  inversion Hrest as [| | ? ? at_ domain Hat Hdomain | | | |]; subst.
  inversion Hat as [| p c Hc | | | | |]; subst.
  apply Ascii.eqb_eq in Hc. subst c.
  exists local, domain. split; [reflexivity |].
  split; [apply (lang_nonempty_Plus _ _ Hlocal) |].
  split.
  - inversion Hdomain as [| | ? ? s1 s2 H1 H2 | | | |]; subst.
    pose proof (lang_nonempty_label _ H1). intros E.
    apply append_empty in E as [E _]. contradiction.
  - split.
    + apply (lang_within local_char _ _) in Hlocal; [exact Hlocal |].
      cbn. repeat split; auto.
    + apply (lang_within domain_char domain_part); [apply domain_part_within | exact Hdomain].
Qed.

End PatternFacts.

Lemma length_append (s1 s2 : string) :
  String.length (s1 ++ s2) = String.length s1 + String.length s2.
Proof.
  induction s1 as [| c s1 IH]; [reflexivity |].
  change (S (String.length (s1 ++ s2)) = S (String.length s1 + String.length s2)).
  rewrite IH. reflexivity.
Qed.

Lemma local_char_facts c :
  local_char c = true -> Js.is_space c = false /\ Ascii.eqb "@" c = false.
Proof. destruct c as [[] [] [] [] [] [] [] []]; vm_compute; intros; split; congruence. Qed.

Lemma domain_char_facts c :
  Pattern.domain_char c = true -> Js.is_space c = false /\ Ascii.eqb "@" c = false.
Proof. destruct c as [[] [] [] [] [] [] [] []]; vm_compute; intros; split; congruence. Qed.

Lemma validateEmail_no_space s :
  validateEmail s = true -> all_chars (fun c => negb (Js.is_space c)) s = true.
Proof.
  intros H.
  destruct (PatternFacts.validateEmail_parts s H)
    as (local & domain & -> & _ & _ & Hlocal & Hdomain).
  rewrite !PatternFacts.all_chars_app.
  rewrite (PatternFacts.all_chars_weaken local_char _ local),
          (PatternFacts.all_chars_weaken Pattern.domain_char _ domain);
    try assumption; try reflexivity.
  - intros c Hc. apply domain_char_facts in Hc as [-> _]. reflexivity.
  - intros c Hc. apply local_char_facts in Hc as [-> _]. reflexivity.
Qed.

(** X21. Every address [validateEmail] accepts is a non-empty local part, one
    [@] and a non-empty domain, so it holds exactly one [@], no white space,
    and at least three characters; the local part uses only the characters
    of the pattern, the domain only letters, digits, hyphens and dots. *)
Theorem validateEmail_shape (s : string) :
  validateEmail s = true ->
  (exists local domain,
      s = (local ++ "@" ++ domain)%string
      /\ local <> "" /\ domain <> ""
      /\ all_chars local_char local = true
      /\ all_chars Pattern.domain_char domain = true)
  /\ count_char "@" s = 1
  /\ all_chars (fun c => negb (Js.is_space c)) s = true
  /\ 3 <= String.length s.
Proof.
  intros H.
  destruct (PatternFacts.validateEmail_parts s H)
    as (local & domain & -> & Hl & Hd & Hlocal & Hdomain).
  split; [exists local, domain; repeat split; assumption |].
  split; [| split].
  - rewrite !PatternFacts.count_char_app.
    rewrite (PatternFacts.count_char_absent "@" local),
            (PatternFacts.count_char_absent "@" domain); [reflexivity | |].
    + apply (PatternFacts.all_chars_weaken Pattern.domain_char); [| exact Hdomain].
      intros c Hc. apply domain_char_facts in Hc as [_ ->]. reflexivity.
    + apply (PatternFacts.all_chars_weaken local_char); [| exact Hlocal].
      intros c Hc. apply local_char_facts in Hc as [_ ->]. reflexivity.
  - rewrite !PatternFacts.all_chars_app.
    rewrite (PatternFacts.all_chars_weaken local_char _ local),
            (PatternFacts.all_chars_weaken Pattern.domain_char _ domain);
      try assumption; try reflexivity.
    + intros c Hc. apply domain_char_facts in Hc as [-> _]. reflexivity.
    + intros c Hc. apply local_char_facts in Hc as [-> _]. reflexivity.
  - rewrite !length_append.
    destruct local; [congruence |]. destruct domain; [congruence |]. cbn. lia.
Qed.

Lemma validateEmail_shape_witness :
  (exists local domain,
      "ann@example.com" = (local ++ "@" ++ domain)%string
      /\ local <> "" /\ domain <> ""
      /\ all_chars local_char local = true
      /\ all_chars Pattern.domain_char domain = true)
  /\ count_char "@" "ann@example.com" = 1
  /\ all_chars (fun c => negb (Js.is_space c)) "ann@example.com" = true
  /\ 3 <= String.length "ann@example.com".
Proof.
  apply (validateEmail_shape "ann@example.com"). vm_compute. reflexivity.
Defined.

Lemma toLowerCase_map s : Js.toLowerCase s = Pattern.map_chars Js.lower_char s.
Proof. induction s as [| c s IH]; cbn; [reflexivity | rewrite IH; reflexivity]. Qed.

Lemma lower_char_space c :
  Js.is_space c = false -> Js.is_space (Js.lower_char c) = false.
Proof. destruct c as [[] [] [] [] [] [] [] []]; vm_compute; intros; congruence. Qed.

Lemma trimEnd_no_space s :
  all_chars (fun c => negb (Js.is_space c)) s = true -> Js.trimEnd s = s.
Proof.
  induction s as [| c s IH]; cbn; [reflexivity |].
  intros H. apply andb_true_iff in H as [Hc Hs]. apply negb_true_iff in Hc.
  rewrite (IH Hs), Hc. destruct s; reflexivity.
Qed.

Lemma trim_no_space s :
  all_chars (fun c => negb (Js.is_space c)) s = true -> Js.trim s = s.
Proof.
  intros H. unfold Js.trim.
  assert (Hstart : Js.trimStart s = s).
  { destruct s as [| c s]; [reflexivity |]. cbn in H |- *.
    apply andb_true_iff in H as [Hc _]. apply negb_true_iff in Hc. rewrite Hc. reflexivity. }
  rewrite Hstart. apply trimEnd_no_space. exact H.
Qed.

Lemma emailRegex_closed_lower : Pattern.classes_closed Js.lower_char emailRegex.
Proof.
  assert (Hlabel : Pattern.classes_closed Js.lower_char domain_label).
  { unfold domain_label. cbn -[Re.Upto].
    split; [intros c; PatternFacts.by_cases c |]. split; [exact I |].
    split; [apply PatternFacts.closed_Upto; cbn; intros c; PatternFacts.by_cases c
           | intros c; PatternFacts.by_cases c]. }
  unfold emailRegex. cbn -[domain_label].
  repeat split; try exact Hlabel; intros c; PatternFacts.by_cases c.
Qed.

(** Lower-casing keeps an accepted address accepted. *)
Lemma validateEmail_toLowerCase s :
  validateEmail s = true -> validateEmail (Js.toLowerCase s) = true.
Proof.
  unfold validateEmail. intros H. apply ReFacts.matches_lang in H.
  apply ReFacts.matches_lang. rewrite toLowerCase_map.
  apply PatternFacts.lang_closed; [apply emailRegex_closed_lower | exact H].
Qed.

(** X22. In the contact schema the trim of the address changes nothing: a
    payload that passes has as validated address the submitted one in lower
    case, and that address again passes [validateEmail]. *)
Theorem contact_email_normal_form
  (P : Platform) (o : gmap string jsval) (c : Contact.Data) :
  Contact.contactSchema P (BodyObject o) = Zod.Valid c ->
  exists raw,
    o !! "email" = Some (VStr raw)
    /\ Contact.email c = Js.toLowerCase raw
    /\ validateEmail (Contact.email c) = true.
Proof.
  intros Hc. unfold Contact.contactSchema in Hc. split_fields Hc.
  injection Hc as <-. repeat open_field.
  match goal with
  | He : o !! "email" = Some (VStr ?e),
    Hchecks : flat_map (Zod.run_check "email" ?e) _ = [] |- _ =>
      exists e; cbn in Hchecks;
      destruct (zod_email P e), (validateEmail e) eqn:Hvalid; try discriminate Hchecks;
      split; [exact He |]
  end.
  cbn [Contact.email].
  match goal with
  | Hvalid : validateEmail ?e = true |- _ =>
      pose proof (validateEmail_toLowerCase e Hvalid) as Hlower;
      rewrite (trim_no_space _ (validateEmail_no_space _ Hlower))
  end.
  split; [reflexivity | exact Hlower].
Qed.

Lemma contact_email_normal_form_witness :
  let P := flaky_platform "production" 0 in
  exists raw,
    (list_to_map [("name", VStr " Ann Lee "); ("email", VStr "Ann@Example.COM");
                  ("message", VStr "  I have $$ to spend  ")] : gmap string jsval)
      !! "email" = Some (VStr raw)
    /\ "ann@example.com" = Js.toLowerCase raw
    /\ validateEmail "ann@example.com" = true.
Proof.
  intros P.
  apply (contact_email_normal_form P
           (list_to_map [("name", VStr " Ann Lee "); ("email", VStr "Ann@Example.COM");
                         ("message", VStr "  I have $$ to spend  ")])
           {| Contact.name := "Ann Lee"; Contact.email := "ann@example.com";
              Contact.message := "I have $$ to spend";
              Contact.timestamp := None; Contact.honeypot := None |}).
  vm_compute. reflexivity.
Defined.

Module AcceptFacts.
Import Re ReFacts.

#[local] Arguments String.append !s1 s2 : simpl nomatch.

Lemma star_all p s : all_chars p s = true -> lang (Star (Class p)) s.
Proof.
  induction s as [| c s IH]; cbn; intros H; [constructor |].
  apply andb_true_iff in H as [Hc Hs].
  change (String c s) with (String c "" ++ s)%string.
  constructor; [constructor; exact Hc | apply IH; exact Hs].
Qed.

Lemma plus_all p s : s <> "" -> all_chars p s = true -> lang (Plus (Class p)) s.
Proof.
  destruct s as [| c s]; [congruence |]. cbn. intros _ H.
  apply andb_true_iff in H as [Hc Hs].
  change (String c s) with (String c "" ++ s)%string.
  constructor; [constructor; exact Hc | apply star_all; exact Hs].
Qed.

Lemma upto_all p n : forall s,
  all_chars p s = true -> String.length s <= n -> lang (Upto n (Class p)) s.
Proof.
  induction n as [| n IH]; intros [| c s] H Hlen; cbn in *.
  - constructor.
  - lia.
  - apply lang_Alt_l. constructor.
  - apply andb_true_iff in H as [Hc Hs]. apply lang_Alt_r.
    change (String c s) with (String c "" ++ s)%string.
    constructor; [constructor; exact Hc | apply IH; [exact Hs | lia]].
Qed.

Lemma snoc_split p s :
  s <> "" -> all_chars p s = true ->
  exists init last,
    s = (init ++ String last "")%string
    /\ all_chars p init = true /\ p last = true
    /\ String.length s = S (String.length init).
Proof.
  induction s as [| c s IH]; [congruence |]. intros _ H. cbn in H.
  apply andb_true_iff in H as [Hc Hs].
  destruct s as [| c' s'].
  - exists "", c. repeat split. exact Hc.
  - destruct (IH ltac:(discriminate) Hs) as (init & last & Heq & Hinit & Hlast & Hlen).
    exists (String c init), last. rewrite Heq. cbn. rewrite Hc, Hinit.
    repeat split; try assumption.
    rewrite Heq in Hlen. cbn in Hlen |- *. lia.
Qed.

Lemma alnum_label c : Js.is_alnum c = true -> label_char c = true.
Proof. unfold label_char. intros ->. reflexivity. Qed.

(** A run of 1 to 63 letters and digits is a label. *)
Lemma label_alnum s :
  s <> "" -> all_chars Js.is_alnum s = true -> String.length s <= 63 ->
  lang domain_label s.
Proof.
  destruct s as [| c s]; [congruence |]. intros _ H Hlen. cbn in H, Hlen.
  apply andb_true_iff in H as [Hc Hs].
  change (String c s) with (String c "" ++ s)%string.
  unfold domain_label. constructor; [constructor; exact Hc |].
  destruct s as [| c' s'].
  - apply lang_Alt_l. constructor.
  - apply lang_Alt_r.
    destruct (snoc_split Js.is_alnum (String c' s') ltac:(discriminate) Hs)
      as (init & last & Heq & Hinit & Hlast & Hl).
    rewrite Heq. cbn in Hl, Hlen.
    constructor; [| constructor; exact Hlast].
    apply upto_all.
    + apply (PatternFacts.all_chars_weaken Js.is_alnum); [exact alnum_label | exact Hinit].
    + lia.
Qed.

Lemma any_string s : lang (Star (Class (fun _ => true))) s.
Proof. apply star_all. induction s; cbn; auto. Qed.

End AcceptFacts.

(** X23. [validateEmail] asks for no dot in the domain: any non-empty local
    part made of the characters of the pattern, followed by [@] and a single
    label of 1 to 63 letters and digits, is accepted. *)
Theorem validateEmail_single_label (local label : string) :
  local <> "" ->
  all_chars local_char local = true ->
  label <> "" ->
  all_chars Js.is_alnum label = true ->
  String.length label <= 63 ->
  validateEmail (local ++ "@" ++ label) = true.
Proof.
  intros Hl Hlocal Hd Hlabel Hlen. unfold validateEmail.
  apply ReFacts.matches_lang. unfold emailRegex.
  constructor; [apply AcceptFacts.plus_all; assumption |].
  constructor; [constructor; reflexivity |].
  rewrite <- (ReFacts.append_nil_r label).
  constructor; [apply AcceptFacts.label_alnum; assumption | constructor].
Qed.

Lemma validateEmail_single_label_witness :
  validateEmail ("root" ++ "@" ++ "localhost") = true.
Proof.
  apply (validateEmail_single_label "root" "localhost");
    try discriminate; try reflexivity.
  cbn. lia.
Defined.

(** X24. The phone pattern is anchored at the end only: a text that passes
    still passes with anything put in front of it. *)
Theorem phone_like_any_prefix (prefix s : string) :
  Application.phone_like s = true ->
  Application.phone_like (prefix ++ s) = true.
Proof.
  unfold Application.phone_like, Re.matches_suffix. intros H.
  apply ReFacts.matches_lang in H. apply ReFacts.matches_lang.
  inversion H as [| | ? ? s1 s2 H1 H2 | | | |]; subst.
  rewrite <- ReFacts.append_assoc.
  constructor; [apply AcceptFacts.any_string | exact H2].
Qed.

Lemma phone_like_any_prefix_witness :
  Application.phone_like ("<script>alert(1)</script>" ++ "12") = true.
Proof.
  apply (phone_like_any_prefix "<script>alert(1)</script>" "12").
  vm_compute. reflexivity.
Defined.

Lemma trimStart_blank s : all_chars Js.is_space s = true -> Js.trimStart s = "".
Proof.
  induction s as [| c s IH]; cbn; [reflexivity |].
  intros H. apply andb_true_iff in H as [Hc Hs]. rewrite Hc. apply IH. exact Hs.
Qed.

Lemma trim_blank s : all_chars Js.is_space s = true -> Js.trim s = "".
Proof. intros H. unfold Js.trim. rewrite (trimStart_blank s H). reflexivity. Qed.

Lemma letters_only_blank s : all_chars Js.is_space s = true -> Contact.letters_only s = true.
Proof.
  intros H. unfold Contact.letters_only. apply ReFacts.matches_lang.
  apply AcceptFacts.star_all.
  apply (PatternFacts.all_chars_weaken Js.is_space); [| exact H].
  intros c ->. apply orb_true_r.
Qed.

(** X25. The contact schema checks lengths before it trims: a name of two or
    more white-space characters and a message of ten to a thousand
    white-space characters pass, and the validated name and message are
    empty. *)
Theorem contact_blank_fields
  (P : Platform) (o : gmap string jsval) (name email message : string) :
  o !! "name" = Some (VStr name) ->
  o !! "email" = Some (VStr email) ->
  o !! "message" = Some (VStr message) ->
  o !! "timestamp" = None ->
  o !! "honeypot" = None ->
  all_chars Js.is_space name = true ->
  2 <= String.length name ->
  all_chars Js.is_space message = true ->
  10 <= String.length message <= 1000 ->
  zod_email P email = true ->
  validateEmail email = true ->
  Contact.contactSchema P (BodyObject o) =
  Zod.Valid {| Contact.name := ""; Contact.email := Js.toLowerCase email;
               Contact.message := ""; Contact.timestamp := None;
               Contact.honeypot := None |}.
Proof.
  intros Hn He Hm Ht Hh Hname Hnlen Hmessage [Hmin Hmax] Hzod Hvalid.
  unfold Contact.contactSchema. rewrite Hn, He, Hm, Ht, Hh.
  unfold Zod.transform, Zod.string_, Zod.optional. cbn [flat_map Zod.run_check].
  rewrite (letters_only_blank name Hname), Hzod, Hvalid.
  replace (String.length name <? 2)%nat with false by (symmetry; apply Nat.ltb_ge; lia).
  replace (String.length message <? 10)%nat with false by (symmetry; apply Nat.ltb_ge; lia).
  replace (1000 <? String.length message)%nat with false
    by (symmetry; apply Nat.ltb_ge; lia).
  cbn. rewrite (trim_blank name Hname), (trim_blank message Hmessage).
  rewrite (trim_no_space _ (validateEmail_no_space _ (validateEmail_toLowerCase email Hvalid))).
  reflexivity.
Qed.

Lemma contact_blank_fields_witness :
  let P := flaky_platform "production" 0 in
  Contact.contactSchema P
    (object_of [("name", VStr "  "); ("email", VStr "Ann@Example.COM");
                ("message", VStr "          ")]) =
  Zod.Valid {| Contact.name := ""; Contact.email := Js.toLowerCase "Ann@Example.COM";
               Contact.message := ""; Contact.timestamp := None;
               Contact.honeypot := None |}.
Proof.
  intros P.
  apply (contact_blank_fields P
           (list_to_map [("name", VStr "  "); ("email", VStr "Ann@Example.COM");
                         ("message", VStr "          ")])
           "  " "Ann@Example.COM" "          ");
    try (vm_compute; reflexivity); vm_compute; lia.
Defined.

(** ** Rendering, once more *)

(** X26. The keys the three handlers give to a template are fixed and are
    literal text as patterns, so rendering the data of a handler returns
    whatever the submitted values are: user input cannot make it throw. *)
Theorem handler_data_renders
  (P : Platform) (template : EmailTemplate) (info : DiagnosticInfo)
  (b : Consultation.Data) (c : Contact.Data) (a : Application.Data) :
  (exists rendered,
      render (RegExp_g P) template (Consultation.templateData P b info) = Returns rendered)
  /\ (exists rendered,
        render (RegExp_g P) template (Contact.templateData P c info) = Returns rendered)
  /\ (exists rendered,
        render (RegExp_g P) template (Application.templateData P a info) = Returns rendered).
Proof.
  split; [| split]; apply render_plain_returns.
  - unfold Consultation.templateData. destruct (Consultation.honeypot b); reflexivity.
  - reflexivity.
  - reflexivity.
Qed.

(** X27. Rendering with more data is rendering again: the result for
    [first ++ more] is the result for [more] on the template that the
    rendering for [first] produced.  So the value of an earlier key is
    itself searched for the placeholders of the later keys. *)
Theorem render_app
  (RegExp_g : string -> outcome Replacer) (t : EmailTemplate)
  (first more : list (string * jsval)) :
  render RegExp_g t (first ++ more) =
  obind (render RegExp_g t first)
    (fun rendered =>
       render RegExp_g
         {| htmlTemplate := html rendered; textTemplate := text rendered |} more).
Proof.
  unfold render. rewrite fold_left_app.
  destruct (fold_left (render_step RegExp_g) first
              (Returns {| html := htmlTemplate t; text := textTemplate t |}))
    as [[h x] | e]; cbn [obind html text htmlTemplate textTemplate].
  - reflexivity.
  - apply render_from_throws.
Qed.

Lemma scan_before_irrelevant pat replacement :
  Js.one_of replacement "$" = false ->
  forall s skip before before',
    Replace.scan pat replacement skip before s
    = Replace.scan pat replacement skip before' s.
Proof.
  intros Hplain. induction s as [| c rest IH]; intros skip before before'; cbn [Replace.scan].
  - destruct pat; [| reflexivity]. rewrite !(expand_no_dollar _ _ _ _ Hplain). reflexivity.
  - destruct skip as [| k]; [| apply IH].
    destruct (Replace.starts_with pat (String c rest)).
    + rewrite !(expand_no_dollar _ _ _ _ Hplain).
      destruct pat; [rewrite (IH 0 _ (before' ++ String c "")%string); reflexivity |].
      rewrite (IH _ _ (before' ++ String c "")%string). reflexivity.
    + rewrite (IH 0 _ (before' ++ String c "")%string). reflexivity.
Qed.

Lemma scan_skip p0 pat' replacement :
  Js.one_of replacement "$" = false ->
  forall skip s before,
    Replace.scan (String p0 pat') replacement skip before s
    = Replace.scan (String p0 pat') replacement 0 EmptyString (Replace.drop skip s).
Proof.
  intros Hplain. induction skip as [| k IH]; intros s before.
  - cbn [Replace.drop]. destruct s; [reflexivity |].
    apply (scan_before_irrelevant _ _ Hplain).
  - destruct s as [| c rest]; [reflexivity |]. cbn [Replace.scan Replace.drop]. apply IH.
Qed.

(** X28. For a value without a dollar sign, replacing a non-empty pattern is
    the plain substitution from left to right: nothing to do on the empty
    string; where the pattern starts, the value, then the rest after the
    pattern; elsewhere the character, then the rest. *)
Theorem replace_all_plain_value (pat value : string) :
  pat <> "" ->
  Js.one_of value "$" = false ->
  Replace.replace_all pat value "" = ""
  /\ (forall s,
        Replace.starts_with pat s = true ->
        Replace.replace_all pat value s
        = (value ++ Replace.replace_all pat value (Replace.drop (String.length pat) s))%string)
  /\ (forall c s,
        Replace.starts_with pat (String c s) = false ->
        Replace.replace_all pat value (String c s)
        = String c (Replace.replace_all pat value s)).
Proof.
  intros Hpat Hplain. destruct pat as [| p0 pat']; [congruence |].
  unfold Replace.replace_all. split; [reflexivity |]. split.
  - intros [| c rest] Hstart; [discriminate Hstart |].
    cbn [Replace.scan]. rewrite Hstart, (expand_no_dollar _ _ _ _ Hplain).
    rewrite (scan_skip p0 pat' value Hplain). reflexivity.
  - intros c s Hstart. cbn [Replace.scan]. rewrite Hstart.
    rewrite (scan_before_irrelevant _ _ Hplain s 0 _ ""). reflexivity.
Qed.

Lemma replace_all_plain_value_witness :
  Replace.replace_all "{{name}}" "Ann" "" = ""
  /\ (forall s,
        Replace.starts_with "{{name}}" s = true ->
        Replace.replace_all "{{name}}" "Ann" s
        = ("Ann" ++ Replace.replace_all "{{name}}" "Ann"
                      (Replace.drop (String.length "{{name}}") s))%string)
  /\ (forall c s,
        Replace.starts_with "{{name}}" (String c s) = false ->
        Replace.replace_all "{{name}}" "Ann" (String c s)
        = String c (Replace.replace_all "{{name}}" "Ann" s)).
Proof.
  apply (replace_all_plain_value "{{name}}" "Ann"); [discriminate | reflexivity].
Defined.
